(** * action-editor-search: the citation-graph search of [search.py]

    A shallow embedding of the parts of [search.py] that drive the
    breadth-first search through the citation graph: the [Paper] record,
    the retrying HTTP client, the neighbour fetcher, the match check
    against the editors' roster, the batch-lookup backoff of the roster
    builder and the search loop of [main].

    Python integers are [Z], strings are [string], the [found_ids] set is a
    [gset string], the [findings] dictionary is a [gmap string (list Paper)]
    and the roster dictionary is the list of its items in insertion order.
    Effects (HTTP requests, [time.sleep], [print]) are threaded through an
    explicit [World]. *)

From Stdlib Require Import ZArith String Ascii List Lia.
From stdpp Require Import base gmap sets list strings.
From stdpp Require Import sorting pretty.

Local Open Scope string_scope.
Local Open Scope list_scope.
Local Open Scope Z_scope.

(** ** Paper records *)

(** [class Paper]: the two provenance attributes start as [None] and are
    set by [cited] and [referenced_by]. *)
#[local] Unset Elimination Schemes.
Inductive Paper : Type := mkPaper {
  id : string;
  title : string;
  cited_paper : option Paper;
  referenced_by_paper : option Paper
}.
#[local] Set Elimination Schemes.

(** [Paper(id, title)]. *)
Definition new_Paper (i t : string) : Paper := mkPaper i t None None.

(** [self.cited(paper)]. In [main] a record is linked before it is put in
    any list and never written afterwards, so a link to the parent's value
    is the same as Python's reference to the parent object. *)
Definition cited (self paper : Paper) : Paper :=
  mkPaper (id self) (title self) (Some paper) (referenced_by_paper self).

(** [self.referenced_by(paper)]. *)
Definition referenced_by (self paper : Paper) : Paper :=
  mkPaper (id self) (title self) (cited_paper self) (Some paper).

(** [Paper.get_path_depth]: a [Paper] object is always truthy, so the
    tests on the two attributes are tests against [None]. *)
Fixpoint get_path_depth (self : Paper) : Z :=
  match self with
  | mkPaper _ _ (Some p) _ => 1 + get_path_depth p
  | mkPaper _ _ None (Some p) => 1 + get_path_depth p
  | mkPaper _ _ None None => 0
  end.

Definition dquote : string := String (ascii_of_nat 34) EmptyString.
Definition newline : string := String (ascii_of_nat 10) EmptyString.

(** [Paper.get_path_string]. *)
Fixpoint get_path_string (self : Paper) : string :=
  let path_string := dquote +:+ title self +:+ dquote in
  match self with
  | mkPaper _ _ (Some p) _ =>
      path_string +:+ newline +:+ "    which cited " +:+ get_path_string p
  | mkPaper _ _ None (Some p) =>
      path_string +:+ newline +:+ "    which was referenced by "
        +:+ get_path_string p
  | mkPaper _ _ None None => path_string
  end.

(** ** The outside world *)

(** An entry of the [data] list of a search response. *)
Record PaperRef : Type := { paperId : string; ref_title : string }.

(** The decoded JSON body of the paper-detail endpoint, as far as the
    neighbour fetcher reads it: an object whose [citations] and
    [references] fields may be missing, [null] or an array of objects, each
    of which may lack its [paperId] or its [title] key ([None]). The values
    of the two keys are strings. *)
Record Item : Type := {
  item_paperId : option string;
  item_title : option string
}.

Inductive Field : Type :=
| Absent
| Null
| Array (items : list Item).

Record Body : Type := {
  citations : Field;
  references : Field
}.

Record Response : Type := { status_code : Z; json : Body }.

Inductive Request : Type :=
| Get (url : string)
| Post (url fields : string) (ids : list string).

(** What has happened so far: the requests sent, the durations slept and
    the lines printed, each in chronological order. *)
Record World : Type := {
  requests : list Request;
  slept : list Z;
  stdout : list string
}.

Definition world0 : World := {| requests := []; slept := []; stdout := [] |}.

(** The exceptions that the modelled code raises. *)
Inductive exn : Type :=
| UnboundLocalError (variable : string)
| TypeError (message : string)
| KeyError (key : string)
| IndexError.

Inductive Res (A : Type) : Type :=
| Ok (a : A)
| Raise (e : exn).
Arguments Ok {A} a.
Arguments Raise {A} e.

(** Computations that act on the world and may raise. *)
Definition M (A : Type) : Type := World -> Res A * World.

Definition ret {A} (a : A) : M A := fun w => (Ok a, w).

Definition raise {A} (e : exn) : M A := fun w => (Raise e, w).

(** A computation that does not act on the world. *)
Definition lift {A} (r : Res A) : M A := fun w => (r, w).

Definition bind {A B} (m : M A) (k : A -> M B) : M B :=
  fun w => match m w with
           | (Ok a, w') => k a w'
           | (Raise e, w') => (Raise e, w')
           end.

Notation "'do' x <- c1 ; c2" := (bind c1 (fun x => c2))
  (at level 10, x name, c1 at level 100, c2 at level 200).
Notation "'do' ' p <- c1 ; c2" := (bind c1 (fun x => match x with p => c2 end))
  (at level 10, p pattern, c1 at level 100, c2 at level 200).
Notation "'run' c1 ; c2" := (bind c1 (fun _ => c2))
  (at level 10, c1 at level 100, c2 at level 200).

(** [time.sleep(t)]. *)
Definition sleep (t : Z) : M unit := fun w =>
  (Ok tt, {| requests := requests w; slept := slept w ++ [t];
             stdout := stdout w |}).

(** [print(line)]. *)
Definition print (line : string) : M unit := fun w =>
  (Ok tt, {| requests := requests w; slept := slept w;
             stdout := stdout w ++ [line] |}).

Fixpoint print_lines (lines : list string) : M unit :=
  match lines with
  | [] => ret tt
  | line :: rest => run print line; print_lines rest
  end.

(** ** The match check *)

(** The line printed by [printFinding(editor, paper)]. *)
Definition finding_notice (editor : string) (paper : Paper) : string :=
  editor +:+ " authored " +:+ get_path_string paper.

(** The two statements that record a match: create [findings[editor]]
    when the key is missing, then append to it. *)
Definition add_finding (editor : string) (paper : Paper)
    (findings : gmap string (list Paper)) : gmap string (list Paper) :=
  let findings :=
    match findings !! editor with
    | None => <[editor := []]> findings
    | Some _ => findings
    end in
  alter (fun l => l ++ [paper]) editor findings.

(** The inner [for paper in papers] loop of [check_papers] for one editor;
    the second component lists the notices printed, in order. *)
Fixpoint check_editor (editor : string) (editor_paper_ids : gset string)
    (papers : list Paper) (findings : gmap string (list Paper))
    : gmap string (list Paper) * list string :=
  match papers with
  | [] => (findings, [])
  | paper :: rest =>
      if bool_decide (id paper ∈ editor_paper_ids) then
        let '(findings', notices) :=
          check_editor editor editor_paper_ids rest
            (add_finding editor paper findings) in
        (findings', finding_notice editor paper :: notices)
      else check_editor editor editor_paper_ids rest findings
  end.

(** [check_papers(papers, editors_paper_ids, findings)]: the roster is the
    list of the dictionary's items, so its keys are pairwise distinct. *)
Fixpoint check_papers (papers : list Paper)
    (editors_paper_ids : list (string * list string))
    (findings : gmap string (list Paper))
    : gmap string (list Paper) * list string :=
  match editors_paper_ids with
  | [] => (findings, [])
  | (editor, editor_paper_ids) :: rest =>
      let editor_paper_ids : gset string := list_to_set editor_paper_ids in
      let '(findings1, notices1) :=
        check_editor editor editor_paper_ids papers findings in
      let '(findings2, notices2) := check_papers papers rest findings1 in
      (findings2, notices1 ++ notices2)
  end.

(** [check_papers] called [n] times in a row with the same batch. *)
Fixpoint check_papers_times (n : nat) (papers : list Paper)
    (editors_paper_ids : list (string * list string))
    (findings : gmap string (list Paper)) : gmap string (list Paper) :=
  match n with
  | O => findings
  | S n' =>
      check_papers_times n' papers editors_paper_ids
        (check_papers papers editors_paper_ids findings).1
  end.

(** ** The search state *)

Record BfsState : Type := {
  fringe : list Paper;
  found_ids : gset string;
  findings : gmap string (list Paper)
}.

(** One of the two [for ... in ...] loops over the neighbours of a paper:
    a neighbour whose id is new is marked as found, linked to the paper
    by [link] and appended to [new_papers]. *)
Fixpoint discover (link : Paper -> Paper) (candidates : list Paper)
    (found_ids : gset string) (new_papers : list Paper)
    : gset string * list Paper :=
  match candidates with
  | [] => (found_ids, new_papers)
  | candidate :: rest =>
      if bool_decide (id candidate ∈ found_ids) then
        discover link rest found_ids new_papers
      else
        discover link rest ({[id candidate]} ∪ found_ids)
          (new_papers ++ [link candidate])
  end.

(** ** The neighbours in a response body *)

(** [Paper(c['paperId'], c['title'])]: the two subscripts are evaluated
    from left to right, and a missing key raises [KeyError]. *)
Definition paper_of_item (c : Item) : Res Paper :=
  match item_paperId c with
  | None => Raise (KeyError "paperId")
  | Some paper_id =>
      match item_title c with
      | None => Raise (KeyError "title")
      | Some paper_title => Ok (new_Paper paper_id paper_title)
      end
  end.

(** The list comprehension [[Paper(c['paperId'], c['title']) for c in
    items]]: the first entry that fails ends it. *)
Fixpoint papers_of_items (items : list Item) : Res (list Paper) :=
  match items with
  | [] => Ok []
  | c :: rest =>
      match paper_of_item c with
      | Raise e => Raise e
      | Ok paper =>
          match papers_of_items rest with
          | Raise e => Raise e
          | Ok papers => Ok (paper :: papers)
          end
      end
  end.

(** The comprehension over [data.get(key, [])]: the default stands for a
    missing key only, and iterating over [None] raises [TypeError]. *)
Definition papers_of_field (field : Field) : Res (list Paper) :=
  match field with
  | Absent => Ok []
  | Null => Raise (TypeError "'NoneType' object is not iterable")
  | Array items => papers_of_items items
  end.

(** How one pass through the [while fringe] loop ends. *)
Inductive Flow : Type :=
| Next (st : BfsState)
| Stop (st : BfsState).

Section Network.

(** The remote services: the answer to a request may depend on how many
    requests the run has sent before it. Every request is answered; a
    failure of the transport is not part of the model. *)
Variable server : nat -> Request -> Response.

Definition send (rq : Request) : M Response := fun w =>
  (Ok (server (length (requests w)) rq),
   {| requests := requests w ++ [rq]; slept := slept w; stdout := stdout w |}).

(** ** The retry client *)

(** The [for attempt in range(max_retries)] loop of [request_with_retries];
    [response] is [None] while the local variable is unbound. *)
Fixpoint retry_loop (attempts : nat) (url : string) (wait_time : Z)
    (response : option Response) : M Response :=
  match attempts with
  | O =>
      match response with
      | Some r => ret r
      | None => raise (UnboundLocalError "response")
      end
  | S attempts' =>
      do r <- send (Get url);
      if negb (status_code r =? 429) then ret r
      else run sleep wait_time;
           retry_loop attempts' url (wait_time * 2) (Some r)
  end.

(** [request_with_retries(url, max_retries, session)]; [range] of a
    number below one is empty. The session only adds the API key to the
    request, so [session.get(url)] is a [GET] sent to the server. *)
Definition request_with_retries (url : string) (max_retries : Z) : M Response :=
  retry_loop (Z.to_nat max_retries) url 1 None.

(** ** The neighbour fetcher *)

(** [bool(response)] is [response.ok]: no status from 400 to 599. *)
Definition ok (response : Response) : bool :=
  negb ((400 <=? status_code response) && (status_code response <? 600)).

Definition detail_url (paper_id : string) : string :=
  "https://api.semanticscholar.org/graph/v1/paper/" +:+ paper_id
  +:+ "/?fields=citations.paperId,citations.title,references.paperId,references.title".

(** [get_citing_and_referenced_papers(paper_id, session)], which calls
    [request_with_retries] with its default [max_retries=4]; the list of
    the citing papers is built before that of the referenced papers. *)
Definition get_citing_and_referenced_papers (paper_id : string)
    : M (list Paper * list Paper) :=
  do response <- request_with_retries (detail_url paper_id) 4;
  if ok response && (status_code response =? 200) then
    let data := json response in
    do citing_papers <- lift (papers_of_field (citations data));
    do referenced_papers <- lift (papers_of_field (references data));
    ret (citing_papers, referenced_papers)
  else ret ([], []).

(** ** The batch lookup of the roster builder *)

Definition batch_url : string :=
  "https://api.semanticscholar.org/graph/v1/paper/batch".

(** The [while r.status_code == 429] loop of [scrape_editors_paper_ids];
    [None] when the fuel runs out before the loop does. *)
Fixpoint batch_retry_loop (fuel : nat) (arxiv_ids : list string)
    (wait_time : Z) (r : Response) : M (option Response) :=
  match fuel with
  | O => ret None
  | S fuel' =>
      if status_code r =? 429 then
        run sleep wait_time;
        let wait_time := wait_time * 2 in
        do r <- send (Post batch_url "title" arxiv_ids);
        if wait_time >? 10 then ret (Some r)
        else batch_retry_loop fuel' arxiv_ids wait_time r
      else ret (Some r)
  end.

(** The request for one editor's ids in [scrape_editors_paper_ids], up to
    the end of its retry loop. *)
Definition batch_lookup (fuel : nat) (arxiv_ids : list string)
    : M (option Response) :=
  do r <- send (Post batch_url "title,paperId" arxiv_ids);
  batch_retry_loop fuel arxiv_ids 1 r.

(** ** The search loop of [main] *)

(** One test of [while fringe] followed by one pass through its body. *)
Definition bfs_iteration (depth : Z)
    (editors_paper_ids : list (string * list string)) (st : BfsState)
    : M Flow :=
  match fringe st with
  | [] => ret (Stop st)
  | paper :: fringe' =>
      if get_path_depth paper >? depth then
        ret (Stop {| fringe := fringe'; found_ids := found_ids st;
                     findings := findings st |})
      else
        do ' (citing_papers, referenced_papers) <-
          get_citing_and_referenced_papers (id paper);
        let '(found1, new1) :=
          discover (fun citing_paper => cited citing_paper paper)
            citing_papers (found_ids st) [] in
        let '(found2, new_papers) :=
          discover (fun referenced_paper => referenced_by referenced_paper paper)
            referenced_papers found1 new1 in
        let '(findings', notices) :=
          check_papers new_papers editors_paper_ids (findings st) in
        run print_lines notices;
        ret (Next {| fringe := fringe' ++ new_papers; found_ids := found2;
                     findings := findings' |})
  end.

(** The [while fringe] loop; [None] when the fuel runs out first. A
    [KeyboardInterrupt] arrives from outside the program and is not part
    of the model; any other exception, such as the one a fetch raises on
    a body it cannot read, leaves the loop and [main], which catches
    nothing else. *)
Fixpoint bfs_loop (fuel : nat) (depth : Z)
    (editors_paper_ids : list (string * list string)) (st : BfsState)
    : M (option BfsState) :=
  match fuel with
  | O => ret None
  | S fuel' =>
      do flow <- bfs_iteration depth editors_paper_ids st;
      match flow with
      | Stop st' => ret (Some st')
      | Next st' => bfs_loop fuel' depth editors_paper_ids st'
      end
  end.

(** The statements of [main] from [findings = {}] to the loop: the match
    check of the seeds and the initial fringe and found set. *)
Definition bfs_init (papers : list Paper)
    (editors_paper_ids : list (string * list string)) : M BfsState :=
  run print "Beginning BFS...";
  let '(findings, notices) := check_papers papers editors_paper_ids ∅ in
  run print_lines notices;
  ret {| fringe := papers; found_ids := list_to_set (map id papers);
         findings := findings |}.

(** The search of [main], for the seed papers found for the bibliography
    and the roster scraped for the editors. *)
Definition bfs (fuel : nat) (depth : Z) (papers : list Paper)
    (editors_paper_ids : list (string * list string))
    : M (option BfsState) :=
  do st <- bfs_init papers editors_paper_ids;
  bfs_loop fuel depth editors_paper_ids st.

End Network.

(** ** Resolving the bibliography: [get_papers_on_s2] *)

(** [re.sub(r'[^a-zA-Z0-9 ]', '', title)] keeps the characters of this
    class. Strings are sequences of bytes (UTF-8), and no byte of a
    character outside ASCII is in the class. *)
Definition kept (c : ascii) : bool :=
  let n := nat_of_ascii c in
  ((97 <=? n) && (n <=? 122) || (65 <=? n) && (n <=? 90)
   || (48 <=? n) && (n <=? 57) || (n =? 32))%nat.

Fixpoint clean_title (title : string) : string :=
  match title with
  | EmptyString => EmptyString
  | String c rest =>
      if kept c then String c (clean_title rest) else clean_title rest
  end.

(** The ASCII characters that [str.split()] takes for white space. *)
Definition isspace (c : ascii) : bool :=
  let n := nat_of_ascii c in
  ((9 <=? n) && (n <=? 13) || (28 <=? n) && (n <=? 32))%nat.

(** [s.split()] for an ASCII string: the maximal runs of characters that
    are not white space; [cur] is the run being read. *)
Fixpoint split_go (cur s : string) : list string :=
  match s with
  | EmptyString => if decide (cur = EmptyString) then [] else [cur]
  | String c rest =>
      if isspace c then
        if decide (cur = EmptyString) then split_go EmptyString rest
        else cur :: split_go EmptyString rest
      else split_go (cur +:+ String c EmptyString) rest
  end.

Definition split (s : string) : list string := split_go EmptyString s.

(** [sep.join(words)]. *)
Fixpoint join (sep : string) (words : list string) : string :=
  match words with
  | [] => EmptyString
  | [word] => word
  | word :: rest => word +:+ sep +:+ join sep rest
  end.

(** The query that [get_papers_on_s2] builds for a title. *)
Definition query_of_title (title : string) : string :=
  let cleaned_title := clean_title title in
  join "+" (split cleaned_title).

Definition search_url (query : string) : string :=
  "https://api.semanticscholar.org/graph/v1/paper/search"
  +:+ "?query=" +:+ query +:+ "&fields=title".

Section Resolution.

Variable server : nat -> Request -> Response.

(** The [data] field of the decoded body of a search response: [None]
    when the body has no such field, else the candidates in rank order. *)
Variable search_data : Response -> option (list PaperRef).

(** The [for title in titles] loop of [get_papers_on_s2]; the progress bar
    goes to the standard error stream and is left out. *)
Fixpoint get_papers_on_s2_loop (titles : list string) (papers : list Paper)
    : M (list Paper) :=
  match titles with
  | [] => ret papers
  | title :: rest =>
      let query := query_of_title title in
      do response <- request_with_retries server (search_url query) 4;
      if status_code response =? 200 then
        match search_data response with
        | Some (first :: _) =>
            get_papers_on_s2_loop rest
              (papers ++ [new_Paper (paperId first) (ref_title first)])
        | _ => get_papers_on_s2_loop rest papers
        end
      else
        run print ("HTTP error " +:+ pretty (status_code response));
        get_papers_on_s2_loop rest papers
  end.

(** [get_papers_on_s2(titles, session)]. *)
Definition get_papers_on_s2 (titles : list string) : M (list Paper) :=
  get_papers_on_s2_loop titles [].

End Resolution.

(** ** Reading the bibliography: [fetch_citation_titles] *)

(** The value of a computation without effects, or the exception it
    raises. *)
Inductive Try (A : Type) : Type :=
| Returns (a : A)
| Raises (e : exn).
Arguments Returns {A} a.
Arguments Raises {A} e.

(** The list comprehension [[entry['title'] for entry in entries]] of
    [fetch_citation_titles], over the entries that the parser loaded from
    the file. *)
Fixpoint fetch_citation_titles (entries : list (gmap string string))
    : Try (list string) :=
  match entries with
  | [] => Returns []
  | entry :: rest =>
      match entry !! "title" with
      | None => Raises (KeyError "title")
      | Some title =>
          match fetch_citation_titles rest with
          | Returns titles => Returns (title :: titles)
          | Raises e => Raises e
          end
      end
  end.

(** ** The identifier of a publication: [get_publications_with_ids] *)

(** [sub in s]. *)
Fixpoint contains (sub s : string) : bool :=
  String.prefix sub s
  || match s with
     | EmptyString => false
     | String _ rest => contains sub rest
     end.

(** [s.split(sep)] for a separator that is not empty: [skip] counts the
    characters of a separator just found that are still to be passed, and
    [cur] is the piece being read. *)
Fixpoint split_sep_go (sep : string) (skip : nat) (cur s : string)
    : list string :=
  match s with
  | EmptyString => [cur]
  | String c rest =>
      match skip with
      | S skip' => split_sep_go sep skip' cur rest
      | O =>
          if String.prefix sep s then
            cur :: split_sep_go sep (String.length sep - 1) EmptyString rest
          else split_sep_go sep 0 (cur +:+ String c EmptyString) rest
      end
  end.

Definition split_sep (sep s : string) : list string :=
  split_sep_go sep 0 EmptyString s.

(** The identifier that [get_publications_with_ids] gives an article, from
    the text of its open-access [ee] element when it has one. *)
Definition publication_id (ee : option string) : Try (option string) :=
  match ee with
  | None => Returns None
  | Some text =>
      if contains "arxiv.org" text then
        match last (split_sep "/" text) with
        | Some arxiv_id => Returns (Some ("ARXIV:" +:+ arxiv_id))
        | None => Raises IndexError
        end
      else if contains "doi.org" text then
        match split_sep "doi.org/" text !! 1%nat with
        | Some doi_id => Returns (Some ("DOI:" +:+ doi_id))
        | None => Raises IndexError
        end
      else Returns None
  end.

(** ** Building the roster: [scrape_editors_paper_ids] *)

(** [items[key] = value] on the items of a dictionary in insertion order:
    a key that is present keeps its place. *)
Fixpoint dict_set (key : string) (value : list string)
    (items : list (string * list string)) : list (string * list string) :=
  match items with
  | [] => [(key, value)]
  | (k, v) :: rest =>
      if decide (k = key) then (key, value) :: rest
      else (k, v) :: dict_set key value rest
  end.

(** [[id for title, id in publications[:500] if id]]: an id that is [None]
    or empty is left out. *)
Definition lookup_ids (publications : list (string * option string))
    : list string :=
  omap (fun publication : string * option string =>
          match publication.2 with
          | Some i => if decide (i = EmptyString) then None else Some i
          | None => None
          end)
       (take 500 publications).

Section Roster.

Variable server : nat -> Request -> Response.

(** The rows of the decoded body of a batch response: for each row its
    [paperId], or [None] for a row that is null or has no such field. *)
Variable batch_rows : Response -> list (option string).

(** The loop over the editors in [scrape_editors_paper_ids], for the
    publications that [scrape_action_editor_publications] returned;
    [None] when the fuel of a batch lookup runs out. *)
Fixpoint resolve_editors (fuel : nat)
    (editors_publications : list (string * list (string * option string)))
    (editors_paper_ids : list (string * list string))
    : M (option (list (string * list string))) :=
  match editors_publications with
  | [] => ret (Some editors_paper_ids)
  | (editor, publications) :: rest =>
      let arxiv_ids := lookup_ids publications in
      do looked_up <- batch_lookup server fuel arxiv_ids;
      match looked_up with
      | None => ret None
      | Some r =>
          let paper_ids :=
            if status_code r =? 200 then omap (fun row => row) (batch_rows r)
            else [] in
          let editors_paper_ids :=
            match paper_ids with
            | [] => editors_paper_ids
            | _ :: _ => dict_set editor paper_ids editors_paper_ids
            end in
          resolve_editors fuel rest editors_paper_ids
      end
  end.

End Roster.

(** ** Vocabulary of the statements *)

(** *** Backoff and responses *)

(** The [n] sleeps of a backoff that starts at [wait_time] and doubles. *)
Fixpoint backoff_from (wait_time : Z) (n : nat) : list Z :=
  match n with
  | O => []
  | S n' => wait_time :: backoff_from (wait_time * 2) n'
  end.

(** The durations 2^0, 2^1, ..., 2^(n-1). *)
Definition doubling (n : nat) : list Z :=
  map (fun i => 2 ^ Z.of_nat i) (seq 0 n).

(** The time slept in all. *)
Definition total (durations : list Z) : Z := foldr Z.add 0 durations.

(** The response to the [i]-th [GET] of [url] sent from world [w] on. *)
Definition nth_response (server : nat -> Request -> Response) (url : string)
    (w : World) (i : nat) : Response :=
  server (length (requests w) + i)%nat (Get url).

(** The world after [sent] more [GET]s of [url] and the given sleeps. *)
Definition after_attempts (url : string) (w : World) (sent : nat)
    (sleeps : list Z) : World :=
  {| requests := requests w ++ replicate sent (Get url);
     slept := slept w ++ sleeps;
     stdout := stdout w |}.

(** What the retry loop leaves in [response] when every attempt is
    answered with 429. *)
Definition last_response (server : nat -> Request -> Response) (url : string)
    (w : World) (attempts : nat) (prev : option Response) : Res Response :=
  match attempts with
  | O => match prev with
         | Some r => Ok r
         | None => Raise (UnboundLocalError "response")
         end
  | S n => Ok (nth_response server url w n)
  end.

(** The world after one retry of the batch lookup. *)
Definition lookup_sent (w : World) (arxiv_ids : list string) (wait_time : Z)
    : World :=
  {| requests := requests w ++ [Post batch_url "title" arxiv_ids];
     slept := slept w ++ [wait_time];
     stdout := stdout w |}.

(** *** Findings *)

(** [findings.get(editor, [])]: the papers recorded for an editor. *)
Definition entry (findings : gmap string (list Paper)) (editor : string)
    : list Paper :=
  default [] (findings !! editor).

(** Structural equality of two records. *)
Fixpoint Paper_eqb (p q : Paper) : bool :=
  match p, q with
  | mkPaper i t c r, mkPaper i' t' c' r' =>
      bool_decide (i = i') && bool_decide (t = t')
      && match c, c' with
         | Some a, Some b => Paper_eqb a b
         | None, None => true
         | _, _ => false
         end
      && match r, r' with
         | Some a, Some b => Paper_eqb a b
         | None, None => true
         | _, _ => false
         end
  end.

(** How many positions of a list hold the record [p]. *)
Fixpoint occurrences (p : Paper) (l : list Paper) : nat :=
  match l with
  | [] => 0%nat
  | q :: l' => ((if Paper_eqb p q then 1 else 0) + occurrences p l')%nat
  end.

(** *** Provenance and the states of a search *)

(** A record as [Paper(id, title)] builds it: without provenance. *)
Definition unparented (p : Paper) : Prop :=
  cited_paper p = None /\ referenced_by_paper p = None.

(** [p] was linked to [parent], by [cited] or by [referenced_by], and
    carries no other link. *)
Definition child_of (parent p : Paper) : Prop :=
  (cited_paper p = Some parent /\ referenced_by_paper p = None)
  \/ (cited_paper p = None /\ referenced_by_paper p = Some parent).

(** *** Response bodies *)

(** A field from which the fetcher builds a list: it is missing, or it is
    an array whose entries all have both keys. *)
Definition readable_field (field : Field) : Prop :=
  match field with
  | Absent => True
  | Null => False
  | Array items =>
      Forall (fun c => is_Some (item_paperId c) /\ is_Some (item_title c))
        items
  end.

Definition readable (data : Body) : Prop :=
  readable_field (citations data) /\ readable_field (references data).

(** A server all of whose answers with status 200 have a readable body. *)
Definition answers_readable (server : nat -> Request -> Response) : Prop :=
  forall (n : nat) (rq : Request),
    status_code (server n rq) = 200 -> readable (json (server n rq)).

(** The record [p] is the one built from the entry [c]. *)
Definition built_from (c : Item) (p : Paper) : Prop :=
  item_paperId c = Some (id p) /\ item_title c = Some (title p)
  /\ unparented p.

(** What the fetcher makes of the response it was given. *)
Definition fetched (response : Response) : Res (list Paper * list Paper) :=
  if ok response && (status_code response =? 200) then
    match papers_of_field (citations (json response)) with
    | Raise e => Raise e
    | Ok citing_papers =>
        match papers_of_field (references (json response)) with
        | Raise e => Raise e
        | Ok referenced_papers => Ok (citing_papers, referenced_papers)
        end
    end
  else Ok ([], []).

(** The exceptions of a fetch. *)
Definition fetch_error (e : exn) : Prop :=
  e = TypeError "'NoneType' object is not iterable"
  \/ e = KeyError "paperId" \/ e = KeyError "title".

(** *** The passes of the loop *)

(** What one pass through the loop does to a state and a world: the loop
    ends on an empty fringe, it ends on a dequeued paper deeper than
    [depth], or the dequeued paper is expanded into [new_papers]. *)
Inductive iteration_spec (depth : Z) (roster : list (string * list string))
    (st : BfsState) (w : World) : Flow -> World -> Prop :=
| spec_empty :
    fringe st = [] ->
    iteration_spec depth roster st w (Stop st) w
| spec_cutoff (paper : Paper) (rest : list Paper) :
    fringe st = paper :: rest ->
    depth < get_path_depth paper ->
    iteration_spec depth roster st w
      (Stop {| fringe := rest; found_ids := found_ids st;
               findings := findings st |}) w
| spec_expand (paper : Paper) (rest new_papers : list Paper) (sent : nat)
    (sleeps : list Z) :
    fringe st = paper :: rest ->
    get_path_depth paper <= depth ->
    (0 < sent)%nat ->
    NoDup (id <$> new_papers) ->
    (forall p, p ∈ new_papers -> (id p ∉ found_ids st) /\ child_of paper p) ->
    iteration_spec depth roster st w
      (Next {| fringe := rest ++ new_papers;
               found_ids := list_to_set (id <$> new_papers) ∪ found_ids st;
               findings := (check_papers new_papers roster (findings st)).1 |})
      {| requests := requests w
                     ++ replicate sent (Get (detail_url (id paper)));
         slept := slept w ++ sleeps;
         stdout := stdout w
                   ++ (check_papers new_papers roster (findings st)).2 |}.

(** A pass through the loop that ends with an exception: the dequeued
    paper was to be expanded, and the body of the last answer to the
    requests for it, an answer with status 200, could not be read. *)
Inductive iteration_fails (server : nat -> Request -> Response) (depth : Z)
    (st : BfsState) (w : World) : exn -> World -> Prop :=
| fails_fetch (paper : Paper) (rest : list Paper) (sent : nat)
    (sleeps : list Z) (e : exn) :
    fringe st = paper :: rest ->
    get_path_depth paper <= depth ->
    status_code (nth_response server (detail_url (id paper)) w sent) = 200 ->
    fetched (nth_response server (detail_url (id paper)) w sent) = Raise e ->
    iteration_fails server depth st w e
      (after_attempts (detail_url (id paper)) w (S sent) sleeps).

(** The states a search passes through, each with the papers put on the
    fringe so far: the seeds, then every batch of new papers. *)
Inductive bfs_run (server : nat -> Request -> Response) (depth : Z)
    (roster : list (string * list string)) (papers : list Paper) (w0 : World)
    : list Paper -> BfsState -> World -> Prop :=
| run_start (st : BfsState) (w : World) :
    bfs_init papers roster w0 = (Ok st, w) ->
    bfs_run server depth roster papers w0 papers st w
| run_step (enqueued : list Paper) (st st' : BfsState) (w w' : World)
    (paper : Paper) (rest new_papers : list Paper) :
    bfs_run server depth roster papers w0 enqueued st w ->
    bfs_iteration server depth roster st w = (Ok (Next st'), w') ->
    fringe st = paper :: rest ->
    fringe st' = rest ++ new_papers ->
    bfs_run server depth roster papers w0 (enqueued ++ new_papers) st' w'.

(** The passes of the loop that lead from one state to another. *)
Inductive reaches (server : nat -> Request -> Response) (depth : Z)
    (roster : list (string * list string))
    : BfsState -> World -> BfsState -> World -> Prop :=
| reaches_here (st : BfsState) (w : World) :
    reaches server depth roster st w st w
| reaches_pass (st st1 st' : BfsState) (w w1 w' : World) :
    bfs_iteration server depth roster st w = (Ok (Next st1), w1) ->
    reaches server depth roster st1 w1 st' w' ->
    reaches server depth roster st w st' w'.

(** A result of the loop that is not the end of the fuel: the state the
    loop ended in, or the exception that ended it. *)
Definition ended (r : Res (option BfsState)) : Prop :=
  (exists st, r = Ok (Some st)) \/ (exists e, r = Raise e).

(** The loop ends from a state and a world, given enough fuel. *)
Definition halts (server : nat -> Request -> Response) (depth : Z)
    (roster : list (string * list string)) (st : BfsState) (w : World) : Prop :=
  exists (fuel : nat) (r : Res (option BfsState)) (w' : World),
    bfs_loop server fuel depth roster st w = (r, w') /\ ended r.


(** *** Servers, papers and searches of the examples *)

Definition always_429 : nat -> Request -> Response := fun _ _ =>
  {| status_code := 429;
     json := {| citations := Absent; references := Absent |} |}.

Definition always_404 : nat -> Request -> Response := fun _ _ =>
  {| status_code := 404;
     json := {| citations := Absent; references := Absent |} |}.

(** Two rate-limited answers, then success. *)
Definition limited_twice : nat -> Request -> Response := fun n _ =>
  {| status_code := if (n <? 2)%nat then 429 else 200;
     json := {| citations := Absent; references := Absent |} |}.

(** A server for which every paper is cited by the paper P2. *)
Definition cited_by_P2 : nat -> Request -> Response := fun _ _ =>
  {| status_code := 200;
     json := {| citations := Array [{| item_paperId := Some "P2";
                                       item_title := Some "Two" |}];
                references := Absent |} |}.

Definition paper_X : Paper := new_Paper "X" "Attention Is All You Need".

Definition paper_P1 : Paper := new_Paper "P1" "Seed".

(** The search with [depth = 2] from a seed list that names X twice, for a
    roster in which E wrote X. *)
Definition duplicate_seed_search : Res (option BfsState) * World :=
  bfs always_404 3 2 [paper_X; paper_X] [("E", ["X"])] world0.

(** The search from the seed P1 with [depth = 0] against [cited_by_P2],
    for a roster in which Bob wrote P2. *)
Definition depth_0_search : Res (option BfsState) * World :=
  Eval vm_compute in
    bfs cited_by_P2 2 0 [paper_P1] [("Bob", ["P2"])] world0.

(** A server for which every paper is cited by the papers P2 and P3. *)
Definition cited_by_P2_P3 : nat -> Request -> Response := fun _ _ =>
  {| status_code := 200;
     json := {| citations := Array [{| item_paperId := Some "P2";
                                       item_title := Some "Two" |};
                                    {| item_paperId := Some "P3";
                                       item_title := Some "Three" |}];
                references := Absent |} |}.

(** The search with [depth = 0] from the seed P1 against [cited_by_P2_P3]. *)
Definition two_neighbours_search : Res (option BfsState) * World :=
  Eval vm_compute in bfs cited_by_P2_P3 2 0 [paper_P1] [] world0.

(** A search response that ranks P1 first, and the rows of a batch
    response that resolves one id to X. *)
Definition finds_P1 : Response -> option (list PaperRef) := fun _ =>
  Some [{| paperId := "P1"; ref_title := "Seed" |}].

Definition resolves_to_X : Response -> list (option string) := fun _ =>
  [Some "X"; None].

Definition editor_E_publications
    : list (string * list (string * option string)) :=
  [("E", [("Attention Is All You Need", Some "ARXIV:1706.03762");
          ("Untitled", None)])].


Definition no_paperId : nat -> Request -> Response := fun _ _ =>
  {| status_code := 200;
     json := {| citations := Array [{| item_paperId := None;
                                       item_title := Some "Two" |}];
                references := Absent |} |}.

(** The search with [depth = 0] from the seed P1 against [cited_by_P2_P3],
    for a roster in which Bob wrote P3. *)
Definition one_left_search : Res (option BfsState) * World :=
  Eval vm_compute in
    bfs cited_by_P2_P3 2 0 [paper_P1] [("Bob", ["P3"])] world0.

(** *** Claims that fail as they are stated *)

(** The claim that a paper left on the fringe when the loop exits was
    never match-checked: no editor who owns its id has it in the
    findings. *)
Definition remaining_never_checked (server : nat -> Request -> Response)
    (depth : Z) (roster : list (string * list string)) (papers : list Paper)
    : Prop :=
  forall fuel st w,
    bfs server fuel depth papers roster world0 = (Ok (Some st), w) ->
    forall p editor ids,
      p ∈ fringe st -> (editor, ids) ∈ roster -> id p ∈ ids ->
      p ∉ entry (findings st) editor.

(** The claim that repeated checks of one batch record a match once. *)
Definition recorded_once (n : nat) (papers : list Paper)
    (roster : list (string * list string)) (editor : string) (paper : Paper)
    : Prop :=
  occurrences paper (entry (check_papers_times n papers roster ∅) editor)
  = 1%nat.

(** The claim that no id is put on the fringe twice. *)
Definition never_enqueued_twice (server : nat -> Request -> Response)
    (depth : Z) (roster : list (string * list string)) (papers : list Paper)
    (w0 : World) : Prop :=
  forall enqueued st w,
    bfs_run server depth roster papers w0 enqueued st w ->
    NoDup (id <$> enqueued).


(** *** Order of discovery *)

(** [p] is at most as far from the seeds as [q]. *)
Definition no_deeper (p q : Paper) : Prop :=
  get_path_depth p <= get_path_depth q.

(** *** Titles and queries *)

(** The characters of a string. *)
Definition chars (s : string) : list ascii := list_ascii_of_string s.

(** An ASCII letter or digit. *)
Definition alnum (c : ascii) : bool :=
  let n := nat_of_ascii c in
  ((97 <=? n) && (n <=? 122) || (65 <=? n) && (n <=? 90)
   || (48 <=? n) && (n <=? 57))%nat.

(** The record at the end of the provenance links of [p], following them
    as [get_path_depth] does. *)
Fixpoint origin (p : Paper) : Paper :=
  match p with
  | mkPaper _ _ (Some parent) _ => origin parent
  | mkPaper _ _ None (Some parent) => origin parent
  | mkPaper _ _ None None => p
  end.

(** *** What a part of a run adds to the world *)

Record Trace : Type := {
  trace_requests : list Request;
  trace_slept : list Z;
  trace_stdout : list string
}.

Definition after_trace (w : World) (t : Trace) : World :=
  {| requests := requests w ++ trace_requests t;
     slept := slept w ++ trace_slept t;
     stdout := stdout w ++ trace_stdout t |}.

(** What [get_papers_on_s2] does for one title: one to four [GET]s of
    the search URL of the title's query, at most one sleep for each and
    at most 15 time units of sleep in all, and at most one line. *)
Definition title_trace (title : string) (t : Trace) : Prop :=
  (exists n : nat,
      (1 <= n <= 4)%nat
      /\ trace_requests t
         = replicate n (Get (search_url (query_of_title title))))
  /\ (length (trace_slept t) <= length (trace_requests t))%nat
  /\ total (trace_slept t) <= 15
  /\ (length (trace_stdout t) <= 1)%nat.

(** What the roster loop does for one editor: one to five batch lookups
    of the ids kept for the editor, at most 15 time units of sleep, and
    no output. *)
Definition editor_trace (item : string * list (string * option string))
    (t : Trace) : Prop :=
  (1 <= length (trace_requests t) <= 5)%nat
  /\ (forall rq,
        rq ∈ trace_requests t ->
        exists fields, rq = Post batch_url fields (lookup_ids item.2))
  /\ total (trace_slept t) <= 15
  /\ trace_stdout t = [].

(** * Properties *)

(** ** The retry client *)

Lemma backoff_from_powers (n : nat) : forall (wait_time : Z) (k : nat),
  backoff_from (wait_time * 2 ^ Z.of_nat k) n
  = map (fun i => wait_time * 2 ^ Z.of_nat i) (seq k n).
Proof.
  induction n as [|n IH]; intros wait_time k; simpl; [reflexivity|].
  f_equal. rewrite <- (IH wait_time (S k)). f_equal.
  rewrite Nat2Z.inj_succ, Z.pow_succ_r by lia. lia.
Qed.

Lemma backoff_from_1 (n : nat) : backoff_from 1 n = doubling n.
Proof.
  unfold doubling. rewrite <- (map_ext (fun i => 1 * 2 ^ Z.of_nat i)).
  - rewrite <- backoff_from_powers. reflexivity.
  - intros i. lia.
Qed.

Section RetryClient.

Variable server : nat -> Request -> Response.
Variable url : string.


Lemma nth_response_sent (w : World) (sl : list Z) (out : list string) (i : nat) :
  nth_response server url
    {| requests := requests w ++ [Get url]; slept := sl; stdout := out |} i
  = nth_response server url w (S i).
Proof.
  unfold nth_response. cbn [requests]. rewrite length_app. cbn [length].
  f_equal. lia.
Qed.

Lemma after_attempts_sent (w : World) (sent : nat) (t : Z) (sleeps : list Z) :
  after_attempts url
    {| requests := requests w ++ [Get url]; slept := slept w ++ [t];
       stdout := stdout w |} sent sleeps
  = after_attempts url w (S sent) (t :: sleeps).
Proof.
  unfold after_attempts. cbn [requests slept stdout replicate].
  rewrite <- !app_assoc. reflexivity.
Qed.

Lemma retry_loop_first_unlimited (k : nat) :
  forall (attempts : nat) (wait_time : Z) (prev : option Response) (w : World),
    (k < attempts)%nat ->
    (forall i, (i < k)%nat -> status_code (nth_response server url w i) = 429) ->
    status_code (nth_response server url w k) <> 429 ->
    retry_loop server attempts url wait_time prev w
    = (Ok (nth_response server url w k), after_attempts url w (S k) (backoff_from wait_time k)).
Proof.
  induction k as [|k IH]; intros attempts wait_time prev w Hlt Hlim Hok;
    (destruct attempts as [|attempts]; [lia|]).
  - cbn [retry_loop]. unfold bind, send.
    unfold nth_response in Hok. rewrite Nat.add_0_r in Hok.
    apply Z.eqb_neq in Hok. rewrite Hok. cbn.
    unfold nth_response, after_attempts. rewrite Nat.add_0_r, app_nil_r.
    reflexivity.
  - cbn [retry_loop]. unfold bind at 1. unfold send at 1.
    pose proof (Hlim 0%nat ltac:(lia)) as H0.
    unfold nth_response in H0. rewrite Nat.add_0_r in H0.
    rewrite H0. cbn [Z.eqb negb Pos.eqb]. unfold bind at 1. unfold sleep at 1.
    cbn [requests slept stdout].
    rewrite (IH attempts); [|lia| |].
    + rewrite nth_response_sent, after_attempts_sent. reflexivity.
    + intros i Hi. rewrite nth_response_sent. apply Hlim. lia.
    + rewrite nth_response_sent. exact Hok.
Qed.

Lemma retry_loop_all_limited (attempts : nat) :
  forall (wait_time : Z) (prev : option Response) (w : World),
    (forall i, (i < attempts)%nat -> status_code (nth_response server url w i) = 429) ->
    retry_loop server attempts url wait_time prev w
    = (last_response server url w attempts prev,
       after_attempts url w attempts (backoff_from wait_time attempts)).
Proof.
  induction attempts as [|attempts IH]; intros wait_time prev w Hlim.
  - cbn [retry_loop last_response backoff_from].
    assert (Hw : after_attempts url w 0 [] = w).
    { unfold after_attempts. cbn [replicate]. rewrite !app_nil_r.
      destruct w; reflexivity. }
    rewrite Hw. destruct prev; reflexivity.
  - cbn [retry_loop]. unfold bind at 1. unfold send at 1.
    pose proof (Hlim 0%nat ltac:(lia)) as H0.
    unfold nth_response in H0. rewrite Nat.add_0_r in H0.
    rewrite H0. cbn [Z.eqb negb Pos.eqb]. unfold bind at 1. unfold sleep at 1.
    cbn [requests slept stdout].
    rewrite IH.
    + rewrite after_attempts_sent. cbn [backoff_from]. f_equal.
      destruct attempts as [|n]; cbn [last_response].
      * unfold nth_response. rewrite Nat.add_0_r. reflexivity.
      * rewrite nth_response_sent. reflexivity.
    + intros i Hi. rewrite nth_response_sent. apply Hlim. lia.
Qed.

(** With at least one attempt the loop returns a response, after some
    [GET]s of [url] and some sleeps. *)
Lemma retry_loop_returns (attempts : nat) :
  forall (wait_time : Z) (prev : option Response) (w : World),
    exists (r : Response) (sent : nat) (sleeps : list Z),
      retry_loop server (S attempts) url wait_time prev w
      = (Ok r, after_attempts url w (S sent) sleeps).
Proof.
  induction attempts as [|n IH]; intros wait_time prev w.
  - cbn [retry_loop]. unfold bind at 1. unfold send at 1.
    destruct (negb _).
    + eexists _, 0%nat, []. unfold ret, after_attempts.
      cbn [requests slept stdout replicate]. rewrite app_nil_r. reflexivity.
    + eexists _, 0%nat, [wait_time]. unfold bind, sleep, ret, after_attempts.
      reflexivity.
  - change (retry_loop server (S (S n)) url wait_time prev)
      with (do r <- send server (Get url);
            if negb (status_code r =? 429) then ret r
            else run sleep wait_time;
                 retry_loop server (S n) url (wait_time * 2) (Some r)).
    unfold bind at 1. unfold send at 1. destruct (negb _).
    + eexists _, 0%nat, []. unfold ret, after_attempts.
      cbn [requests slept stdout replicate]. rewrite app_nil_r. reflexivity.
    + unfold bind at 1. unfold sleep at 1. cbn [requests slept stdout].
      edestruct IH as (r & sent & sleeps & ->).
      rewrite after_attempts_sent. eauto.
Qed.

End RetryClient.

Lemma total_app (l1 l2 : list Z) : total (l1 ++ l2) = total l1 + total l2.
Proof. unfold total. induction l1 as [|x l1 IH]; cbn [app foldr]; lia. Qed.

Lemma total_backoff_from (n : nat) : forall wait_time : Z,
  total (backoff_from wait_time n) = wait_time * (2 ^ Z.of_nat n - 1).
Proof.
  induction n as [|n IH]; intros wait_time.
  - cbn. lia.
  - cbn [backoff_from]. unfold total in *. cbn [foldr]. rewrite IH.
    rewrite Nat2Z.inj_succ, Z.pow_succ_r by lia. lia.
Qed.

(** The loop of the retry client with at least one attempt left: it
    returns the answer to the last request it sent, after at most as many
    requests as it had attempts and at most one sleep per request. *)
Lemma retry_loop_bounded (server : nat -> Request -> Response) (url : string)
    (attempts : nat) :
  forall (wait_time : Z) (prev : option Response) (w : World),
    exists (r : Response) (sent sleeps : nat),
      retry_loop server (S attempts) url wait_time prev w
      = (Ok r, after_attempts url w (S sent) (backoff_from wait_time sleeps))
      /\ (sent <= attempts)%nat
      /\ (sleeps <= S sent)%nat
      /\ r = nth_response server url w sent.
Proof.
  induction attempts as [|n IH]; intros wait_time prev w.
  - cbn [retry_loop]. unfold bind at 1. unfold send at 1.
    destruct (negb _).
    + exists (server (length (requests w)) (Get url)), 0%nat, 0%nat.
      unfold ret, after_attempts, nth_response.
      cbn [requests slept stdout replicate backoff_from].
      rewrite app_nil_r, Nat.add_0_r. repeat split; lia.
    + exists (server (length (requests w)) (Get url)), 0%nat, 1%nat.
      unfold bind, sleep, ret, after_attempts, nth_response.
      cbn [requests slept stdout replicate backoff_from].
      rewrite Nat.add_0_r. repeat split; lia.
  - change (retry_loop server (S (S n)) url wait_time prev)
      with (do r <- send server (Get url);
            if negb (status_code r =? 429) then ret r
            else run sleep wait_time;
                 retry_loop server (S n) url (wait_time * 2) (Some r)).
    unfold bind at 1. unfold send at 1. destruct (negb _).
    + exists (server (length (requests w)) (Get url)), 0%nat, 0%nat.
      unfold ret, after_attempts, nth_response.
      cbn [requests slept stdout replicate backoff_from].
      rewrite app_nil_r, Nat.add_0_r. repeat split; lia.
    + unfold bind at 1. unfold sleep at 1. cbn [requests slept stdout].
      edestruct IH as (r & sent & sleeps & -> & Hsent & Hsleeps & ->).
      exists (nth_response server url w (S sent)), (S sent), (S sleeps).
      rewrite after_attempts_sent, nth_response_sent. cbn [backoff_from].
      repeat split; lia.
Qed.

(** C5: [request_with_retries] returns the first response that is not
    rate-limited when there is one among the first [max_retries], after
    sleeping 1, 2, 4, ... between the attempts before it; when all of them
    are rate-limited it returns the last one; and for the responses 429,
    429, 200 it sleeps 1 then 2 and returns the third response. *)
Theorem request_with_retries_returns
    (server : nat -> Request -> Response) (url : string) (max_retries : Z)
    (w : World) :
  let response := nth_response server url w in
  (forall k : nat,
      Z.of_nat k < max_retries ->
      (forall i, (i < k)%nat -> status_code (response i) = 429) ->
      status_code (response k) <> 429 ->
      request_with_retries server url max_retries w
      = (Ok (response k), after_attempts url w (S k) (doubling k)))
  /\ (1 <= max_retries ->
      (forall i, Z.of_nat i < max_retries -> status_code (response i) = 429) ->
      request_with_retries server url max_retries w
      = (Ok (response (Z.to_nat max_retries - 1)%nat),
         after_attempts url w (Z.to_nat max_retries)
           (doubling (Z.to_nat max_retries))))
  /\ (3 <= max_retries ->
      status_code (response 0%nat) = 429 ->
      status_code (response 1%nat) = 429 ->
      status_code (response 2%nat) = 200 ->
      request_with_retries server url max_retries w
      = (Ok (response 2%nat),
         {| requests := requests w ++ [Get url; Get url; Get url];
            slept := slept w ++ [1; 2];
            stdout := stdout w |})).
Proof.
  intros response. unfold request_with_retries. repeat split.
  - intros k Hk Hlim Hok. rewrite <- backoff_from_1.
    apply retry_loop_first_unlimited; [lia| exact Hlim | exact Hok].
  - intros Hmax Hlim. rewrite retry_loop_all_limited.
    + rewrite backoff_from_1. f_equal.
      destruct (Z.to_nat max_retries) as [|n] eqn:E; [lia|].
      cbn [last_response]. do 2 f_equal. lia.
    + intros i Hi. apply Hlim. lia.
  - intros Hmax H0 H1 H2.
    rewrite (retry_loop_first_unlimited server url 2); [reflexivity|lia| |].
    + intros i Hi. destruct i as [|[|i]]; [exact H0|exact H1|lia].
    + fold response. rewrite H2. discriminate.
Qed.

(** C9: with [max_retries = 0] no request is sent and the function fails
    on its unbound [response] variable; it returns a response exactly when
    [max_retries] is at least 1. *)
Theorem request_with_retries_needs_an_attempt
    (server : nat -> Request -> Response) (url : string) (w : World) :
  request_with_retries server url 0 w
  = (Raise (UnboundLocalError "response"), w)
  /\ forall max_retries : Z,
      (exists r w', request_with_retries server url max_retries w = (Ok r, w'))
      <-> 1 <= max_retries.
Proof.
  split; [reflexivity|]. intros max_retries. unfold request_with_retries. split.
  - intros (r & w' & Hrun).
    destruct (Z.to_nat max_retries) as [|n] eqn:E; [|lia].
    discriminate Hrun.
  - intros Hmax.
    destruct (Z.to_nat max_retries) as [|n] eqn:E; [lia|].
    destruct (retry_loop_returns server url n 1 None w)
      as (r & sent & sleeps & ->).
    eauto.
Qed.

(** C10: when all [max_retries] responses are rate-limited, the function
    sleeps [max_retries] times, for 1, 2, ..., 2^(max_retries-1), the last
    time after the last response, and returns that last response. *)
Theorem request_with_retries_all_limited
    (server : nat -> Request -> Response) (url : string) (max_retries : Z)
    (w : World) :
  1 <= max_retries ->
  (forall i : nat,
      Z.of_nat i < max_retries ->
      status_code (nth_response server url w i) = 429) ->
  let attempts := Z.to_nat max_retries in
  request_with_retries server url max_retries w
  = (Ok (nth_response server url w (attempts - 1)%nat),
     after_attempts url w attempts (doubling attempts))
  /\ length (doubling attempts) = attempts
  /\ (forall i : nat,
         (i < attempts)%nat -> doubling attempts !! i = Some (2 ^ Z.of_nat i))
  /\ status_code (nth_response server url w (attempts - 1)%nat) = 429.
Proof.
  intros Hmax Hlim attempts. repeat split.
  - unfold request_with_retries. fold attempts.
    rewrite retry_loop_all_limited.
    + rewrite backoff_from_1. f_equal.
      destruct attempts as [|n] eqn:E; [lia|]. cbn [last_response].
      do 2 f_equal. lia.
    + intros i Hi. apply Hlim. lia.
  - unfold doubling. rewrite length_map, length_seq. reflexivity.
  - intros i Hi. unfold doubling. rewrite list_lookup_fmap.
    rewrite lookup_seq_lt by exact Hi. reflexivity.
  - apply Hlim. lia.
Qed.

(** ** The neighbour fetcher *)

Lemma papers_of_items_built (items : list Item) :
  forall papers : list Paper,
    papers_of_items items = Ok papers -> Forall2 built_from items papers.
Proof.
  induction items as [|c rest IH]; intros papers Hrun; cbn [papers_of_items] in Hrun.
  - injection Hrun as <-. constructor.
  - unfold paper_of_item in Hrun.
    destruct (item_paperId c) as [i|] eqn:Hi; [|discriminate Hrun].
    destruct (item_title c) as [t|] eqn:Ht; [|discriminate Hrun].
    destruct (papers_of_items rest) as [ps|e]; [|discriminate Hrun].
    injection Hrun as <-. constructor; [|apply IH; reflexivity].
    split; [exact Hi|]. split; [exact Ht|]. split; reflexivity.
Qed.

Lemma papers_of_items_cases (items : list Item) :
  (Forall (fun c => is_Some (item_paperId c) /\ is_Some (item_title c)) items
   /\ exists papers, papers_of_items items = Ok papers)
  \/ (~ Forall (fun c => is_Some (item_paperId c) /\ is_Some (item_title c))
          items
      /\ exists e, papers_of_items items = Raise e
                   /\ (e = KeyError "paperId" \/ e = KeyError "title")).
Proof.
  induction items as [|c rest IH]; [left; split; [constructor|eauto]|].
  cbn [papers_of_items]. unfold paper_of_item.
  destruct (item_paperId c) as [i|] eqn:Hi.
  - destruct (item_title c) as [t|] eqn:Ht.
    + destruct IH as [[Hall (ps & ->)]|[Hnot (e & -> & He)]].
      * left. split; [|eauto]. constructor; [|exact Hall].
        rewrite Hi, Ht. split; eexists; reflexivity.
      * right. split; [|eauto].
        intros Hall. apply Forall_cons in Hall as [_ Hall]. exact (Hnot Hall).
    + right. split; [|eauto].
      intros Hall. apply Forall_cons in Hall as [[_ [t Hsome]] _].
      rewrite Ht in Hsome. discriminate Hsome.
  - right. split; [|eauto].
    intros Hall. apply Forall_cons in Hall as [[[i Hsome] _] _].
    rewrite Hi in Hsome. discriminate Hsome.
Qed.

Lemma papers_of_field_cases (field : Field) :
  (readable_field field /\ exists papers, papers_of_field field = Ok papers)
  \/ (~ readable_field field
      /\ exists e, papers_of_field field = Raise e /\ fetch_error e).
Proof.
  destruct field as [| |items]; cbn [papers_of_field readable_field].
  - left. split; [exact I|eauto].
  - right. split; [tauto|]. eexists. split; [reflexivity|]. left. reflexivity.
  - destruct (papers_of_items_cases items) as [Hok|[Hnot (e & Hrun & He)]];
      [left; exact Hok|].
    right. split; [exact Hnot|]. exists e. split; [exact Hrun|]. right. exact He.
Qed.

Lemma papers_of_field_built (field : Field) (papers : list Paper) :
  papers_of_field field = Ok papers ->
  (field = Absent /\ papers = [])
  \/ exists items, field = Array items /\ Forall2 built_from items papers.
Proof.
  destruct field as [| |items]; cbn [papers_of_field]; intros Hrun.
  - injection Hrun as <-. left. split; reflexivity.
  - discriminate Hrun.
  - right. exists items. split; [reflexivity|].
    apply papers_of_items_built, Hrun.
Qed.

Lemma papers_of_field_unparented (field : Field) (papers : list Paper) :
  papers_of_field field = Ok papers -> forall p, p ∈ papers -> unparented p.
Proof.
  intros Hrun p Hp.
  destruct (papers_of_field_built field papers Hrun) as [[_ ->]|(items & _ & Hall)];
    [inversion Hp|].
  clear Hrun. induction Hall as [|c q items papers Hq Hall IH]; [inversion Hp|].
  apply elem_of_cons in Hp as [->|Hp]; [apply Hq|apply IH, Hp].
Qed.

(** What [fetched] gives: nothing for a status other than 200, the two
    lists for a readable body, and an exception for any other body. *)
Lemma fetched_cases (response : Response) :
  (status_code response <> 200 /\ fetched response = Ok ([], []))
  \/ (status_code response = 200 /\ readable (json response)
      /\ exists citing_papers referenced_papers,
           papers_of_field (citations (json response)) = Ok citing_papers
           /\ papers_of_field (references (json response))
              = Ok referenced_papers
           /\ fetched response = Ok (citing_papers, referenced_papers))
  \/ (status_code response = 200 /\ ~ readable (json response)
      /\ exists e, fetched response = Raise e /\ fetch_error e).
Proof.
  unfold fetched, ok, readable.
  destruct (status_code response =? 200) eqn:Hstatus.
  - apply Z.eqb_eq in Hstatus. rewrite Hstatus. cbn [Z.leb Z.ltb Z.compare
      Pos.compare Pos.compare_cont andb negb].
    right.
    destruct (papers_of_field_cases (citations (json response)))
      as [[Hc (cs & ->)]|[Hc (e & -> & He)]].
    + destruct (papers_of_field_cases (references (json response)))
        as [[Hr (rs & ->)]|[Hr (e & -> & He)]].
      * left. split; [reflexivity|]. split; [tauto|]. eauto.
      * right. split; [reflexivity|]. split; [tauto|]. eauto.
    + right. split; [reflexivity|]. split; [tauto|]. eauto.
  - apply Z.eqb_neq in Hstatus. left. rewrite andb_false_r. auto.
Qed.

(** The fetcher returns what [fetched] makes of the last answer to its
    requests, of which there are at most four. *)
Lemma get_citing_and_referenced_papers_unfold
    (server : nat -> Request -> Response) (paper_id : string) (w : World) :
  exists (sent sleeps : nat),
    (sent <= 3)%nat /\ (sleeps <= S sent)%nat
    /\ request_with_retries server (detail_url paper_id) 4 w
       = (Ok (nth_response server (detail_url paper_id) w sent),
          after_attempts (detail_url paper_id) w (S sent)
            (backoff_from 1 sleeps))
    /\ get_citing_and_referenced_papers server paper_id w
       = (fetched (nth_response server (detail_url paper_id) w sent),
          after_attempts (detail_url paper_id) w (S sent)
            (backoff_from 1 sleeps)).
Proof.
  unfold get_citing_and_referenced_papers, request_with_retries.
  change (Z.to_nat 4) with 4%nat.
  destruct (retry_loop_bounded server (detail_url paper_id) 3 1 None w)
    as (r & sent & sleeps & Hrun & Hsent & Hsleeps & ->).
  exists sent, sleeps. split; [exact Hsent|]. split; [exact Hsleeps|].
  split; [exact Hrun|].
  unfold bind at 1. rewrite Hrun. unfold fetched.
  destruct (ok _ && _); [|reflexivity].
  unfold bind, lift, ret.
  destruct (papers_of_field (citations _)); [|reflexivity].
  destruct (papers_of_field (references _)); reflexivity.
Qed.


(** ** The batch lookup of the roster builder *)

(** C8, as stated, fails: when every answer is rate-limited the loop gives
    up after having slept 1 + 2 + 4 + 8 = 15 time units. *)
Lemma batch_lookup_sleeps_15 :
  exists (r : Response) (w' : World),
    batch_lookup always_429 4 ["ARXIV:1706.03762"] world0 = (Ok (Some r), w')
    /\ slept w' = [1; 2; 4; 8]
    /\ ~ total (slept w') <= 10.
Proof.
  do 2 eexists. split; [vm_compute; reflexivity|].
  split; [reflexivity|]. vm_compute. intros H. apply H. reflexivity.
Qed.

Lemma batch_retry_loop_step (server : nat -> Request -> Response)
    (fuel : nat) (arxiv_ids : list string) (wait_time : Z) (r : Response)
    (w : World) :
  batch_retry_loop server (S fuel) arxiv_ids wait_time r w
  = if status_code r =? 429 then
      if wait_time * 2 >? 10 then
        (Ok (Some (server (length (requests w))
                     (Post batch_url "title" arxiv_ids))),
         lookup_sent w arxiv_ids wait_time)
      else
        batch_retry_loop server fuel arxiv_ids (wait_time * 2)
          (server (length (requests w)) (Post batch_url "title" arxiv_ids))
          (lookup_sent w arxiv_ids wait_time)
    else (Ok (Some r), w).
Proof.
  cbn [batch_retry_loop]. destruct (status_code r =? 429); [|reflexivity].
  unfold bind at 1. unfold sleep at 1. unfold bind at 1. unfold send at 1.
  cbn [requests slept stdout]. destruct (wait_time * 2 >? 10); reflexivity.
Qed.

Ltac case_status E :=
  match goal with
  | |- context [if status_code ?r =? 429 then _ else _] =>
      destruct (status_code r =? 429) eqn:E
  end.

Ltac batch_world :=
  apply f_equal2; [reflexivity|];
  unfold lookup_sent; cbn [requests slept stdout length replicate];
  rewrite <- ?app_assoc, ?app_nil_r; reflexivity.

(** C8, amended: the loop stops retrying once the doubled wait exceeds 10,
    so it ends for every server, after at most four sleeps, which are the
    first of 1, 2, 4, 8 and add up to at most 15; it gives up on a
    rate-limited answer only after all four. *)
Theorem batch_lookup_backoff_bounded
    (server : nat -> Request -> Response) (fuel : nat)
    (arxiv_ids : list string) (w : World) :
  (4 <= fuel)%nat ->
  exists (r : Response) (sleeps : list Z),
    batch_lookup server fuel arxiv_ids w
    = (Ok (Some r),
       {| requests := requests w
                      ++ Post batch_url "title,paperId" arxiv_ids
                      :: replicate (length sleeps)
                           (Post batch_url "title" arxiv_ids);
          slept := slept w ++ sleeps;
          stdout := stdout w |})
    /\ sleeps `prefix_of` [1; 2; 4; 8]
    /\ total sleeps <= 15
    /\ (status_code r = 429 -> sleeps = [1; 2; 4; 8]).
Proof.
  intros Hfuel.
  destruct fuel as [|[|[|[|fuel]]]]; try lia. clear Hfuel.
  unfold batch_lookup. unfold bind at 1. unfold send at 1.
  rewrite batch_retry_loop_step.
  case_status E0; cycle 1.
  { apply Z.eqb_neq in E0. eexists _, []. split; [batch_world|].
    split; [by exists [1; 2; 4; 8]|].
    split; [vm_compute; discriminate|]. intros H. destruct (E0 H). }
  change (1 * 2 >? 10) with false. cbv iota. change (1 * 2) with 2.
  rewrite batch_retry_loop_step.
  case_status E1; cycle 1.
  { apply Z.eqb_neq in E1. eexists _, [1]. split; [batch_world|].
    split; [by exists [2; 4; 8]|].
    split; [vm_compute; discriminate|]. intros H. destruct (E1 H). }
  change (2 * 2 >? 10) with false. cbv iota. change (2 * 2) with 4.
  rewrite batch_retry_loop_step.
  case_status E2; cycle 1.
  { apply Z.eqb_neq in E2. eexists _, [1; 2]. split; [batch_world|].
    split; [by exists [4; 8]|].
    split; [vm_compute; discriminate|]. intros H. destruct (E2 H). }
  change (4 * 2 >? 10) with false. cbv iota. change (4 * 2) with 8.
  rewrite batch_retry_loop_step.
  case_status E3; cycle 1.
  { apply Z.eqb_neq in E3. eexists _, [1; 2; 4]. split; [batch_world|].
    split; [by exists [8]|].
    split; [vm_compute; discriminate|]. intros H. destruct (E3 H). }
  change (8 * 2 >? 10) with true. cbv iota.
  eexists _, [1; 2; 4; 8]. split; [batch_world|].
  split; [reflexivity|]. split; [vm_compute; discriminate|]. reflexivity.
Qed.

(** ** Paper records *)

Lemma Paper_ind (P : Paper -> Prop) :
  (forall i t c r,
      from_option P True c -> from_option P True r -> P (mkPaper i t c r)) ->
  forall p, P p.
Proof.
  intros H. fix IH 1. intros [i t c r]. apply H.
  - destruct c as [a|]; [apply IH|exact I].
  - destruct r as [a|]; [apply IH|exact I].
Qed.

Lemma Paper_eqb_eq (p q : Paper) : Paper_eqb p q = true <-> p = q.
Proof.
  revert q. induction p as [i t c r IHc IHr] using Paper_ind.
  intros [i' t' c' r']. cbn [Paper_eqb].
  rewrite !andb_true_iff, !bool_decide_eq_true. split.
  - intros [[[-> ->] Hc] Hr]. f_equal.
    + destruct c as [a|], c' as [b|]; try discriminate; [|reflexivity].
      f_equal. apply IHc, Hc.
    + destruct r as [a|], r' as [b|]; try discriminate; [|reflexivity].
      f_equal. apply IHr, Hr.
  - intros [= -> -> <- <-]. repeat split.
    + destruct c as [a|]; [apply IHc|]; reflexivity.
    + destruct r as [a|]; [apply IHr|]; reflexivity.
Qed.

Lemma Paper_eqb_refl (p : Paper) : Paper_eqb p p = true.
Proof. apply Paper_eqb_eq. reflexivity. Qed.

Lemma occurrences_app (p : Paper) (l1 l2 : list Paper) :
  occurrences p (l1 ++ l2) = (occurrences p l1 + occurrences p l2)%nat.
Proof. induction l1 as [|q l1 IH]; cbn [app occurrences]; lia. Qed.

Lemma occurrences_filter (P : Paper -> Prop) `{!forall q, Decision (P q)}
    (p : Paper) (l : list Paper) :
  P p -> occurrences p (filter P l) = occurrences p l.
Proof.
  intros Hp. induction l as [|q l IH]; [reflexivity|].
  rewrite filter_cons. cbn [occurrences].
  destruct (decide (P q)) as [Hq|Hq]; cbn [occurrences]; [lia|].
  destruct (Paper_eqb p q) eqn:E; [|lia].
  apply Paper_eqb_eq in E. subst q. contradiction.
Qed.

Lemma occurrences_elem_of (p : Paper) (l : list Paper) :
  p ∈ l <-> (0 < occurrences p l)%nat.
Proof.
  induction l as [|q l IH]; cbn [occurrences].
  - split; [intros H; inversion H|lia].
  - rewrite elem_of_cons, IH. destruct (Paper_eqb p q) eqn:E.
    + apply Paper_eqb_eq in E. split; [lia|auto].
    + split; [|tauto]. intros [->|H]; [|lia].
      rewrite Paper_eqb_refl in E. discriminate.
Qed.

(** ** The match check *)

Lemma add_finding_lookup (editor : string) (paper : Paper)
    (findings : gmap string (list Paper)) (editor' : string) :
  add_finding editor paper findings !! editor'
  = if decide (editor = editor')
    then Some (entry findings editor ++ [paper])
    else findings !! editor'.
Proof.
  unfold add_finding, entry.
  destruct (findings !! editor) as [l|] eqn:E;
    rewrite lookup_alter; destruct (decide (editor = editor')) as [<-|Hne];
    try reflexivity.
  - rewrite E. reflexivity.
  - rewrite lookup_insert_eq. reflexivity.
  - rewrite lookup_insert_ne by exact Hne. reflexivity.
Qed.

Lemma entry_add_finding (editor : string) (paper : Paper)
    (findings : gmap string (list Paper)) :
  entry (add_finding editor paper findings) editor
  = entry findings editor ++ [paper].
Proof.
  unfold entry at 1. rewrite add_finding_lookup, decide_True by reflexivity.
  reflexivity.
Qed.

(** The entry of [editor] after the matches [ms] have been appended. *)
Lemma check_editor_lookup (editor : string) (ids : gset string)
    (papers : list Paper) :
  forall (findings : gmap string (list Paper)) (editor' : string),
    (check_editor editor ids papers findings).1 !! editor'
    = if decide (editor = editor')
      then match filter (fun paper => id paper ∈ ids) papers with
           | [] => findings !! editor
           | ms => Some (entry findings editor ++ ms)
           end
      else findings !! editor'.
Proof.
  induction papers as [|paper rest IH]; intros findings editor'.
  - cbn. destruct (decide _) as [<-|]; reflexivity.
  - cbn [check_editor]. rewrite filter_cons.
    destruct (decide (id paper ∈ ids)) as [Hin|Hin].
    + rewrite bool_decide_eq_true_2 by exact Hin.
      specialize (IH (add_finding editor paper findings) editor').
      destruct (check_editor editor ids rest (add_finding editor paper findings))
        as [findings' notices].
      cbn [fst] in *. rewrite IH.
      destruct (decide (editor = editor')) as [<-|Hne].
      * destruct (filter _ rest) as [|m ms].
        -- rewrite add_finding_lookup, decide_True by reflexivity.
           reflexivity.
        -- rewrite entry_add_finding, <- app_assoc. reflexivity.
      * rewrite add_finding_lookup, decide_False by exact Hne. reflexivity.
    + rewrite bool_decide_eq_false_2 by exact Hin. apply IH.
Qed.

Lemma check_papers_lookup_other (papers : list Paper)
    (roster : list (string * list string)) :
  forall (findings : gmap string (list Paper)) (editor : string),
    editor ∉ roster.*1 ->
    (check_papers papers roster findings).1 !! editor = findings !! editor.
Proof.
  induction roster as [|[e ids] rest IH]; intros findings editor Hnot;
    [reflexivity|].
  cbn [check_papers].
  pose proof (check_editor_lookup e (list_to_set ids) papers findings editor)
    as He.
  destruct (check_editor e (list_to_set ids) papers findings)
    as [findings1 notices1].
  specialize (IH findings1 editor).
  destruct (check_papers papers rest findings1) as [findings2 notices2].
  cbn [fst] in *. rewrite fmap_cons, not_elem_of_cons in Hnot.
  destruct Hnot as [Hne Hnot]. cbn [fst] in Hne.
  rewrite IH by exact Hnot. rewrite He, decide_False by auto. reflexivity.
Qed.

Lemma check_papers_lookup (papers : list Paper)
    (roster : list (string * list string)) :
  forall (findings : gmap string (list Paper)) (editor : string)
         (ids : list string),
    NoDup roster.*1 ->
    (editor, ids) ∈ roster ->
    (check_papers papers roster findings).1 !! editor
    = match filter (fun paper => id paper ∈ ids) papers with
      | [] => findings !! editor
      | ms => Some (entry findings editor ++ ms)
      end.
Proof.
  induction roster as [|[e ids'] rest IH]; intros findings editor ids Hnd Hin.
  - inversion Hin.
  - rewrite fmap_cons in Hnd. apply NoDup_cons in Hnd as [Hfresh Hnd].
    cbn [fst] in Hfresh. cbn [check_papers].
    pose proof (check_editor_lookup e (list_to_set ids') papers findings editor)
      as He.
    destruct (check_editor e (list_to_set ids') papers findings)
      as [findings1 notices1].
    pose proof (check_papers_lookup_other papers rest findings1 editor) as Hother.
    specialize (IH findings1 editor ids Hnd).
    destruct (check_papers papers rest findings1) as [findings2 notices2].
    cbn [fst] in *. apply elem_of_cons in Hin as [[= <- <-]|Hin].
    + rewrite Hother by exact Hfresh. rewrite He, decide_True by reflexivity.
      rewrite (list_filter_iff (fun paper => id paper ∈ ids)
                 (fun paper => id paper ∈ (list_to_set ids : gset string))).
      * reflexivity.
      * intros paper. rewrite elem_of_list_to_set. reflexivity.
    + rewrite IH by exact Hin.
      assert (Hne : e <> editor).
      { intros ->. apply Hfresh. apply list_elem_of_fmap.
        exists (editor, ids). split; [reflexivity|exact Hin]. }
      unfold entry. rewrite He, decide_False by exact Hne. reflexivity.
Qed.

(** C4: one call of [check_papers] appends to the entry of every editor of
    the roster the papers of the batch whose id is among the editor's ids,
    each once and in batch order, creating the entry when it is missing;
    what was recorded before stays in front, and the entries of editors
    without a match and of names outside the roster are unchanged. *)
Theorem check_papers_appends_matches (papers : list Paper)
    (roster : list (string * list string))
    (findings : gmap string (list Paper)) :
  NoDup roster.*1 ->
  let findings' := (check_papers papers roster findings).1 in
  (forall (editor : string) (ids : list string),
      (editor, ids) ∈ roster ->
      let matched := filter (fun paper => id paper ∈ ids) papers in
      entry findings' editor = entry findings editor ++ matched
      /\ (matched <> [] ->
          findings' !! editor = Some (entry findings editor ++ matched))
      /\ (matched = [] -> findings' !! editor = findings !! editor))
  /\ (forall editor : string,
         editor ∉ roster.*1 -> findings' !! editor = findings !! editor).
Proof.
  intros Hnd findings'. split.
  - intros editor ids Hin matched.
    pose proof (check_papers_lookup papers roster findings editor ids Hnd Hin)
      as Hlook.
    fold findings' in Hlook. fold matched in Hlook.
    unfold entry at 1. rewrite Hlook.
    destruct matched as [|m ms].
    + split; [rewrite app_nil_r; reflexivity|].
      split; [intros Hne; contradiction|reflexivity].
    + split; [reflexivity|]. split; [reflexivity|discriminate].
  - intros editor Hnot. apply check_papers_lookup_other, Hnot.
Qed.

Lemma check_papers_times_entry (n : nat) (papers : list Paper)
    (roster : list (string * list string)) (editor : string)
    (ids : list string) :
  NoDup roster.*1 ->
  (editor, ids) ∈ roster ->
  forall findings : gmap string (list Paper),
    entry (check_papers_times n papers roster findings) editor
    = entry findings editor
      ++ concat (replicate n (filter (fun paper => id paper ∈ ids) papers)).
Proof.
  intros Hnd Hin. induction n as [|n IH]; intros findings.
  - cbn. rewrite app_nil_r. reflexivity.
  - cbn [check_papers_times replicate concat]. rewrite IH.
    unfold entry at 1.
    rewrite (check_papers_lookup papers roster findings editor ids Hnd Hin).
    destruct (filter _ papers) as [|m ms] eqn:E.
    + reflexivity.
    + change (default [] (Some ?l)) with l. cbv beta.
      rewrite <- app_assoc. reflexivity.
Qed.

Lemma occurrences_concat_replicate (p : Paper) (n : nat) (l : list Paper) :
  occurrences p (concat (replicate n l)) = (n * occurrences p l)%nat.
Proof.
  induction n as [|n IH]; [reflexivity|].
  cbn [replicate concat]. rewrite occurrences_app, IH. lia.
Qed.

(** C3, as stated, fails: two checks of the same batch record the match
    twice. *)
Lemma recorded_twice_after_two_checks :
  ~ recorded_once 2 [paper_X] [("E", ["X"])] "E" paper_X.
Proof. unfold recorded_once. vm_compute. discriminate. Qed.

(** C3, amended: after [n] checks of the same batch, the entry of an
    editor who owns the paper's id holds the paper [n] times for each of
    its occurrences in the batch, on top of what it held before; so it
    holds it exactly once only after one check of a batch that holds it
    once, starting from findings without it. *)
Theorem check_papers_times_occurrences (n : nat) (papers : list Paper)
    (roster : list (string * list string))
    (findings : gmap string (list Paper)) (editor : string)
    (ids : list string) (paper : Paper) :
  NoDup roster.*1 ->
  (editor, ids) ∈ roster ->
  id paper ∈ ids ->
  occurrences paper (entry (check_papers_times n papers roster findings) editor)
  = (occurrences paper (entry findings editor)
     + n * occurrences paper papers)%nat.
Proof.
  intros Hnd Hin Hid.
  rewrite (check_papers_times_entry n papers roster editor ids Hnd Hin).
  rewrite occurrences_app, occurrences_concat_replicate.
  rewrite (occurrences_filter (fun paper => id paper ∈ ids)) by exact Hid.
  reflexivity.
Qed.

(** ** Discovering the neighbours of a paper *)

Lemma print_lines_run (lines : list string) : forall w : World,
  print_lines lines w
  = (Ok tt, {| requests := requests w; slept := slept w;
               stdout := stdout w ++ lines |}).
Proof.
  induction lines as [|line rest IH]; intros w.
  - cbn. rewrite app_nil_r. destruct w; reflexivity.
  - cbn [print_lines]. unfold bind at 1. unfold print at 1. rewrite IH.
    cbn [requests slept stdout]. rewrite <- app_assoc. reflexivity.
Qed.

Lemma get_path_depth_nonneg (p : Paper) : 0 <= get_path_depth p.
Proof.
  induction p as [i t c r IHc IHr] using Paper_ind.
  destruct c as [a|], r as [b|]; cbn in *; lia.
Qed.

Lemma get_path_depth_unparented (p : Paper) :
  unparented p -> get_path_depth p = 0.
Proof. destruct p as [i t c r]. intros [Hc Hr]. cbn in *. subst. reflexivity. Qed.

Lemma get_path_depth_child (parent p : Paper) :
  child_of parent p -> get_path_depth p = get_path_depth parent + 1.
Proof.
  destruct p as [i t c r]. intros [[Hc Hr]|[Hc Hr]]; cbn in *; subst; cbn; lia.
Qed.

Lemma child_of_cited (c parent : Paper) :
  unparented c -> child_of parent (cited c parent).
Proof. intros [_ Hr]. left. split; [reflexivity|exact Hr]. Qed.

Lemma child_of_referenced_by (c parent : Paper) :
  unparented c -> child_of parent (referenced_by c parent).
Proof. intros [Hc _]. right. split; [exact Hc|reflexivity]. Qed.

Lemma discover_adds (link : Paper -> Paper) (candidates : list Paper) :
  (forall c, id (link c) = id c) ->
  forall (found : gset string) (new_papers : list Paper),
  exists added : list Paper,
    discover link candidates found new_papers
    = (list_to_set (id <$> added) ∪ found, new_papers ++ added)
    /\ NoDup (id <$> added)
    /\ forall p, p ∈ added ->
         (id p ∉ found) /\ exists c, c ∈ candidates /\ p = link c.
Proof.
  intros Hid. induction candidates as [|c rest IH]; intros found new_papers.
  - exists []. cbn [discover fmap list_fmap list_to_set].
    rewrite app_nil_r, (left_id_L ∅ (∪)).
    split; [reflexivity|]. split; [constructor|].
    intros p Hp. inversion Hp.
  - cbn [discover]. destruct (decide (id c ∈ found)) as [Hin|Hin].
    + rewrite bool_decide_eq_true_2 by exact Hin.
      destruct (IH found new_papers) as (added & -> & Hnd & Hadded).
      exists added. split; [reflexivity|]. split; [exact Hnd|].
      intros p Hp. destruct (Hadded p Hp) as (Hfresh & c' & Hc' & ->).
      split; [exact Hfresh|]. exists c'. split; [|reflexivity].
      apply elem_of_cons. right. exact Hc'.
    + rewrite bool_decide_eq_false_2 by exact Hin.
      destruct (IH ({[id c]} ∪ found) (new_papers ++ [link c]))
        as (added & -> & Hnd & Hadded).
      exists (link c :: added). rewrite fmap_cons, Hid.
      split; [|split].
      * f_equal; [|rewrite <- app_assoc; reflexivity].
        rewrite list_to_set_cons. apply set_eq. intros x.
        rewrite !elem_of_union. tauto.
      * apply NoDup_cons. split; [|exact Hnd].
        intros (p & Hp & Hpin)%list_elem_of_fmap.
        destruct (Hadded p Hpin) as [Hfresh _]. apply Hfresh.
        rewrite <- Hp. apply elem_of_union_l, elem_of_singleton. reflexivity.
      * intros p [->|Hp]%elem_of_cons.
        -- rewrite Hid. split; [exact Hin|]. exists c.
           split; [apply elem_of_cons; left|]; reflexivity.
        -- destruct (Hadded p Hp) as (Hfresh & c' & Hc' & ->).
           split; [intros H; apply Hfresh, elem_of_union_r, H|].
           exists c'. split; [|reflexivity].
           apply elem_of_cons. right. exact Hc'.
Qed.

Lemma discover_covers (link : Paper -> Paper) (candidates : list Paper) :
  forall (found : gset string) (new_papers : list Paper),
    found ⊆ (discover link candidates found new_papers).1
    /\ forall c, c ∈ candidates ->
         id c ∈ (discover link candidates found new_papers).1.
Proof.
  induction candidates as [|c0 rest IH]; intros found new_papers.
  - split; [reflexivity|]. intros c Hc. inversion Hc.
  - cbn [discover]. destruct (decide (id c0 ∈ found)) as [Hin|Hin].
    + rewrite bool_decide_eq_true_2 by exact Hin.
      destruct (IH found new_papers) as [Hmono Hcover].
      split; [exact Hmono|].
      intros c [->|Hc]%elem_of_cons; [apply Hmono, Hin|apply Hcover, Hc].
    + rewrite bool_decide_eq_false_2 by exact Hin.
      destruct (IH ({[id c0]} ∪ found) (new_papers ++ [link c0]))
        as [Hmono Hcover].
      split.
      * intros x Hx. apply Hmono, elem_of_union_r, Hx.
      * intros c [->|Hc]%elem_of_cons; [|apply Hcover, Hc].
        apply Hmono, elem_of_union_l, elem_of_singleton. reflexivity.
Qed.

Lemma fetched_unparented (response : Response)
    (citing referenced : list Paper) :
  fetched response = Ok (citing, referenced) ->
  forall c, c ∈ citing ++ referenced -> unparented c.
Proof.
  intros Hrun c Hc.
  destruct (fetched_cases response)
    as [[_ Hnone]|[(_ & _ & cs & rs & Hcs & Hrs & Hboth)|(_ & _ & e & He & _)]].
  - rewrite Hnone in Hrun. injection Hrun as <- <-. inversion Hc.
  - rewrite Hboth in Hrun. injection Hrun as <- <-.
    apply elem_of_app in Hc as [Hc|Hc].
    + exact (papers_of_field_unparented _ _ Hcs c Hc).
    + exact (papers_of_field_unparented _ _ Hrs c Hc).
  - rewrite He in Hrun. discriminate Hrun.
Qed.

(** ** One pass through the loop *)

(** A pass that expands a paper: the neighbours whose id is new are linked
    to the paper, appended to the fringe and match-checked; every
    neighbour is then among the found ids. *)
Lemma bfs_iteration_expands (server : nat -> Request -> Response) (depth : Z)
    (roster : list (string * list string)) (st : BfsState) (w : World)
    (paper : Paper) (rest citing referenced : list Paper) (w1 : World) :
  fringe st = paper :: rest ->
  get_path_depth paper <= depth ->
  get_citing_and_referenced_papers server (id paper) w
  = (Ok (citing, referenced), w1) ->
  exists new_papers : list Paper,
    bfs_iteration server depth roster st w
    = (Ok (Next {| fringe := rest ++ new_papers;
                   found_ids := list_to_set (id <$> new_papers) ∪ found_ids st;
                   findings :=
                     (check_papers new_papers roster (findings st)).1 |}),
       {| requests := requests w1; slept := slept w1;
          stdout := stdout w1
                    ++ (check_papers new_papers roster (findings st)).2 |})
    /\ NoDup (id <$> new_papers)
    /\ (forall p, p ∈ new_papers ->
          (id p ∉ found_ids st) /\ child_of paper p
          /\ exists c, c ∈ citing ++ referenced
                       /\ id p = id c /\ title p = title c)
    /\ (forall c, c ∈ citing ++ referenced ->
          id c ∈ found_ids st \/ exists p, p ∈ new_papers /\ id p = id c).
Proof.
  intros Hfringe Hshallow Hfetch.
  assert (Hunp : forall c, c ∈ citing ++ referenced -> unparented c).
  { destruct (get_citing_and_referenced_papers_unfold server (id paper) w)
      as (sent & sleeps & _ & _ & _ & Hget).
    rewrite Hfetch in Hget. injection Hget as Hget _.
    exact (fetched_unparented _ _ _ (eq_sym Hget)). }
  unfold bfs_iteration. rewrite Hfringe.
  replace (get_path_depth paper >? depth) with false by lia.
  unfold bind at 1. rewrite Hfetch.
  pose proof (discover_covers (fun c => cited c paper) citing (found_ids st) [])
    as [_ Hcover1].
  destruct (discover_adds (fun c => cited c paper) citing
              (fun c => eq_refl) (found_ids st) [])
    as (added1 & Hd1 & Hnd1 & Hadded1).
  rewrite Hd1 in Hcover1 |- *. cbn [fst] in Hcover1.
  pose proof (discover_covers (fun r => referenced_by r paper) referenced
                (list_to_set (id <$> added1) ∪ found_ids st) ([] ++ added1))
    as [Hmono2 Hcover2].
  destruct (discover_adds (fun r => referenced_by r paper) referenced
              (fun r => eq_refl) (list_to_set (id <$> added1) ∪ found_ids st)
              ([] ++ added1))
    as (added2 & Hd2 & Hnd2 & Hadded2).
  rewrite Hd2 in Hcover2, Hmono2 |- *. cbn [fst] in Hcover2, Hmono2.
  cbn [app].
  assert (Hfound : list_to_set (id <$> added2)
                     ∪ (list_to_set (id <$> added1) ∪ found_ids st)
                   = list_to_set (id <$> added1 ++ added2) ∪ found_ids st).
  { rewrite fmap_app, list_to_set_app_L. apply set_eq. intros x.
    rewrite !elem_of_union. tauto. }
  exists (added1 ++ added2).
  destruct (check_papers (added1 ++ added2) roster (findings st))
    as [findings' notices] eqn:Hcheck.
  unfold bind at 1. rewrite print_lines_run. unfold ret.
  cbn [requests slept stdout fst snd]. rewrite Hfound.
  split; [reflexivity|]. split; [|split].
  - rewrite fmap_app. apply NoDup_app. split; [exact Hnd1|]. split; [|exact Hnd2].
    intros x Hx1 (p & -> & Hp)%list_elem_of_fmap.
    destruct (Hadded2 p Hp) as [Hfresh _]. apply Hfresh.
    apply elem_of_union_l, elem_of_list_to_set, Hx1.
  - intros p [Hp|Hp]%elem_of_app.
    + destruct (Hadded1 p Hp) as (Hfresh & c & Hc & ->).
      split; [exact Hfresh|]. split.
      * apply child_of_cited, Hunp. apply elem_of_app. left. exact Hc.
      * exists c. split; [apply elem_of_app; left; exact Hc|].
        split; reflexivity.
    + destruct (Hadded2 p Hp) as (Hfresh & c & Hc & ->).
      split; [intros H; apply Hfresh, elem_of_union_r, H|]. split.
      * apply child_of_referenced_by, Hunp. apply elem_of_app. right. exact Hc.
      * exists c. split; [apply elem_of_app; right; exact Hc|].
        split; reflexivity.
  - assert (Hall : forall c, c ∈ citing ++ referenced ->
                     id c ∈ list_to_set (id <$> added1 ++ added2)
                            ∪ found_ids st).
    { intros c [Hc|Hc]%elem_of_app; rewrite <- Hfound.
      - apply Hmono2, Hcover1, Hc.
      - apply Hcover2, Hc. }
    intros c Hc. apply Hall in Hc.
    apply elem_of_union in Hc as [Hnew|Hold]; [|left; exact Hold].
    right. apply elem_of_list_to_set, list_elem_of_fmap in Hnew
      as (p & Hid & Hp).
    exists p. split; [exact Hp|symmetry; exact Hid].
Qed.

(** Every pass through the loop has a result: a flow that meets
    [iteration_spec], or the exception of the fetch. *)
Lemma bfs_iteration_spec (server : nat -> Request -> Response) (depth : Z)
    (roster : list (string * list string)) (st : BfsState) (w : World) :
  (exists (flow : Flow) (w' : World),
      bfs_iteration server depth roster st w = (Ok flow, w')
      /\ iteration_spec depth roster st w flow w')
  \/ (exists (e : exn) (w' : World),
        bfs_iteration server depth roster st w = (Raise e, w')
        /\ iteration_fails server depth st w e w').
Proof.
  destruct (fringe st) as [|paper rest] eqn:Hfringe.
  { left. unfold bfs_iteration. rewrite Hfringe.
    eexists _, _. split; [reflexivity|]. apply spec_empty, Hfringe. }
  destruct (get_path_depth paper >? depth) eqn:Hdepth.
  { left. unfold bfs_iteration. rewrite Hfringe, Hdepth.
    eexists _, _. split; [reflexivity|].
    apply (spec_cutoff _ _ _ _ paper rest Hfringe). lia. }
  destruct (get_citing_and_referenced_papers_unfold server (id paper) w)
    as (sent & sleeps & _ & _ & _ & Hfetch).
  destruct (fetched _) as [[citing referenced]|e] eqn:Hfetched.
  - left.
    destruct (bfs_iteration_expands server depth roster st w paper rest citing
                referenced _ Hfringe ltac:(lia) Hfetch)
      as (new_papers & Hit & Hnd & Hnew & _).
    eexists _, _. split; [exact Hit|].
    unfold after_attempts. cbn [requests slept stdout].
    apply (spec_expand _ _ _ _ paper rest new_papers (S sent)
             (backoff_from 1 sleeps) Hfringe); [lia|lia|exact Hnd|].
    intros p Hp. destruct (Hnew p Hp) as (Hfresh & Hchild & _). auto.
  - right. exists e. eexists. split.
    + unfold bfs_iteration. rewrite Hfringe, Hdepth. unfold bind.
      rewrite Hfetch. reflexivity.
    + apply (fails_fetch _ _ _ _ paper rest sent (backoff_from 1 sleeps) e
               Hfringe); [lia| |exact Hfetched].
      destruct (fetched_cases
                  (nth_response server (detail_url (id paper)) w sent))
        as [[_ Hnone]|[(_ & _ & cs & rs & _ & _ & Hboth)|(Hstatus & _)]].
      * rewrite Hnone in Hfetched. discriminate Hfetched.
      * rewrite Hboth in Hfetched. discriminate Hfetched.
      * exact Hstatus.
Qed.

(** A pass that has a flow meets [iteration_spec]. *)
Lemma bfs_iteration_ok (server : nat -> Request -> Response) (depth : Z)
    (roster : list (string * list string)) (st : BfsState) (w : World)
    (flow : Flow) (w' : World) :
  bfs_iteration server depth roster st w = (Ok flow, w') ->
  iteration_spec depth roster st w flow w'.
Proof.
  intros Hit.
  destruct (bfs_iteration_spec server depth roster st w)
    as [(flow' & w1 & Hit' & Hspec)|(e & w1 & Hit' & _)];
    rewrite Hit in Hit'; [|discriminate Hit'].
  injection Hit' as <- <-. exact Hspec.
Qed.

Lemma iteration_spec_next (depth : Z) (roster : list (string * list string))
    (st st' : BfsState) (w w' : World) :
  iteration_spec depth roster st w (Next st') w' ->
  exists paper rest new_papers,
    fringe st = paper :: rest /\ fringe st' = rest ++ new_papers.
Proof. inversion 1; subst. eexists _, _, _. split; [eassumption|reflexivity]. Qed.

Lemma iteration_spec_stop (depth : Z) (roster : list (string * list string))
    (last st : BfsState) (w w' : World) :
  iteration_spec depth roster last w (Stop st) w' ->
  w' = w
  /\ found_ids st = found_ids last
  /\ findings st = findings last
  /\ (fringe last = [] /\ fringe st = []
      \/ exists paper,
           fringe last = paper :: fringe st /\ depth < get_path_depth paper).
Proof.
  inversion 1 as [Hnil|paper rest Hcons Hdeep|]; subst.
  - repeat split; try reflexivity. left. split; exact Hnil.
  - repeat split; try reflexivity. right. exists paper. cbn [fringe]. auto.
Qed.

(** ** Termination of the loop *)

Lemma bfs_loop_unfold (server : nat -> Request -> Response) (fuel : nat)
    (depth : Z) (roster : list (string * list string)) (st : BfsState)
    (w : World) (flow : Flow) (w1 : World) :
  bfs_iteration server depth roster st w = (Ok flow, w1) ->
  bfs_loop server (S fuel) depth roster st w
  = match flow with
    | Stop st' => (Ok (Some st'), w1)
    | Next st' => bfs_loop server fuel depth roster st' w1
    end.
Proof.
  intros Hit. cbn [bfs_loop]. unfold bind. rewrite Hit.
  destruct flow; reflexivity.
Qed.

Lemma bfs_loop_raises (server : nat -> Request -> Response) (fuel : nat)
    (depth : Z) (roster : list (string * list string)) (st : BfsState)
    (w : World) (e : exn) (w1 : World) :
  bfs_iteration server depth roster st w = (Raise e, w1) ->
  bfs_loop server (S fuel) depth roster st w = (Raise e, w1).
Proof. intros Hit. cbn [bfs_loop]. unfold bind. rewrite Hit. reflexivity. Qed.

Section Termination.

Variable server : nat -> Request -> Response.
Variable depth : Z.
Variable roster : list (string * list string).

(** If the loop halts on every fringe of papers at level [bound + 1] or
    deeper, it halts on a fringe that has papers of level [bound] or deeper
    in front of such papers: every pass removes one paper of the front and
    adds papers one level below it to the back, unless it ends the loop. *)
Lemma halts_two_levels (bound : Z) :
  (forall st w,
      Forall (fun p => bound + 1 <= get_path_depth p) (fringe st) ->
      halts server depth roster st w) ->
  forall (front back : list Paper) (found : gset string)
         (findings : gmap string (list Paper)) (w : World),
    Forall (fun p => bound <= get_path_depth p) front ->
    Forall (fun p => bound + 1 <= get_path_depth p) back ->
    halts server depth roster {| fringe := front ++ back; found_ids := found;
             findings := findings |} w.
Proof.
  intros Hdeeper front.
  induction front as [|paper front IH];
    intros back found findings w Hfront Hback.
  - apply Hdeeper. exact Hback.
  - destruct (bfs_iteration_spec server depth roster
                {| fringe := (paper :: front) ++ back; found_ids := found;
                   findings := findings |} w)
      as [(flow & w1 & Hit & Hspec)|(e & w1 & Hit & _)].
    + inversion Hspec as [Hnil|p rest Hcons Hdeep|p rest new_papers sent sleeps
                               Hcons Hshallow Hsent Hnd Hnew]; subst.
      * discriminate Hnil.
      * exists 1%nat. eexists _, _.
        rewrite (bfs_loop_unfold _ _ _ _ _ _ _ _ Hit).
        split; [reflexivity|]. left. eauto.
      * cbn [fringe found_ids] in *. injection Hcons as <- <-.
        apply Forall_cons in Hfront as [Hpaper Hfront].
        destruct (IH (back ++ new_papers)
                    (list_to_set (id <$> new_papers) ∪ found)
                    (check_papers new_papers roster findings).1
                    {| requests := requests w
                          ++ replicate sent (Get (detail_url (id paper)));
                       slept := slept w ++ sleeps;
                       stdout := stdout w
                          ++ (check_papers new_papers roster findings).2 |}
                    Hfront)
          as (fuel & r & w' & Hloop & Hend).
        -- apply Forall_app. split; [exact Hback|].
           apply Forall_forall. intros q Hq. destruct (Hnew q Hq) as [_ Hchild].
           rewrite (get_path_depth_child paper q Hchild). lia.
        -- exists (S fuel), r, w'.
           rewrite (bfs_loop_unfold _ _ _ _ _ _ _ _ Hit).
           rewrite <- app_assoc. split; [exact Hloop|exact Hend].
    + exists 1%nat, (Raise e), w1.
      split; [apply bfs_loop_raises, Hit|]. right. eauto.
Qed.

Lemma halts_from_level (k : nat) : forall (st : BfsState) (w : World),
  Forall (fun p => depth + 1 - Z.of_nat k <= get_path_depth p) (fringe st) ->
  halts server depth roster st w.
Proof.
  induction k as [|k IH]; intros st w Hlevel.
  - destruct (bfs_iteration_spec server depth roster st w)
      as [(flow & w1 & Hit & Hspec)|(e & w1 & Hit & Hfails)].
    + exists 1%nat. rewrite (bfs_loop_unfold _ _ _ _ _ _ _ _ Hit).
      inversion Hspec as [Hnil|p rest Hcons Hdeep|p rest new_papers sent sleeps
                               Hcons Hshallow Hsent Hnd Hnew]; subst.
      * eexists _, _. split; [reflexivity|]. left. eauto.
      * eexists _, _. split; [reflexivity|]. left. eauto.
      * rewrite Hcons in Hlevel. apply Forall_cons in Hlevel as [Hp _]. lia.
    + exists 1%nat, (Raise e), w1.
      split; [apply bfs_loop_raises, Hit|]. right. eauto.
  - destruct st as [fr found findings]. cbn [fringe] in Hlevel.
    rewrite <- (app_nil_r fr).
    apply (halts_two_levels (depth + 1 - Z.of_nat (S k))).
    + intros st' w' Hdeeper. apply IH.
      eapply Forall_impl; [exact Hdeeper|]. cbn beta. intros p Hp. lia.
    + exact Hlevel.
    + constructor.
Qed.

Lemma bfs_loop_halts (st : BfsState) (w : World) :
  halts server depth roster st w.
Proof.
  apply (halts_from_level (Z.to_nat (depth + 1))).
  apply Forall_forall. intros p _. pose proof (get_path_depth_nonneg p). lia.
Qed.

(** The loop ends with an exception only when a fetch could not read the
    body of an answer with status 200. *)
Lemma bfs_loop_raise_unreadable (fuel : nat) :
  forall (st : BfsState) (w : World) (e : exn) (w' : World),
    bfs_loop server fuel depth roster st w = (Raise e, w') ->
    fetch_error e
    /\ exists (n : nat) (rq : Request),
         status_code (server n rq) = 200
         /\ ~ readable (json (server n rq))
         /\ fetched (server n rq) = Raise e.
Proof.
  induction fuel as [|fuel IH]; intros st w e w' Hloop; [discriminate Hloop|].
  destruct (bfs_iteration_spec server depth roster st w)
    as [(flow & w1 & Hit & Hspec)|(e1 & w1 & Hit & Hfails)].
  - rewrite (bfs_loop_unfold _ _ _ _ _ _ _ _ Hit) in Hloop.
    destruct flow as [st1|st1]; [exact (IH _ _ _ _ Hloop)|discriminate Hloop].
  - rewrite (bfs_loop_raises _ _ _ _ _ _ _ _ Hit) in Hloop.
    injection Hloop as <- <-.
    inversion Hfails as [paper rest sent sleeps e0 Hfringe Hshallow Hstatus
                           Hfetched]; subst.
    unfold nth_response in *.
    destruct (fetched_cases
                (server (length (requests w) + sent)%nat
                   (Get (detail_url (id paper)))))
      as [[_ Hnone]|[(_ & _ & cs & rs & _ & _ & Hboth)|(_ & Hnot & e & He & Herr)]].
    + rewrite Hnone in Hfetched. discriminate Hfetched.
    + rewrite Hboth in Hfetched. discriminate Hfetched.
    + rewrite He in Hfetched. injection Hfetched as <-.
      split; [exact Herr|]. eauto.
Qed.

(** When the server's answers with status 200 are all readable, the loop
    ends in a state. *)
Lemma bfs_loop_returns (st : BfsState) (w : World) :
  answers_readable server ->
  exists (fuel : nat) (st' : BfsState) (w' : World),
    bfs_loop server fuel depth roster st w = (Ok (Some st'), w').
Proof.
  intros Hreadable.
  destruct (bfs_loop_halts st w) as (fuel & r & w' & Hloop & [(st' & ->)|(e & ->)]).
  - eauto.
  - destruct (bfs_loop_raise_unreadable _ _ _ _ _ Hloop)
      as (_ & n & rq & Hstatus & Hnot & _).
    destruct (Hnot (Hreadable n rq Hstatus)).
Qed.

(** More fuel does not change the result of a loop that has ended. *)
Lemma bfs_loop_more_fuel (fuel : nat) :
  forall (st : BfsState) (w : World) (r : Res (option BfsState)) (w' : World)
         (fuel' : nat),
    bfs_loop server fuel depth roster st w = (r, w') ->
    ended r ->
    (fuel <= fuel')%nat ->
    bfs_loop server fuel' depth roster st w = (r, w').
Proof.
  induction fuel as [|fuel IH]; intros st w r w' fuel' Hloop Hend Hle.
  - injection Hloop as <- _. destruct Hend as [(st' & H)|(e & H)]; discriminate H.
  - destruct fuel' as [|fuel']; [lia|].
    cbn [bfs_loop] in *. unfold bind in *.
    destruct (bfs_iteration server depth roster st w) as [[[st1|st1]|e] w1];
      [|exact Hloop|exact Hloop].
    apply (IH _ _ _ _ _ Hloop Hend). lia.
Qed.

End Termination.

Lemma bfs_init_run (papers : list Paper) (roster : list (string * list string))
    (w0 : World) :
  bfs_init papers roster w0
  = (Ok {| fringe := papers; found_ids := list_to_set (id <$> papers);
           findings := (check_papers papers roster ∅).1 |},
     {| requests := requests w0; slept := slept w0;
        stdout := stdout w0
                  ++ "Beginning BFS..." :: (check_papers papers roster ∅).2 |}).
Proof.
  unfold bfs_init. unfold bind at 1. unfold print at 1.
  destruct (check_papers papers roster ∅) as [findings notices].
  unfold bind at 1. rewrite print_lines_run. unfold ret.
  cbn [requests slept stdout fst snd]. rewrite <- app_assoc. reflexivity.
Qed.

Lemma bfs_unfold (server : nat -> Request -> Response) (fuel : nat) (depth : Z)
    (papers : list Paper) (roster : list (string * list string)) (w0 : World) :
  exists (st0 : BfsState) (w1 : World),
    bfs_init papers roster w0 = (Ok st0, w1)
    /\ bfs server fuel depth papers roster w0
       = bfs_loop server fuel depth roster st0 w1.
Proof.
  eexists _, _. split; [apply bfs_init_run|].
  unfold bfs, bind. rewrite bfs_init_run. reflexivity.
Qed.

Lemma bfs_halts (server : nat -> Request -> Response) (depth : Z)
    (roster : list (string * list string)) (papers : list Paper) (w : World) :
  exists (fuel : nat) (r : Res (option BfsState)) (w' : World),
    bfs server fuel depth papers roster w = (r, w') /\ ended r.
Proof.
  destruct (bfs_loop_halts server depth roster
              {| fringe := papers; found_ids := list_to_set (id <$> papers);
                 findings := (check_papers papers roster ∅).1 |}
              {| requests := requests w; slept := slept w;
                 stdout := stdout w ++ "Beginning BFS..."
                             :: (check_papers papers roster ∅).2 |})
    as (fuel & r & w' & Hloop & Hend).
  exists fuel, r, w'. unfold bfs, bind. rewrite bfs_init_run.
  split; [exact Hloop|exact Hend].
Qed.

Lemma bfs_returns (server : nat -> Request -> Response) (depth : Z)
    (roster : list (string * list string)) (papers : list Paper) (w : World) :
  answers_readable server ->
  exists (fuel : nat) (st' : BfsState) (w' : World),
    bfs server fuel depth papers roster w = (Ok (Some st'), w').
Proof.
  intros Hreadable.
  destruct (bfs_loop_returns server depth roster
              {| fringe := papers; found_ids := list_to_set (id <$> papers);
                 findings := (check_papers papers roster ∅).1 |}
              {| requests := requests w; slept := slept w;
                 stdout := stdout w ++ "Beginning BFS..."
                             :: (check_papers papers roster ∅).2 |} Hreadable)
    as (fuel & st' & w' & Hloop).
  exists fuel, st', w'. unfold bfs, bind. rewrite bfs_init_run. exact Hloop.
Qed.

Lemma bfs_raise_unreadable (server : nat -> Request -> Response) (fuel : nat)
    (depth : Z) (roster : list (string * list string)) (papers : list Paper)
    (w : World) (e : exn) (w' : World) :
  bfs server fuel depth papers roster w = (Raise e, w') ->
  fetch_error e
  /\ exists (n : nat) (rq : Request),
       status_code (server n rq) = 200
       /\ ~ readable (json (server n rq))
       /\ fetched (server n rq) = Raise e.
Proof.
  unfold bfs, bind. rewrite bfs_init_run. apply bfs_loop_raise_unreadable.
Qed.

(** ** The states of a search *)

(** A pass of the loop that goes on, seen from a state of a search. *)
Lemma bfs_run_step_inv (server : nat -> Request -> Response) (depth : Z)
    (roster : list (string * list string)) (st st' : BfsState) (w w' : World)
    (paper : Paper) (rest new_papers : list Paper) :
  bfs_iteration server depth roster st w = (Ok (Next st'), w') ->
  fringe st = paper :: rest ->
  fringe st' = rest ++ new_papers ->
  exists (sent : nat) (sleeps : list Z),
    get_path_depth paper <= depth
    /\ (0 < sent)%nat
    /\ NoDup (id <$> new_papers)
    /\ (forall p, p ∈ new_papers -> (id p ∉ found_ids st) /\ child_of paper p)
    /\ st' = {| fringe := rest ++ new_papers;
                found_ids := list_to_set (id <$> new_papers) ∪ found_ids st;
                findings := (check_papers new_papers roster (findings st)).1 |}
    /\ w' = {| requests := requests w
                 ++ replicate sent (Get (detail_url (id paper)));
               slept := slept w ++ sleeps;
               stdout := stdout w
                 ++ (check_papers new_papers roster (findings st)).2 |}.
Proof.
  intros Hit Hfringe Hfringe'.
  pose proof (bfs_iteration_ok _ _ _ _ _ _ _ Hit) as Hspec.
  inversion Hspec as [| |p rest0 new0 sent sleeps Hcons Hshallow Hsent Hnd Hnew];
    subst.
  rewrite Hfringe in Hcons. injection Hcons as <- <-.
  cbn [fringe] in Hfringe'. apply app_inv_head in Hfringe'. subst new0.
  exists sent, sleeps. repeat split; try assumption; apply Hnew; assumption.
Qed.

Lemma bfs_run_visited_ids (server : nat -> Request -> Response) (depth : Z)
    (roster : list (string * list string)) (papers : list Paper) (w0 : World)
    (enqueued : list Paper) (st : BfsState) (w : World) :
  bfs_run server depth roster papers w0 enqueued st w ->
  found_ids st = list_to_set (id <$> enqueued)
  /\ fringe st `suffix_of` enqueued
  /\ exists later : list Paper,
       enqueued = papers ++ later
       /\ NoDup (id <$> later)
       /\ (forall p, p ∈ later -> id p ∉ id <$> papers)
       /\ (forall p, p ∈ later ->
             exists parent, parent ∈ enqueued /\ child_of parent p).
Proof.
  induction 1 as [st w Hinit
                 |enqueued st st' w w' paper rest new_papers Hrun IH Hit
                    Hfringe Hfringe'].
  - rewrite bfs_init_run in Hinit. injection Hinit as <- <-. cbn [found_ids fringe].
    split; [reflexivity|]. split; [reflexivity|].
    exists []. rewrite app_nil_r. split; [reflexivity|].
    split; [constructor|]. split; intros p Hp; inversion Hp.
  - destruct IH as (Hfound & Hsuffix & later & -> & Hnd & Hseeds & Hparents).
    destruct (bfs_run_step_inv _ _ _ _ _ _ _ _ _ _ Hit Hfringe Hfringe')
      as (sent & sleeps & _ & _ & Hndnew & Hnew & -> & _).
    cbn [found_ids fringe].
    assert (Hpaper : paper ∈ papers ++ later).
    { destruct Hsuffix as [front ->]. rewrite Hfringe.
      apply elem_of_app. right. apply elem_of_cons. left. reflexivity. }
    split; [|split].
    + rewrite Hfound, !fmap_app, !list_to_set_app_L. apply set_eq. intros x.
      rewrite !elem_of_union. tauto.
    + destruct Hsuffix as [front ->]. rewrite Hfringe.
      exists (front ++ [paper]). rewrite <- !app_assoc. reflexivity.
    + exists (later ++ new_papers). rewrite app_assoc.
      split; [reflexivity|]. split; [|split].
      * rewrite fmap_app. apply NoDup_app. split; [exact Hnd|].
        split; [|exact Hndnew].
        intros x Hx (p & -> & Hp)%list_elem_of_fmap.
        destruct (Hnew p Hp) as [Hfresh _]. apply Hfresh.
        rewrite Hfound, fmap_app. apply elem_of_list_to_set, elem_of_app.
        right. exact Hx.
      * intros p [Hp|Hp]%elem_of_app; [apply Hseeds, Hp|].
        destruct (Hnew p Hp) as [Hfresh _]. intros Hin. apply Hfresh.
        rewrite Hfound, fmap_app. apply elem_of_list_to_set, elem_of_app.
        left. exact Hin.
      * intros p [Hp|Hp]%elem_of_app.
        -- destruct (Hparents p Hp) as (parent & Hparent & Hchild).
           exists parent. split; [|exact Hchild].
           apply elem_of_app. left. exact Hparent.
        -- exists paper. split; [|apply Hnew, Hp].
           apply elem_of_app. left. exact Hpaper.
Qed.

(** C7 at a seed list that names the paper X twice: the found set holds X
    once, but both records are put on the fringe, so the id is enqueued
    twice, the paper is expanded twice (two requests for it) and it is
    reported twice. *)
Theorem duplicate_seed_enqueued_twice :
  ~ never_enqueued_twice always_404 2 [("E", ["X"])] [paper_X; paper_X] world0
  /\ duplicate_seed_search
     = (Ok (Some {| fringe := []; found_ids := {["X"]};
                    findings := {["E" := [paper_X; paper_X]]} |}),
        {| requests := [Get (detail_url "X"); Get (detail_url "X")];
           slept := [];
           stdout := ["Beginning BFS..."; finding_notice "E" paper_X;
                      finding_notice "E" paper_X] |}).
Proof.
  split.
  - intros Hclaim.
    assert (Hrun : exists st w,
               bfs_run always_404 2 [("E", ["X"])] [paper_X; paper_X] world0
                 [paper_X; paper_X] st w).
    { eexists _, _. apply run_start. apply bfs_init_run. }
    destruct Hrun as (st & w & Hrun). apply Hclaim in Hrun.
    apply NoDup_cons in Hrun as [Hnotin _]. apply Hnotin.
    apply elem_of_cons. left. reflexivity.
  - vm_compute. reflexivity.
Qed.

(** What the loop keeps of C7: at every state of a search the found set
    holds exactly the ids of the papers put on the fringe so far, seeds
    included, and the fringe is what is left of them; a pass of the loop only adds ids
    to the found set, namely those of the batch it appends to the fringe,
    none of which was found before; so the papers appended by the loop
    have pairwise distinct ids that differ from every seed's, and no id
    is enqueued twice when the seeds' ids are pairwise distinct; and each
    appended paper has exactly one provenance link, to a paper enqueued
    before it. *)
Theorem bfs_run_visited_set (server : nat -> Request -> Response) (depth : Z)
    (roster : list (string * list string)) (papers : list Paper) (w0 : World)
    (enqueued : list Paper) (st : BfsState) (w : World) :
  bfs_run server depth roster papers w0 enqueued st w ->
  found_ids st = list_to_set (id <$> enqueued)
  /\ fringe st `suffix_of` enqueued
  /\ (exists later : list Paper,
        enqueued = papers ++ later
        /\ NoDup (id <$> later)
        /\ (forall p, p ∈ later -> id p ∉ id <$> papers)
        /\ (NoDup (id <$> papers) -> NoDup (id <$> enqueued))
        /\ (forall p, p ∈ later ->
              exists parent, parent ∈ enqueued /\ child_of parent p))
  /\ (forall st' w',
        bfs_iteration server depth roster st w = (Ok (Next st'), w') ->
        found_ids st ⊆ found_ids st'
        /\ exists batch : list Paper,
             fringe st' = tail (fringe st) ++ batch
             /\ found_ids st' = list_to_set (id <$> batch) ∪ found_ids st
             /\ NoDup (id <$> batch)
             /\ forall p, p ∈ batch -> id p ∉ found_ids st).
Proof.
  intros Hrun.
  destruct (bfs_run_visited_ids _ _ _ _ _ _ _ _ Hrun)
    as (Hfound & Hsuffix & later & -> & Hnd & Hseeds & Hparents).
  split; [exact Hfound|]. split; [exact Hsuffix|]. split.
  - exists later. split; [reflexivity|]. split; [exact Hnd|].
    split; [exact Hseeds|]. split; [|exact Hparents].
    intros Hndseeds. rewrite fmap_app. apply NoDup_app.
    split; [exact Hndseeds|]. split; [|exact Hnd].
    intros x Hx (p & -> & Hp)%list_elem_of_fmap. exact (Hseeds p Hp Hx).
  - intros st' w' Hit.
    pose proof (bfs_iteration_ok _ _ _ _ _ _ _ Hit) as Hspec.
    inversion Hspec as [| |p rest new sent sleeps Hcons Hshallow Hsent Hndnew
                             Hnew]; subst.
    cbn [found_ids fringe]. rewrite Hcons. cbn [tail].
    split; [apply union_subseteq_r|].
    exists new. split; [reflexivity|]. split; [reflexivity|].
    split; [exact Hndnew|]. intros q Hq. apply Hnew, Hq.
Qed.

Lemma bfs_loop_ends (server : nat -> Request -> Response) (depth : Z)
    (roster : list (string * list string)) (papers : list Paper) (w0 : World)
    (fuel : nat) :
  forall (enqueued : list Paper) (st : BfsState) (w : World)
         (st' : BfsState) (w' : World),
    bfs_run server depth roster papers w0 enqueued st w ->
    bfs_loop server fuel depth roster st w = (Ok (Some st'), w') ->
    exists (enqueued' : list Paper) (last : BfsState),
      bfs_run server depth roster papers w0 enqueued' last w'
      /\ iteration_spec depth roster last w' (Stop st') w'.
Proof.
  induction fuel as [|fuel IH]; intros enqueued st w st' w' Hrun Hloop.
  - discriminate Hloop.
  - destruct (bfs_iteration_spec server depth roster st w)
      as [(flow & w1 & Hit & Hspec)|(e & w1 & Hit & _)];
      [|rewrite (bfs_loop_raises _ _ _ _ _ _ _ _ Hit) in Hloop;
        discriminate Hloop].
    rewrite (bfs_loop_unfold _ _ _ _ _ _ _ _ Hit) in Hloop.
    destruct flow as [st1|st1].
    + destruct (iteration_spec_next _ _ _ _ _ _ Hspec)
        as (paper & rest & new_papers & Hfringe & Hfringe').
      eapply IH; [|exact Hloop].
      exact (run_step _ _ _ _ _ _ _ _ _ _ _ _ _ Hrun Hit Hfringe Hfringe').
    + injection Hloop as <- <-. exists enqueued, st.
      assert (w1 = w) as -> by (inversion Hspec; reflexivity).
      split; assumption.
Qed.



(** ** A search with [depth = 0] *)



Example depth_0_search_result :
  exists st w,
    depth_0_search = (Ok (Some st), w)
    /\ requests w = [Get (detail_url "P1")]
    /\ entry (findings st) "Bob" = [cited (new_Paper "P2" "Two") paper_P1]
    /\ fringe st = [].
Proof. eexists _, _. split; [reflexivity|]. repeat split. Qed.

(** * Further properties *)

(** ** The retry client: bounds *)

(** X1: with at least one attempt allowed, [request_with_retries] returns
    the answer to the last request it sent; it sends at least one request
    and at most [max_retries]; its sleeps are 1, 2, 4, ..., at most one
    per request, so it sleeps less than 2^[max_retries] in all. *)
Theorem request_with_retries_bounded
    (server : nat -> Request -> Response) (url : string) (max_retries : Z)
    (w : World) :
  1 <= max_retries ->
  exists (r : Response) (sent sleeps : nat),
    request_with_retries server url max_retries w
    = (Ok r, after_attempts url w sent (doubling sleeps))
    /\ (1 <= sent)%nat
    /\ Z.of_nat sent <= max_retries
    /\ (sleeps <= sent)%nat
    /\ r = nth_response server url w (sent - 1)
    /\ total (doubling sleeps) < 2 ^ max_retries.
Proof.
  intros Hmax. unfold request_with_retries.
  destruct (Z.to_nat max_retries) as [|n] eqn:E; [lia|].
  destruct (retry_loop_bounded server url n 1 None w)
    as (r & sent & sleeps & Hrun & Hsent & Hsleeps & ->).
  exists (nth_response server url w sent), (S sent), sleeps.
  rewrite Hrun, backoff_from_1.
  split; [reflexivity|]. split; [lia|]. split; [lia|]. split; [exact Hsleeps|].
  split; [f_equal; lia|].
  rewrite <- backoff_from_1, total_backoff_from.
  assert (2 ^ Z.of_nat sleeps <= 2 ^ max_retries)
    by (apply Z.pow_le_mono_r; lia).
  lia.
Qed.

(** ** The neighbour fetcher: bounds *)


(** ** The match check: notices, batches without a match, and splitting *)

Lemma check_editor_notices (editor : string) (ids : gset string)
    (papers : list Paper) :
  forall findings : gmap string (list Paper),
    (check_editor editor ids papers findings).2
    = finding_notice editor <$> filter (fun paper => id paper ∈ ids) papers.
Proof.
  induction papers as [|paper rest IH]; intros findings; [reflexivity|].
  cbn [check_editor]. rewrite filter_cons.
  destruct (decide (id paper ∈ ids)) as [Hin|Hin].
  - rewrite bool_decide_eq_true_2 by exact Hin.
    specialize (IH (add_finding editor paper findings)).
    destruct (check_editor editor ids rest (add_finding editor paper findings))
      as [findings' notices].
    cbn [snd] in *. rewrite IH. reflexivity.
  - rewrite bool_decide_eq_false_2 by exact Hin. apply IH.
Qed.

(** X3: [check_papers] prints one notice for every pair of an editor of
    the roster and a paper of the batch whose id the editor owns, editor by
    editor in roster order and, for one editor, in batch order. *)
Theorem check_papers_notices (papers : list Paper)
    (roster : list (string * list string))
    (findings : gmap string (list Paper)) :
  (check_papers papers roster findings).2
  = concat ((fun item : string * list string =>
               finding_notice item.1
                 <$> filter (fun paper => id paper ∈ item.2) papers)
            <$> roster).
Proof.
  revert findings. induction roster as [|[editor ids] rest IH]; intros findings;
    [reflexivity|].
  cbn [check_papers].
  pose proof (check_editor_notices editor (list_to_set ids) papers findings)
    as Hnotices.
  destruct (check_editor editor (list_to_set ids) papers findings)
    as [findings1 notices1].
  specialize (IH findings1).
  destruct (check_papers papers rest findings1) as [findings2 notices2].
  cbn [snd fst] in *. rewrite fmap_cons. cbn [concat fst snd].
  rewrite Hnotices, IH. f_equal. f_equal.
  apply list_filter_iff. intros paper. apply elem_of_list_to_set.
Qed.

Lemma check_editor_no_match (editor : string) (ids : gset string)
    (papers : list Paper) (findings : gmap string (list Paper)) :
  (forall paper, paper ∈ papers -> id paper ∉ ids) ->
  check_editor editor ids papers findings = (findings, []).
Proof.
  induction papers as [|paper rest IH]; intros Hnone; [reflexivity|].
  cbn [check_editor]. rewrite bool_decide_eq_false_2.
  - apply IH. intros p Hp. apply Hnone, elem_of_cons. right. exact Hp.
  - apply Hnone, elem_of_cons. left. reflexivity.
Qed.

(** X4: when no paper of the batch has an id that an editor of the roster
    owns, [check_papers] leaves the findings as they are, creating no
    entry, and prints nothing; so it does for an empty batch. *)
Theorem check_papers_no_match (papers : list Paper)
    (roster : list (string * list string))
    (findings : gmap string (list Paper)) :
  (forall editor ids paper,
      (editor, ids) ∈ roster -> paper ∈ papers -> id paper ∉ ids) ->
  check_papers papers roster findings = (findings, []).
Proof.
  induction roster as [|[editor ids] rest IH]; intros Hnone; [reflexivity|].
  cbn [check_papers]. rewrite check_editor_no_match.
  - rewrite IH; [reflexivity|].
    intros e i p He. apply (Hnone e i p), elem_of_cons. right. exact He.
  - intros p Hp Hin. apply elem_of_list_to_set in Hin.
    apply (Hnone editor ids p); [|exact Hp|exact Hin].
    apply elem_of_cons. left. reflexivity.
Qed.

Lemma roster_key_entry (roster : list (string * list string)) (editor : string) :
  editor ∈ roster.*1 -> exists ids, (editor, ids) ∈ roster.
Proof.
  intros ([e ids] & -> & Hin)%list_elem_of_fmap. exists ids. exact Hin.
Qed.

(** X5: for a roster with pairwise distinct editors, checking a batch in
    two parts, one call after the other, records the same findings as
    checking the whole batch in one call. *)
Theorem check_papers_app (l1 l2 : list Paper)
    (roster : list (string * list string))
    (findings : gmap string (list Paper)) :
  NoDup roster.*1 ->
  (check_papers (l1 ++ l2) roster findings).1
  = (check_papers l2 roster (check_papers l1 roster findings).1).1.
Proof.
  intros Hnd. apply map_eq. intros editor.
  destruct (decide (editor ∈ roster.*1)) as [Hin|Hnot].
  - destruct (roster_key_entry roster editor Hin) as (ids & Hentry).
    rewrite !(check_papers_lookup _ roster _ editor ids Hnd Hentry).
    rewrite filter_app. unfold entry.
    rewrite (check_papers_lookup l1 roster findings editor ids Hnd Hentry).
    destruct (filter _ l1) as [|m1 ms1], (filter _ l2) as [|m2 ms2];
      cbn [app]; try reflexivity.
    + rewrite app_nil_r. reflexivity.
    + change (default [] (Some ?l)) with l. cbv beta.
      rewrite <- app_assoc. reflexivity.
  - rewrite !check_papers_lookup_other by exact Hnot. reflexivity.
Qed.

(** ** What a search has found *)

Lemma check_papers_entry (papers : list Paper)
    (roster : list (string * list string))
    (findings : gmap string (list Paper)) (editor : string)
    (ids : list string) :
  NoDup roster.*1 ->
  (editor, ids) ∈ roster ->
  entry (check_papers papers roster findings).1 editor
  = entry findings editor ++ filter (fun paper => id paper ∈ ids) papers.
Proof.
  intros Hnd Hin. unfold entry at 1.
  rewrite (check_papers_lookup papers roster findings editor ids Hnd Hin).
  destruct (filter _ papers) as [|m ms].
  - rewrite app_nil_r. reflexivity.
  - reflexivity.
Qed.

Lemma bfs_run_findings_entries (server : nat -> Request -> Response) (depth : Z)
    (roster : list (string * list string)) (papers : list Paper) (w0 : World)
    (enqueued : list Paper) (st : BfsState) (w : World) :
  NoDup roster.*1 ->
  bfs_run server depth roster papers w0 enqueued st w ->
  (forall editor ids,
      (editor, ids) ∈ roster ->
      entry (findings st) editor
      = filter (fun paper => id paper ∈ ids) enqueued)
  /\ (forall editor, editor ∉ roster.*1 -> findings st !! editor = None).
Proof.
  intros Hnd.
  induction 1 as [st w Hinit
                 |enqueued st st' w w' paper rest new_papers Hrun IH Hit
                    Hfringe Hfringe'].
  - rewrite bfs_init_run in Hinit. injection Hinit as <- <-. cbn [findings].
    split.
    + intros editor ids Hin.
      rewrite (check_papers_entry papers roster ∅ editor ids Hnd Hin).
      unfold entry. rewrite lookup_empty. reflexivity.
    + intros editor Hnot. rewrite check_papers_lookup_other by exact Hnot.
      apply lookup_empty.
  - destruct IH as [IHin IHout].
    destruct (bfs_run_step_inv _ _ _ _ _ _ _ _ _ _ Hit Hfringe Hfringe')
      as (sent & sleeps & _ & _ & _ & _ & -> & _).
    cbn [findings]. split.
    + intros editor ids Hin.
      rewrite (check_papers_entry _ roster _ editor ids Hnd Hin).
      rewrite (IHin editor ids Hin), filter_app. reflexivity.
    + intros editor Hnot. rewrite check_papers_lookup_other by exact Hnot.
      apply IHout, Hnot.
Qed.

(** X6: for a roster with pairwise distinct editors, at every state of a
    search the findings of an editor of the roster are exactly the papers
    put on the fringe so far, seeds included, whose id the editor owns, in
    the order of their discovery; no other name has an entry. *)
Theorem bfs_run_findings (server : nat -> Request -> Response) (depth : Z)
    (roster : list (string * list string)) (papers : list Paper) (w0 : World)
    (enqueued : list Paper) (st : BfsState) (w : World) :
  NoDup roster.*1 ->
  bfs_run server depth roster papers w0 enqueued st w ->
  (forall editor ids,
      (editor, ids) ∈ roster ->
      entry (findings st) editor
      = filter (fun paper => id paper ∈ ids) enqueued)
  /\ (forall editor, editor ∉ roster.*1 -> findings st !! editor = None).
Proof. apply bfs_run_findings_entries. Qed.

(** ** How deep a search goes *)

(** X7: in a search from seeds without provenance, every paper put on the
    fringe has a depth from 0 to the larger of 0 and [depth + 1] (the
    seeds, of depth 0, are put on the fringe whatever [depth] is, also
    when it is negative), and the only requests the search sends are the
    detail requests for papers of the fringe that are no deeper than
    [depth]. *)
Theorem bfs_run_depth_bound (server : nat -> Request -> Response) (depth : Z)
    (roster : list (string * list string)) (papers : list Paper) (w0 : World)
    (enqueued : list Paper) (st : BfsState) (w : World) :
  (forall p, p ∈ papers -> unparented p) ->
  bfs_run server depth roster papers w0 enqueued st w ->
  (forall p, p ∈ enqueued -> 0 <= get_path_depth p <= Z.max 0 (depth + 1))
  /\ (forall rq,
        rq ∈ requests w ->
        rq ∈ requests w0
        \/ exists p,
             p ∈ enqueued /\ get_path_depth p <= depth
             /\ rq = Get (detail_url (id p))).
Proof.
  intros Hseeds Hrun.
  pose proof (bfs_run_visited_ids _ _ _ _ _ _ _ _ Hrun) as (_ & Hsuffix & _).
  revert Hsuffix.
  induction Hrun as [st w Hinit
                    |enqueued st st' w w' paper rest new_papers Hrun IH Hit
                       Hfringe Hfringe']; intros Hsuffix.
  - rewrite bfs_init_run in Hinit. injection Hinit as <- <-. cbn [requests].
    split; [|auto]. intros p Hp.
    rewrite (get_path_depth_unparented p (Hseeds p Hp)). lia.
  - pose proof (bfs_run_visited_ids _ _ _ _ _ _ _ _ Hrun) as (_ & Hsuf & _).
    destruct (IH Hsuf) as [IHdepth IHreq].
    destruct (bfs_run_step_inv _ _ _ _ _ _ _ _ _ _ Hit Hfringe Hfringe')
      as (sent & sleeps & Hshallow & _ & _ & Hnew & _ & ->).
    assert (Hpaper : paper ∈ enqueued).
    { destruct Hsuf as [front ->]. rewrite Hfringe.
      apply elem_of_app. right. apply elem_of_cons. left. reflexivity. }
    cbn [requests]. split.
    + intros p [Hp|Hp]%elem_of_app; [apply IHdepth, Hp|].
      destruct (Hnew p Hp) as [_ Hchild].
      rewrite (get_path_depth_child paper p Hchild).
      pose proof (get_path_depth_nonneg paper). lia.
    + intros rq [Hrq|Hrq]%elem_of_app.
      * destruct (IHreq rq Hrq) as [Hold|(p & Hp & Hd & ->)]; [auto|].
        right. exists p. split; [apply elem_of_app; left; exact Hp|auto].
      * apply elem_of_replicate_inv in Hrq. right. exists paper.
        split; [apply elem_of_app; left; exact Hpaper|auto].
Qed.

(** ** The order of a search *)

Lemma sorted_same_depth (l : list Paper) (d : Z) :
  (forall p, p ∈ l -> get_path_depth p = d) ->
  StronglySorted no_deeper l.
Proof.
  induction l as [|s rest IH]; intros Hsame; constructor.
  - apply IH. intros p Hp. apply Hsame, elem_of_cons. right. exact Hp.
  - apply Forall_forall. intros q Hq. unfold no_deeper.
    rewrite (Hsame s), (Hsame q); [lia| |].
    + apply elem_of_cons. right. exact Hq.
    + apply elem_of_cons. left. reflexivity.
Qed.

Lemma bfs_run_levels (server : nat -> Request -> Response) (depth : Z)
    (roster : list (string * list string)) (papers : list Paper) (w0 : World)
    (enqueued : list Paper) (st : BfsState) (w : World) :
  (forall p, p ∈ papers -> unparented p) ->
  bfs_run server depth roster papers w0 enqueued st w ->
  StronglySorted no_deeper enqueued
  /\ fringe st `suffix_of` enqueued
  /\ (forall q p,
        q ∈ enqueued -> p ∈ fringe st ->
        get_path_depth q <= get_path_depth p + 1).
Proof.
  intros Hseeds.
  induction 1 as [st w Hinit
                 |enqueued st st' w w' paper rest new_papers Hrun IH Hit
                    Hfringe Hfringe'].
  - rewrite bfs_init_run in Hinit. injection Hinit as <- <-. cbn [fringe].
    assert (Hzero : forall p, p ∈ papers -> get_path_depth p = 0)
      by (intros p Hp; apply get_path_depth_unparented, Hseeds, Hp).
    split; [|split; [reflexivity|]].
    + apply (sorted_same_depth papers 0 Hzero).
    + intros q p Hq Hp. rewrite (Hzero q Hq), (Hzero p Hp). lia.
  - destruct IH as (Hsorted & Hsuffix & Hclose).
    destruct (bfs_run_step_inv _ _ _ _ _ _ _ _ _ _ Hit Hfringe Hfringe')
      as (sent & sleeps & _ & _ & _ & Hnew & -> & _).
    cbn [fringe].
    assert (Hdeeper : forall q, q ∈ new_papers ->
                        get_path_depth q = get_path_depth paper + 1).
    { intros q Hq. apply get_path_depth_child, Hnew, Hq. }
    assert (Hpaper : paper ∈ fringe st)
      by (rewrite Hfringe; apply elem_of_cons; left; reflexivity).
    assert (Hrest : forall p, p ∈ rest ->
                      get_path_depth paper <= get_path_depth p).
    { destruct Hsuffix as [front Heq]. rewrite Heq, Hfringe in Hsorted.
      apply StronglySorted_app_1_r, StronglySorted_cons in Hsorted
        as [Hall _].
      intros p Hp. exact (proj1 (Forall_forall _ _) Hall p Hp). }
    split; [|split].
    + apply StronglySorted_app_2; [|exact Hsorted|].
      * intros q p Hq Hp. unfold no_deeper. rewrite (Hdeeper p Hp).
        apply Hclose; assumption.
      * apply (sorted_same_depth new_papers _ Hdeeper).
    + destruct Hsuffix as [front ->]. rewrite Hfringe.
      exists (front ++ [paper]). rewrite <- !app_assoc. reflexivity.
    + intros q p [Hq|Hq]%elem_of_app [Hp|Hp]%elem_of_app.
      * apply Hclose; [exact Hq|]. rewrite Hfringe.
        apply elem_of_cons. right. exact Hp.
      * rewrite (Hdeeper p Hp). pose proof (Hclose q paper Hq Hpaper). lia.
      * rewrite (Hdeeper q Hq). pose proof (Hrest p Hp). lia.
      * rewrite (Hdeeper q Hq), (Hdeeper p Hp). lia.
Qed.

(** X8: a search from seeds without provenance is breadth first: the
    papers are put on the fringe in order of depth, a shallower paper
    never after a deeper one, and the papers waiting on the fringe differ
    in depth by at most one. *)
Theorem bfs_run_breadth_first (server : nat -> Request -> Response)
    (depth : Z) (roster : list (string * list string)) (papers : list Paper)
    (w0 : World) (enqueued : list Paper) (st : BfsState) (w : World) :
  (forall p, p ∈ papers -> unparented p) ->
  bfs_run server depth roster papers w0 enqueued st w ->
  StronglySorted no_deeper enqueued
  /\ StronglySorted no_deeper (fringe st)
  /\ (forall p q,
        p ∈ fringe st -> q ∈ fringe st ->
        get_path_depth q <= get_path_depth p + 1).
Proof.
  intros Hseeds Hrun.
  destruct (bfs_run_levels _ _ _ _ _ _ _ _ Hseeds Hrun)
    as (Hsorted & Hsuffix & Hclose).
  split; [exact Hsorted|]. split.
  - destruct Hsuffix as [front ->].
    exact (StronglySorted_app_1_r _ _ _ Hsorted).
  - intros p q Hp Hq. apply Hclose; [|exact Hp].
    destruct Hsuffix as [front ->]. apply elem_of_app. right. exact Hq.
Qed.

Lemma bfs_end_fringe_deep (server : nat -> Request -> Response)
    (fuel : nat) (depth : Z) (papers : list Paper)
    (roster : list (string * list string)) (w0 : World) (st : BfsState)
    (w : World) :
  (forall p, p ∈ papers -> unparented p) ->
  bfs server fuel depth papers roster w0 = (Ok (Some st), w) ->
  forall p, p ∈ fringe st -> depth < get_path_depth p.
Proof.
  intros Hseeds Hbfs p Hp.
  destruct (bfs_unfold server fuel depth papers roster w0)
    as (st0 & w1 & Hinit & Hbfs').
  rewrite Hbfs' in Hbfs.
  destruct (bfs_loop_ends server depth roster papers w0 fuel papers st0 w1 st w
              (run_start _ _ _ _ _ _ _ Hinit) Hbfs)
    as (enqueued & last & Hrun & Hstop).
  destruct (bfs_run_levels _ _ _ _ _ _ _ _ Hseeds Hrun)
    as (Hsorted & [front Hsuffix] & _).
  destruct (iteration_spec_stop _ _ _ _ _ _ Hstop)
    as (_ & _ & _ & [[_ Hnil]|(paper & Hcons & Hdeep)]).
  - rewrite Hnil in Hp. inversion Hp.
  - rewrite Hsuffix, Hcons in Hsorted.
    apply StronglySorted_app_1_r, StronglySorted_cons in Hsorted as [Hall _].
    pose proof (proj1 (Forall_forall _ _) Hall p Hp) as Hle.
    unfold no_deeper in Hle. lia.
Qed.

(** X9: when a search from seeds without provenance ends, every paper
    left on the fringe is deeper than [depth]: leaving the loop at the
    first paper that is too deep drops no paper that the loop would have
    expanded. *)
Theorem bfs_cutoff_drops_nothing (server : nat -> Request -> Response)
    (fuel : nat) (depth : Z) (papers : list Paper)
    (roster : list (string * list string)) (w0 : World) (st : BfsState)
    (w : World) :
  (forall p, p ∈ papers -> unparented p) ->
  bfs server fuel depth papers roster w0 = (Ok (Some st), w) ->
  forall p, p ∈ fringe st -> depth < get_path_depth p.
Proof. apply bfs_end_fringe_deep. Qed.

(** ** The loop from its first pass to its last *)

(** A pass that goes on, with what the fetch returned. *)
Lemma bfs_iteration_next (server : nat -> Request -> Response) (depth : Z)
    (roster : list (string * list string)) (st st' : BfsState) (w w' : World) :
  bfs_iteration server depth roster st w = (Ok (Next st'), w') ->
  exists (paper : Paper) (rest citing referenced new_papers : list Paper)
         (sent : nat) (sleeps : list Z),
    fringe st = paper :: rest
    /\ get_path_depth paper <= depth
    /\ get_citing_and_referenced_papers server (id paper) w
       = (Ok (citing, referenced),
          after_attempts (detail_url (id paper)) w (S sent) sleeps)
    /\ st' = {| fringe := rest ++ new_papers;
                found_ids := list_to_set (id <$> new_papers) ∪ found_ids st;
                findings := (check_papers new_papers roster (findings st)).1 |}
    /\ w' = {| requests := requests w
                 ++ replicate (S sent) (Get (detail_url (id paper)));
               slept := slept w ++ sleeps;
               stdout := stdout w
                 ++ (check_papers new_papers roster (findings st)).2 |}
    /\ NoDup (id <$> new_papers)
    /\ (forall p, p ∈ new_papers ->
          (id p ∉ found_ids st) /\ child_of paper p
          /\ exists c, c ∈ citing ++ referenced
                       /\ id p = id c /\ title p = title c)
    /\ (forall c, c ∈ citing ++ referenced ->
          id c ∈ found_ids st \/ exists p, p ∈ new_papers /\ id p = id c).
Proof.
  intros Hit.
  destruct (fringe st) as [|paper rest] eqn:Hfringe.
  { unfold bfs_iteration in Hit. rewrite Hfringe in Hit. discriminate Hit. }
  destruct (get_path_depth paper >? depth) eqn:Hdepth.
  { unfold bfs_iteration in Hit. rewrite Hfringe, Hdepth in Hit.
    discriminate Hit. }
  destruct (get_citing_and_referenced_papers_unfold server (id paper) w)
    as (sent & sleeps & _ & _ & _ & Hfetch).
  destruct (fetched _) as [[citing referenced]|e] eqn:Hfetched.
  - destruct (bfs_iteration_expands server depth roster st w paper rest citing
                referenced _ Hfringe ltac:(lia) Hfetch)
      as (new_papers & Hit' & Hnd & Hnew & Hcover).
    rewrite Hit in Hit'. injection Hit' as -> ->.
    exists paper, rest, citing, referenced, new_papers, sent,
           (backoff_from 1 sleeps).
    split; [reflexivity|]. split; [lia|]. split; [exact Hfetch|].
    split; [reflexivity|]. split; [reflexivity|]. auto.
  - unfold bfs_iteration in Hit. rewrite Hfringe, Hdepth in Hit.
    unfold bind in Hit. rewrite Hfetch in Hit. discriminate Hit.
Qed.

(** A loop that ends in a state does so after passes that went on, on an
    empty fringe or on a dequeued paper deeper than [depth]. *)
Lemma bfs_loop_reaches (server : nat -> Request -> Response) (depth : Z)
    (roster : list (string * list string)) (fuel : nat) :
  forall (st : BfsState) (w : World) (st' : BfsState) (w' : World),
    bfs_loop server fuel depth roster st w = (Ok (Some st'), w') ->
    exists last : BfsState,
      reaches server depth roster st w last w'
      /\ (fringe last = [] /\ st' = last
          \/ exists paper,
               fringe last = paper :: fringe st'
               /\ depth < get_path_depth paper
               /\ found_ids st' = found_ids last
               /\ findings st' = findings last).
Proof.
  induction fuel as [|fuel IH]; intros st w st' w' Hloop; [discriminate Hloop|].
  destruct (bfs_iteration_spec server depth roster st w)
    as [(flow & w1 & Hit & Hspec)|(e & w1 & Hit & _)];
    [|rewrite (bfs_loop_raises _ _ _ _ _ _ _ _ Hit) in Hloop;
      discriminate Hloop].
  rewrite (bfs_loop_unfold _ _ _ _ _ _ _ _ Hit) in Hloop.
  destruct flow as [st1|st1].
  - destruct (IH _ _ _ _ Hloop) as (last & Hreach & Hend).
    exists last. split; [|exact Hend].
    exact (reaches_pass _ _ _ _ _ _ _ _ _ Hit Hreach).
  - injection Hloop as <- <-. exists st.
    destruct (iteration_spec_stop _ _ _ _ _ _ Hspec)
      as (-> & Hfound & Hfindings & Hend).
    split; [apply reaches_here|].
    destruct Hend as [[Hnil Hnil']|(paper & Hcons & Hdeep)].
    + left. split; [exact Hnil|].
      inversion Hspec as [Hempty|p rest Hcons|]; subst; [reflexivity|].
      rewrite Hnil in Hcons. discriminate Hcons.
    + right. exists paper. auto.
Qed.

(** At the end of a search every paper left on the fringe has been
    match-checked: it is among the findings of each editor who owns its
    id, where the check that followed its discovery put it. *)
Lemma bfs_end_fringe_checked (server : nat -> Request -> Response)
    (fuel : nat) (depth : Z) (papers : list Paper)
    (roster : list (string * list string)) (w0 : World) (st : BfsState)
    (w : World) :
  NoDup roster.*1 ->
  bfs server fuel depth papers roster w0 = (Ok (Some st), w) ->
  forall p editor ids,
    p ∈ fringe st -> (editor, ids) ∈ roster -> id p ∈ ids ->
    p ∈ entry (findings st) editor.
Proof.
  intros Hnd Hbfs p editor ids Hp Hin Hown.
  destruct (bfs_unfold server fuel depth papers roster w0)
    as (st0 & w1 & Hinit & Hbfs').
  rewrite Hbfs' in Hbfs.
  destruct (bfs_loop_ends server depth roster papers w0 fuel papers st0 w1 st w
              (run_start _ _ _ _ _ _ _ Hinit) Hbfs)
    as (enqueued & last & Hrun & Hstop).
  destruct (bfs_run_visited_ids _ _ _ _ _ _ _ _ Hrun) as (_ & [front Hsuffix] & _).
  destruct (iteration_spec_stop _ _ _ _ _ _ Hstop)
    as (_ & _ & Hsame & Hend).
  rewrite Hsame,
    (proj1 (bfs_run_findings_entries _ _ _ _ _ _ _ _ Hnd Hrun) editor ids Hin).
  apply list_elem_of_filter. split; [exact Hown|].
  rewrite Hsuffix. apply elem_of_app. right.
  destruct Hend as [[_ Hnil]|(paper & Hcons & _)].
  - rewrite Hnil in Hp. inversion Hp.
  - rewrite Hcons. apply elem_of_cons. right. exact Hp.
Qed.

(** C2, as stated, fails: with [depth = 0], P1 cited by P2 and P3, and a
    roster in which Bob wrote P3, the loop exits when it dequeues P2; P3
    is left on the fringe, and it has been match-checked: it is among
    Bob's findings. *)
Lemma remaining_papers_were_checked :
  ~ remaining_never_checked cited_by_P2_P3 0 [("Bob", ["P3"])] [paper_P1].
Proof.
  intros Hclaim.
  assert (Hrun : bfs cited_by_P2_P3 2 0 [paper_P1] [("Bob", ["P3"])] world0
                 = one_left_search) by (vm_compute; reflexivity).
  unfold one_left_search in Hrun.
  apply (Hclaim _ _ _ Hrun (cited (new_Paper "P3" "Three") paper_P1) "Bob"
           ["P3"]).
  - apply elem_of_cons. left. reflexivity.
  - apply elem_of_cons. left. reflexivity.
  - apply elem_of_cons. left. reflexivity.
  - apply elem_of_cons. left. reflexivity.
Qed.

(** C2, amended. For every server the loop ends, from every state and so
    for every search, and more fuel does not change its result: it ends
    in a state when every fetch returns its lists, as it does when the
    answers with status 200 are readable, and otherwise with the
    exception of a fetch that could not read such an answer. A dequeued
    paper deeper than [depth] ends the loop at once, with the found ids,
    the findings and the world as they were and the rest of the fringe
    neither expanded nor checked. A pass that goes on dequeues a paper no
    deeper than [depth], appends papers exactly one level deeper to the
    back of the fringe and match-checks them then. A loop that ends in a
    state got there by such passes and stopped on an empty fringe or on a
    dequeued paper deeper than [depth]. The papers left on the fringe
    when a search ends have all been match-checked, when they were
    appended. *)
Theorem bfs_loop_terminates (server : nat -> Request -> Response) (depth : Z)
    (roster : list (string * list string)) :
  (forall st w, exists fuel r w',
      bfs_loop server fuel depth roster st w = (r, w') /\ ended r
      /\ forall fuel', (fuel <= fuel')%nat ->
           bfs_loop server fuel' depth roster st w = (r, w'))
  /\ (forall papers w, exists fuel r w',
        bfs server fuel depth papers roster w = (r, w') /\ ended r)
  /\ (answers_readable server ->
      (forall st w, exists fuel st' w',
          bfs_loop server fuel depth roster st w = (Ok (Some st'), w'))
      /\ (forall papers w, exists fuel st' w',
            bfs server fuel depth papers roster w = (Ok (Some st'), w')))
  /\ (forall fuel st w e w',
        bfs_loop server fuel depth roster st w = (Raise e, w') ->
        fetch_error e
        /\ exists n rq,
             status_code (server n rq) = 200
             /\ ~ readable (json (server n rq))
             /\ fetched (server n rq) = Raise e)
  /\ (forall fuel paper rest found findings w,
        depth < get_path_depth paper ->
        bfs_loop server (S fuel) depth roster
          {| fringe := paper :: rest; found_ids := found;
             findings := findings |} w
        = (Ok (Some {| fringe := rest; found_ids := found;
                       findings := findings |}), w))
  /\ (forall st w st' w',
        bfs_iteration server depth roster st w = (Ok (Next st'), w') ->
        exists paper rest new_papers,
          fringe st = paper :: rest
          /\ get_path_depth paper <= depth
          /\ fringe st' = rest ++ new_papers
          /\ (forall p, p ∈ new_papers ->
                get_path_depth p = get_path_depth paper + 1)
          /\ findings st' = (check_papers new_papers roster (findings st)).1)
  /\ (forall fuel st w st' w',
        bfs_loop server fuel depth roster st w = (Ok (Some st'), w') ->
        exists last,
          reaches server depth roster st w last w'
          /\ (fringe last = [] /\ st' = last
              \/ exists paper,
                   fringe last = paper :: fringe st'
                   /\ depth < get_path_depth paper
                   /\ found_ids st' = found_ids last
                   /\ findings st' = findings last))
  /\ (forall fuel papers w0 st w,
        NoDup roster.*1 ->
        bfs server fuel depth papers roster w0 = (Ok (Some st), w) ->
        forall p editor ids,
          p ∈ fringe st -> (editor, ids) ∈ roster -> id p ∈ ids ->
          p ∈ entry (findings st) editor).
Proof.
  split; [|split; [|split; [|split; [|split; [|split; [|split]]]]]].
  - intros st w.
    destruct (bfs_loop_halts server depth roster st w)
      as (fuel & r & w' & Hloop & Hend).
    exists fuel, r, w'. split; [exact Hloop|]. split; [exact Hend|].
    intros fuel' Hle.
    exact (bfs_loop_more_fuel _ _ _ _ _ _ _ _ _ Hloop Hend Hle).
  - apply bfs_halts.
  - intros Hreadable. split.
    + intros st w. apply bfs_loop_returns, Hreadable.
    + intros papers w. apply bfs_returns, Hreadable.
  - intros fuel st w e w'. apply bfs_loop_raise_unreadable.
  - intros fuel paper rest found findings w Hdeep.
    cbn [bfs_loop]. unfold bind, bfs_iteration. cbn [fringe found_ids].
    replace (get_path_depth paper >? depth) with true by lia. reflexivity.
  - intros st w st' w' Hit.
    destruct (bfs_iteration_next _ _ _ _ _ _ _ Hit)
      as (paper & rest & citing & referenced & new_papers & sent & sleeps
          & Hfringe & Hshallow & _ & -> & _ & _ & Hnew & _).
    exists paper, rest, new_papers. split; [exact Hfringe|].
    split; [exact Hshallow|]. split; [reflexivity|]. split; [|reflexivity].
    intros p Hp. apply get_path_depth_child. apply (Hnew p Hp).
  - intros fuel. apply bfs_loop_reaches.
  - intros fuel papers w0 st w. apply bfs_end_fringe_checked.
Qed.

(** ** A search with [depth = 0], pass by pass *)



(** ** The number of papers searched *)

Lemma size_list_to_set_le (l : list string) :
  (size (list_to_set l : gset string) <= length l)%nat.
Proof.
  induction l as [|x l IH]; [rewrite list_to_set_nil, size_empty; lia|].
  rewrite list_to_set_cons, size_union_alt, size_singleton. cbn [length].
  pose proof (subseteq_size ((list_to_set l : gset string) ∖ {[x]})
                (list_to_set l)) as Hle.
  assert (size ((list_to_set l : gset string) ∖ {[x]})
          <= size (list_to_set l : gset string))%nat.
  { apply Hle. intros y Hy. apply elem_of_difference in Hy as [Hy _]. exact Hy. }
  lia.
Qed.

(** X10: the number of found ids, which [main] prints as the number of
    papers searched, never exceeds the number of papers put on the fringe,
    and equals it when the seeds have pairwise distinct ids. *)
Theorem bfs_run_found_count (server : nat -> Request -> Response) (depth : Z)
    (roster : list (string * list string)) (papers : list Paper) (w0 : World)
    (enqueued : list Paper) (st : BfsState) (w : World) :
  bfs_run server depth roster papers w0 enqueued st w ->
  (size (found_ids st) <= length enqueued)%nat
  /\ (NoDup (id <$> papers) -> size (found_ids st) = length enqueued).
Proof.
  intros Hrun.
  destruct (bfs_run_visited_ids _ _ _ _ _ _ _ _ Hrun)
    as (Hfound & _ & later & -> & Hnd & Hseeds & _).
  rewrite Hfound. split.
  - etransitivity; [apply size_list_to_set_le|]. rewrite length_fmap. lia.
  - intros Hndseeds. rewrite size_list_to_set, length_fmap; [reflexivity|].
    rewrite fmap_app. apply NoDup_app.
    split; [exact Hndseeds|]. split; [|exact Hnd].
    intros x Hx (p & -> & Hp)%list_elem_of_fmap. exact (Hseeds p Hp Hx).
Qed.

(** ** A search with a negative depth *)

(** X11: with a negative [depth] the search checks the seeds, dequeues the
    first of them and stops there: it sends no request, never sleeps, and
    its findings are those of the seeds. *)
Theorem bfs_negative_depth (server : nat -> Request -> Response) (fuel : nat)
    (depth : Z) (papers : list Paper) (roster : list (string * list string))
    (w0 : World) :
  depth < 0 ->
  bfs server (S fuel) depth papers roster w0
  = (Ok (Some {| fringe := tail papers;
                 found_ids := list_to_set (id <$> papers);
                 findings := (check_papers papers roster ∅).1 |}),
     {| requests := requests w0; slept := slept w0;
        stdout := stdout w0
                  ++ "Beginning BFS..." :: (check_papers papers roster ∅).2 |}).
Proof.
  intros Hneg. unfold bfs. unfold bind at 1. rewrite bfs_init_run.
  cbn [bfs_loop]. unfold bind, bfs_iteration. cbn [fringe found_ids findings].
  destruct papers as [|paper rest]; [reflexivity|].
  pose proof (get_path_depth_nonneg paper).
  replace (get_path_depth paper >? depth) with true by lia. reflexivity.
Qed.

(** ** Provenance links *)

Lemma string_app_assoc (s1 s2 s3 : string) :
  (s1 +:+ s2) +:+ s3 = s1 +:+ (s2 +:+ s3).
Proof.
  induction s1 as [|c s1 IH]; [reflexivity|].
  change (String c ((s1 +:+ s2) +:+ s3) = String c (s1 +:+ (s2 +:+ s3))).
  f_equal. exact IH.
Qed.

(** X12: a record has depth 0 exactly when it carries no provenance link,
    as the seeds do. *)
Theorem get_path_depth_0_iff (p : Paper) :
  get_path_depth p = 0 <-> unparented p.
Proof.
  split; [|apply get_path_depth_unparented].
  destruct p as [i t [a|] [b|]]; cbn [get_path_depth]; intros H.
  - pose proof (get_path_depth_nonneg a). lia.
  - pose proof (get_path_depth_nonneg a). lia.
  - pose proof (get_path_depth_nonneg b). lia.
  - split; reflexivity.
Qed.

(** X13: the cited link has precedence over the referenced-by link: on a
    record that has a cited link, [referenced_by] changes neither the
    depth nor the path string, while [cited] puts a record one level
    below the paper it is linked to whatever link it had. *)
Theorem cited_link_precedence (self parent : Paper) :
  (is_Some (cited_paper self) ->
   get_path_depth (referenced_by self parent) = get_path_depth self
   /\ get_path_string (referenced_by self parent) = get_path_string self)
  /\ get_path_depth (cited self parent) = get_path_depth parent + 1
  /\ get_path_string (cited self parent)
     = dquote +:+ title self +:+ dquote +:+ newline +:+ "    which cited "
       +:+ get_path_string parent.
Proof.
  destruct self as [i t c r]. split; [|split].
  - cbn [cited_paper]. intros [a ->]. split; reflexivity.
  - cbn. lia.
  - cbn [get_path_string cited title id].
    rewrite !string_app_assoc. reflexivity.
Qed.

(** ** Titles and queries *)

Lemma chars_app (s1 s2 : string) : chars (s1 +:+ s2) = chars s1 ++ chars s2.
Proof.
  induction s1 as [|c s1 IH]; [reflexivity|].
  change (c :: chars (s1 +:+ s2) = c :: chars s1 ++ chars s2).
  f_equal. exact IH.
Qed.

Lemma chars_nil_inv (s : string) : chars s = [] -> s = EmptyString.
Proof. destruct s; [reflexivity|discriminate]. Qed.

Lemma elem_of_concat {A : Type} (x : A) (ls : list (list A)) :
  x ∈ concat ls <-> exists l, x ∈ l /\ l ∈ ls.
Proof.
  induction ls as [|l ls IH]; cbn [concat].
  - split; [intros H; inversion H|intros (l & _ & H); inversion H].
  - rewrite elem_of_app, IH. split.
    + intros [H|(l' & Hx & Hl)].
      * exists l. split; [exact H|apply elem_of_cons; left; reflexivity].
      * exists l'. split; [exact Hx|apply elem_of_cons; right; exact Hl].
    + intros (l' & Hx & [->|Hl]%elem_of_cons); [left; exact Hx|].
      right. exists l'. split; assumption.
Qed.

Lemma chars_clean_title (title : string) :
  chars (clean_title title) = filter (fun c => kept c = true) (chars title).
Proof.
  induction title as [|c rest IH]; [reflexivity|].
  cbn [clean_title]. change (chars (String c rest)) with (c :: chars rest).
  rewrite filter_cons. destruct (decide (kept c = true)) as [E|E].
  - rewrite E.
    change (chars (String c (clean_title rest)))
      with (c :: chars (clean_title rest)).
    f_equal. exact IH.
  - apply not_true_iff_false in E. rewrite E. exact IH.
Qed.

Lemma split_go_words (s : string) : forall cur : string,
  Forall (fun c => isspace c = false) (chars cur) ->
  Forall (fun word => word <> EmptyString
                      /\ Forall (fun c => isspace c = false) (chars word))
    (split_go cur s)
  /\ concat (chars <$> split_go cur s)
     = chars cur ++ filter (fun c => isspace c = false) (chars s).
Proof.
  induction s as [|c rest IH]; intros cur Hcur.
  - cbn [split_go]. destruct (decide (cur = EmptyString)) as [->|Hne].
    + split; [constructor|reflexivity].
    + split; [repeat constructor; assumption|].
      cbn. rewrite !app_nil_r. reflexivity.
  - cbn [split_go]. change (chars (String c rest)) with (c :: chars rest).
    rewrite filter_cons.
    destruct (decide (isspace c = false)) as [E|E]; cycle 1.
    + apply not_false_iff_true in E. rewrite E.
      destruct (IH EmptyString (Forall_nil_2 _)) as [Hwords Hconcat].
      destruct (decide (cur = EmptyString)) as [->|Hne].
      * split; [exact Hwords|exact Hconcat].
      * split; [constructor; [split; assumption|exact Hwords]|].
        rewrite fmap_cons. cbn [concat]. rewrite Hconcat. reflexivity.
    + rewrite E.
      destruct (IH (cur +:+ String c EmptyString)) as [Hwords Hconcat].
      * rewrite chars_app. apply Forall_app. split; [exact Hcur|].
        repeat constructor. exact E.
      * split; [exact Hwords|]. rewrite Hconcat, chars_app, <- app_assoc.
        reflexivity.
Qed.

Lemma kept_alnum (c : ascii) :
  kept c = true -> isspace c = false -> alnum c = true.
Proof.
  unfold kept, isspace, alnum. cbv zeta. generalize (nat_of_ascii c) as n.
  intros n Hkept Hspace. apply not_true_iff_false in Hspace.
  rewrite ?orb_true_iff, ?andb_true_iff, ?Nat.leb_le, ?Nat.eqb_eq in *. lia.
Qed.

Lemma alnum_kept (c : ascii) :
  alnum c = true -> kept c = true /\ isspace c = false.
Proof.
  unfold kept, isspace, alnum. cbv zeta. generalize (nat_of_ascii c) as n.
  intros n Halnum. rewrite <- not_true_iff_false.
  rewrite ?orb_true_iff, ?andb_true_iff, ?Nat.leb_le, ?Nat.eqb_eq in *. lia.
Qed.

Lemma split_clean_title_words_aux (title : string) :
  Forall (fun word => word <> EmptyString
                      /\ Forall (fun c => alnum c = true) (chars word))
    (split (clean_title title))
  /\ concat (chars <$> split (clean_title title))
     = filter (fun c => alnum c = true) (chars title).
Proof.
  destruct (split_go_words (clean_title title) EmptyString (Forall_nil_2 _))
    as [Hwords Hconcat].
  fold (split (clean_title title)) in Hwords, Hconcat.
  rewrite chars_clean_title, list_filter_filter in Hconcat. cbn [app chars] in Hconcat.
  assert (Hfilter : filter (fun c => isspace c = false /\ kept c = true)
                      (chars title)
                    = filter (fun c => alnum c = true) (chars title)).
  { apply list_filter_iff. intros c. split.
    - intros [Hs Hk]. apply kept_alnum; assumption.
    - intros Ha. destruct (alnum_kept c Ha). split; assumption. }
  change (chars EmptyString) with (@nil ascii) in Hconcat.
  cbn [app] in Hconcat. rewrite Hfilter in Hconcat.
  assert (Halnum : Forall (fun word => word <> EmptyString
                      /\ Forall (fun c => alnum c = true) (chars word))
                     (split (clean_title title))).
  { apply Forall_forall. intros word Hword.
    destruct (proj1 (Forall_forall _ _) Hwords word Hword) as [Hne Hns].
    split; [exact Hne|]. apply Forall_forall. intros c Hc.
    assert (Hin : c ∈ concat (chars <$> split (clean_title title))).
    { apply elem_of_concat. exists (chars word). split; [exact Hc|].
      apply list_elem_of_fmap. exists word. split; [reflexivity|exact Hword]. }
    rewrite Hconcat in Hin. apply list_elem_of_filter in Hin as [Ha _]. exact Ha. }
  split; [exact Halnum|exact Hconcat].
Qed.

(** X14: the words of a cleaned title are not empty and consist of ASCII
    letters and digits only, and put one after the other they are the
    letters and digits of the title in their order; so the query is empty
    exactly when the title has no letter or digit. *)
Theorem split_clean_title_words (title : string) :
  Forall (fun word => word <> EmptyString
                      /\ Forall (fun c => alnum c = true) (chars word))
    (split (clean_title title))
  /\ concat (chars <$> split (clean_title title))
     = filter (fun c => alnum c = true) (chars title)
  /\ (query_of_title title = EmptyString
      <-> Forall (fun c => alnum c = false) (chars title)).
Proof.
  destruct (split_clean_title_words_aux title) as [Halnum Hconcat].
  split; [exact Halnum|]. split; [exact Hconcat|].
  unfold query_of_title. cbv zeta.
  destruct (split (clean_title title)) as [|word rest] eqn:Hsplit.
  - cbn [join]. split; [intros _|reflexivity].
    cbn in Hconcat. apply Forall_forall. intros c Hc.
    destruct (alnum c) eqn:Ha; [|reflexivity].
    assert (Hin : c ∈ filter (fun c => alnum c = true) (chars title))
      by (apply list_elem_of_filter; split; assumption).
    rewrite <- Hconcat in Hin. inversion Hin.
  - apply Forall_cons in Halnum as [[Hne Hw] _]. split.
    + intros Hempty. exfalso. apply Hne.
      destruct rest; cbn [join] in Hempty; [exact Hempty|].
      destruct word; [reflexivity|discriminate Hempty].
    + intros Hnone. exfalso. apply Hne, chars_nil_inv.
      destruct (chars word) as [|c cs] eqn:Hcs; [reflexivity|].
      assert (Hin : c ∈ filter (fun c => alnum c = true) (chars title)).
      { rewrite <- Hconcat, fmap_cons. cbn [concat]. rewrite Hcs.
        apply elem_of_cons. left. reflexivity. }
      apply list_elem_of_filter in Hin as [Ha Hc].
      rewrite (proj1 (Forall_forall _ _) Hnone c Hc) in Ha. discriminate Ha.
Qed.

Lemma chars_join (sep : string) (words : list string) (c : ascii) :
  c ∈ chars (join sep words) ->
  c ∈ chars sep \/ exists word, word ∈ words /\ c ∈ chars word.
Proof.
  induction words as [|word rest IH]; [intros H; inversion H|].
  destruct rest as [|word' rest].
  - cbn [join]. intros Hc. right. exists word.
    split; [apply elem_of_cons; left; reflexivity|exact Hc].
  - change (join sep (word :: word' :: rest))
      with (word +:+ sep +:+ join sep (word' :: rest)).
    rewrite !chars_app, !elem_of_app. intros [Hc|[Hc|Hc]].
    + right. exists word. split; [apply elem_of_cons; left; reflexivity|exact Hc].
    + left. exact Hc.
    + destruct (IH Hc) as [Hsep|(w & Hw & Hcw)]; [left; exact Hsep|].
      right. exists w. split; [apply elem_of_cons; right; exact Hw|exact Hcw].
Qed.

(** X15: every character of the query sent for a title is an ASCII letter,
    a digit or the plus sign that separates two words; nothing else of
    the title reaches the URL. *)
Theorem query_of_title_chars (title : string) :
  Forall (fun c => alnum c = true \/ c = "+"%char)
    (chars (query_of_title title)).
Proof.
  apply Forall_forall. intros c Hc. unfold query_of_title in Hc. cbv zeta in Hc.
  destruct (chars_join "+" _ c Hc) as [Hsep|(word & Hword & Hcw)].
  - right. apply elem_of_cons in Hsep as [->|Hsep]; [reflexivity|inversion Hsep].
  - left. destruct (split_clean_title_words_aux title) as [Hwords _].
    destruct (proj1 (Forall_forall _ _) Hwords word Hword) as [_ Hall].
    exact (proj1 (Forall_forall _ _) Hall c Hcw).
Qed.

(** ** Resolving the bibliography *)

Lemma get_papers_on_s2_loop_runs (server : nat -> Request -> Response)
    (search_data : Response -> option (list PaperRef)) (titles : list string) :
  forall (papers : list Paper) (w : World),
  exists (added : list Paper) (sent : list Request) (sleeps : list Z)
         (lines : list string),
    get_papers_on_s2_loop server search_data titles papers w
    = (Ok (papers ++ added),
       {| requests := requests w ++ sent; slept := slept w ++ sleeps;
          stdout := stdout w ++ lines |})
    /\ (length added <= length titles)%nat
    /\ (forall p, p ∈ added -> unparented p)
    /\ (length titles <= length sent <= 4 * length titles)%nat
    /\ (forall rq, rq ∈ sent ->
          exists title,
            title ∈ titles /\ rq = Get (search_url (query_of_title title)))
    /\ total sleeps <= 15 * Z.of_nat (length titles)
    /\ (length lines <= length titles)%nat.
Proof.
  induction titles as [|title rest IH]; intros papers w.
  - exists [], [], [], []. cbn [get_papers_on_s2_loop]. unfold ret.
    rewrite !app_nil_r. split; [destruct w; reflexivity|].
    split; [reflexivity|]. split; [intros p Hp; inversion Hp|].
    split; [cbn; lia|]. split; [intros rq Hrq; inversion Hrq|].
    split; [cbn; lia|reflexivity].
  - cbn [get_papers_on_s2_loop]. cbv zeta.
    unfold request_with_retries. change (Z.to_nat 4) with 4%nat.
    destruct (retry_loop_bounded server (search_url (query_of_title title))
                3 1 None w)
      as (r & n & k & Hrun & Hn & Hk & _).
    unfold bind at 1. rewrite Hrun.
    set (w1 := after_attempts (search_url (query_of_title title)) w (S n)
                 (backoff_from 1 k)).
    assert (Hsleep : total (backoff_from 1 k) <= 15).
    { rewrite total_backoff_from.
      assert (2 ^ Z.of_nat k <= 2 ^ 4) by (apply Z.pow_le_mono_r; lia). lia. }
    assert (Hstep : forall (papers' : list Paper) (extra : list Paper)
                      (out : list string) (w2 : World),
               papers' = papers ++ extra -> (length extra <= 1)%nat ->
               (forall p, p ∈ extra -> unparented p) ->
               (length out <= 1)%nat ->
               w2 = {| requests := requests w1; slept := slept w1;
                       stdout := stdout w1 ++ out |} ->
               exists added sent sleeps lines,
                 get_papers_on_s2_loop server search_data rest papers' w2
                 = (Ok (papers ++ added),
                    {| requests := requests w ++ sent;
                       slept := slept w ++ sleeps;
                       stdout := stdout w ++ lines |})
                 /\ (length added <= length (title :: rest))%nat
                 /\ (forall p, p ∈ added -> unparented p)
                 /\ (length (title :: rest) <= length sent
                     <= 4 * length (title :: rest))%nat
                 /\ (forall rq, rq ∈ sent ->
                       exists t, t ∈ title :: rest
                                 /\ rq = Get (search_url (query_of_title t)))
                 /\ total sleeps <= 15 * Z.of_nat (length (title :: rest))
                 /\ (length lines <= length (title :: rest))%nat).
    { intros papers' extra out w2 -> Hextra Hunp Hout ->.
      destruct (IH (papers ++ extra)
                  {| requests := requests w1; slept := slept w1;
                     stdout := stdout w1 ++ out |})
        as (added & sent & sleeps & lines & -> & Hlen & Hadded & Hsent & Hreq
            & Htotal & Hlines).
      exists (extra ++ added),
             (replicate (S n) (Get (search_url (query_of_title title))) ++ sent),
             (backoff_from 1 k ++ sleeps), (out ++ lines).
      unfold w1, after_attempts. cbn [requests slept stdout length].
      rewrite <- !app_assoc. split; [reflexivity|].
      rewrite !length_app, length_replicate, total_app.
      split; [lia|]. split.
      { intros p [Hp|Hp]%elem_of_app; [apply Hunp, Hp|apply Hadded, Hp]. }
      split; [lia|]. split.
      { intros rq [Hrq|Hrq]%elem_of_app.
        - apply elem_of_replicate_inv in Hrq. exists title.
          split; [apply elem_of_cons; left; reflexivity|exact Hrq].
        - destruct (Hreq rq Hrq) as (t & Ht & ->). exists t.
          split; [apply elem_of_cons; right; exact Ht|reflexivity]. }
      split; [lia|lia]. }
    destruct (status_code r =? 200).
    + destruct (search_data r) as [[|first others]|].
      * apply (Hstep papers [] []); [rewrite app_nil_r; reflexivity|cbn; lia| |cbn; lia|].
        -- intros p Hp. inversion Hp.
        -- rewrite app_nil_r. destruct w1; reflexivity.
      * apply (Hstep _ [new_Paper (paperId first) (ref_title first)] []);
          [reflexivity|cbn; lia| |cbn; lia|].
        -- intros p Hp. apply elem_of_cons in Hp as [->|Hp]; [|inversion Hp].
           split; reflexivity.
        -- rewrite app_nil_r. destruct w1; reflexivity.
      * apply (Hstep papers [] []); [rewrite app_nil_r; reflexivity|cbn; lia| |cbn; lia|].
        -- intros p Hp. inversion Hp.
        -- rewrite app_nil_r. destruct w1; reflexivity.
    + unfold bind at 1. unfold print at 1.
      apply (Hstep papers [] ["HTTP error " +:+ pretty (status_code r)]);
        [rewrite app_nil_r; reflexivity|cbn; lia| |cbn; lia|reflexivity].
      intros p Hp. inversion Hp.
Qed.


Lemma get_papers_on_s2_loop_trace (server : nat -> Request -> Response)
    (search_data : Response -> option (list PaperRef)) (titles : list string) :
  forall (papers : list Paper) (w : World),
  exists traces : list Trace,
    (get_papers_on_s2_loop server search_data titles papers w).2
    = foldl after_trace w traces
    /\ Forall2 title_trace titles traces.
Proof.
  induction titles as [|title rest IH]; intros papers w.
  - exists []. split; [reflexivity|constructor].
  - cbn [get_papers_on_s2_loop]. cbv zeta.
    unfold request_with_retries. change (Z.to_nat 4) with 4%nat.
    destruct (retry_loop_bounded server (search_url (query_of_title title))
                3 1 None w)
      as (r & n & k & Hrun & Hn & Hk & _).
    unfold bind at 1. rewrite Hrun.
    set (w1 := after_attempts (search_url (query_of_title title)) w (S n)
                 (backoff_from 1 k)).
    assert (Hstep : forall (papers' : list Paper) (out : list string),
               (length out <= 1)%nat ->
               exists traces,
                 (get_papers_on_s2_loop server search_data rest papers'
                    {| requests := requests w1; slept := slept w1;
                       stdout := stdout w1 ++ out |}).2
                 = foldl after_trace w traces
                 /\ Forall2 title_trace (title :: rest) traces).
    { intros papers' out Hout.
      destruct (IH papers' {| requests := requests w1; slept := slept w1;
                              stdout := stdout w1 ++ out |})
        as (traces & Hworld & Hall).
      exists ({| trace_requests :=
                   replicate (S n) (Get (search_url (query_of_title title)));
                 trace_slept := backoff_from 1 k;
                 trace_stdout := out |} :: traces).
      split; [rewrite Hworld; reflexivity|]. constructor; [|exact Hall].
      unfold title_trace. cbn [trace_requests trace_slept trace_stdout].
      split; [exists (S n); split; [lia|reflexivity]|].
      split; [|split; [|exact Hout]].
      - rewrite length_replicate, backoff_from_1. unfold doubling.
        rewrite length_map, length_seq. exact Hk.
      - rewrite total_backoff_from.
        assert (2 ^ Z.of_nat k <= 2 ^ 4) by (apply Z.pow_le_mono_r; lia).
        lia. }
    assert (Hw1 : w1 = {| requests := requests w1; slept := slept w1;
                          stdout := stdout w1 ++ [] |}).
    { rewrite app_nil_r. destruct w1; reflexivity. }
    destruct (status_code r =? 200).
    + destruct (search_data r) as [[|first others]|]; rewrite Hw1;
        apply Hstep; cbn; lia.
    + unfold bind at 1. unfold print at 1. apply Hstep. cbn. lia.
Qed.

(** X17: [get_papers_on_s2] takes the titles one after the other, and for
    each of them it sends at least one and at most four requests, all
    [GET]s of the search URL of that title's query, sleeps at most once
    per request and at most 15 time units, and prints at most one line. *)
Theorem get_papers_on_s2_requests (server : nat -> Request -> Response)
    (search_data : Response -> option (list PaperRef)) (titles : list string)
    (w : World) :
  exists traces : list Trace,
    (get_papers_on_s2 server search_data titles w).2
    = foldl after_trace w traces
    /\ Forall2 title_trace titles traces.
Proof. apply get_papers_on_s2_loop_trace. Qed.

(** ** Reading the bibliography *)

(** X18: [fetch_citation_titles] returns the titles of the entries, one
    for each entry and in their order, when every entry has a title, and
    fails with [KeyError('title')] as soon as one entry has none. *)
Theorem fetch_citation_titles_returns (entries : list (gmap string string)) :
  (Forall (fun entry => is_Some (entry !! "title")) entries ->
   exists titles,
     fetch_citation_titles entries = Returns titles
     /\ Some <$> titles = (fun entry => entry !! "title") <$> entries)
  /\ (Exists (fun entry => entry !! "title" = None) entries ->
      fetch_citation_titles entries = Raises (KeyError "title")).
Proof.
  induction entries as [|entry rest [IHall IHsome]].
  - split.
    + intros _. exists []. split; reflexivity.
    + intros H. inversion H.
  - split.
    + intros [[title Htitle] Hrest]%Forall_cons.
      destruct (IHall Hrest) as (titles & Hrun & Htitles).
      exists (title :: titles). cbn [fetch_citation_titles].
      rewrite Htitle, Hrun. split; [reflexivity|].
      rewrite !fmap_cons, Htitle, Htitles. reflexivity.
    + intros Hex. cbn [fetch_citation_titles].
      destruct (entry !! "title") as [title|] eqn:Htitle; [|reflexivity].
      apply Exists_cons in Hex as [Hnone|Hex]; [congruence|].
      rewrite (IHsome Hex). reflexivity.
Qed.

(** ** The identifier of a publication *)

Lemma string_app_nil_r (s : string) : s +:+ EmptyString = s.
Proof.
  induction s as [|c s IH]; [reflexivity|].
  change (String c (s +:+ EmptyString) = String c s). f_equal. exact IH.
Qed.

Lemma split_sep_go_cons (sep : string) (s : string) :
  forall (skip : nat) (cur : string),
  exists piece pieces, split_sep_go sep skip cur s = piece :: pieces.
Proof.
  induction s as [|c rest IH]; intros skip cur; [cbn; eauto|].
  cbn [split_sep_go]. destruct skip as [|skip]; [|apply IH].
  destruct (String.prefix sep (String c rest)); [eauto|apply IH].
Qed.

Lemma prefix_nil (s : string) : String.prefix EmptyString s = true.
Proof. destruct s; reflexivity. Qed.

Lemma prefix_single (c x : ascii) (rest : string) :
  String.prefix (String c EmptyString) (String x rest)
  = bool_decide (c = x).
Proof.
  cbn [String.prefix]. destruct (ascii_dec c x) as [->|Hne].
  - rewrite bool_decide_eq_true_2 by reflexivity. apply prefix_nil.
  - rewrite bool_decide_eq_false_2 by exact Hne. reflexivity.
Qed.

(** The last piece of a split by a single character has no such
    character and ends the string. *)
Lemma split_single_last (c : ascii) (s : string) : forall cur : string,
  c ∉ chars cur ->
  exists piece,
    last (split_sep_go (String c EmptyString) 0 cur s) = Some piece
    /\ (c ∉ chars piece)
    /\ (cur +:+ s = piece
        \/ exists front, cur +:+ s = front +:+ String c EmptyString +:+ piece).
Proof.
  induction s as [|x rest IH]; intros cur Hcur.
  - exists cur. cbn. rewrite string_app_nil_r. auto.
  - cbn [split_sep_go]. rewrite prefix_single.
    destruct (decide (c = x)) as [<-|Hne].
    + rewrite bool_decide_eq_true_2 by reflexivity.
      change (String.length (String c EmptyString) - 1)%nat with 0%nat.
      destruct (IH EmptyString) as (piece & Hlast & Hpiece & Hshape).
      { intros H. inversion H. }
      exists piece.
      destruct (split_sep_go_cons (String c EmptyString) rest 0 EmptyString)
        as (p & ps & Hgo).
      rewrite Hgo in Hlast |- *. rewrite last_cons, Hlast.
      split; [reflexivity|]. split; [exact Hpiece|]. right.
      change (EmptyString +:+ rest) with rest in Hshape.
      destruct Hshape as [Heq|(front & Heq)].
      * exists cur. rewrite <- Heq. reflexivity.
      * exists (cur +:+ String c EmptyString +:+ front).
        rewrite Heq, !string_app_assoc. reflexivity.
    + rewrite bool_decide_eq_false_2 by exact Hne.
      destruct (IH (cur +:+ String x EmptyString)) as (piece & Hlast & Hpiece
                                                       & Hshape).
      { rewrite chars_app. intros [H|H]%elem_of_app; [exact (Hcur H)|].
        apply elem_of_cons in H as [->|H]; [exact (Hne eq_refl)|inversion H]. }
      exists piece. split; [exact Hlast|]. split; [exact Hpiece|].
      rewrite string_app_assoc in Hshape. exact Hshape.
Qed.

(** X19: for a text that contains [arxiv.org], the identifier is [ARXIV:]
    followed by what comes after the last slash of the text, or by the
    whole text when it has no slash; no exception is raised. *)
Theorem publication_id_arxiv (text : string) :
  contains "arxiv.org" text = true ->
  exists arxiv_id,
    publication_id (Some text) = Returns (Some ("ARXIV:" +:+ arxiv_id))
    /\ ("/"%char ∉ chars arxiv_id)
    /\ (text = arxiv_id \/ exists front, text = front +:+ "/" +:+ arxiv_id).
Proof.
  intros Harxiv. unfold publication_id. rewrite Harxiv.
  destruct (split_single_last "/" text EmptyString)
    as (piece & Hlast & Hpiece & Hshape).
  { intros H. inversion H. }
  exists piece. unfold split_sep. rewrite Hlast.
  split; [reflexivity|]. split; [exact Hpiece|exact Hshape].
Qed.

Lemma prefix_app_l (sub x s : string) :
  String.prefix (sub +:+ x) s = true -> String.prefix sub s = true.
Proof.
  revert s. induction sub as [|c sub IH]; intros s; [intros _; apply prefix_nil|].
  change (String c sub +:+ x) with (String c (sub +:+ x)).
  destruct s as [|d s]; [intros H; discriminate H|].
  cbn [String.prefix]. destruct (ascii_dec c d); [apply IH|intros H; discriminate H].
Qed.

Lemma contains_app_l (sub x s : string) :
  contains (sub +:+ x) s = true -> contains sub s = true.
Proof.
  induction s as [|c s IH]; cbn [contains]; rewrite !orb_true_iff.
  - intros [H|H]; [left; exact (prefix_app_l _ _ _ H)|discriminate].
  - intros [H|H]; [left; exact (prefix_app_l _ _ _ H)|right; exact (IH H)].
Qed.

Lemma split_sep_go_second (sep : string) (s : string) :
  sep <> EmptyString ->
  forall cur : string,
    is_Some (split_sep_go sep 0 cur s !! 1%nat) <-> contains sep s = true.
Proof.
  intros Hsep. induction s as [|c rest IH]; intros cur.
  - cbn. destruct sep; [contradiction|]. cbn.
    split; [intros [x Hx]; discriminate|discriminate].
  - cbn [split_sep_go contains].
    destruct (String.prefix sep (String c rest)) eqn:Hprefix.
    + destruct (split_sep_go_cons sep rest (String.length sep - 1) EmptyString)
        as (p & ps & ->).
      cbn. split; [reflexivity|eauto].
    + cbn [orb]. apply IH.
Qed.

(** X20: for a text without [arxiv.org], the identifier is [None] when the
    text has no [doi.org]; it is a [DOI:] identifier when the text has
    [doi.org/]; and the function fails with an [IndexError] exactly when
    the text has [doi.org] but no [doi.org/]. *)
Theorem publication_id_doi_cases (text : string) :
  contains "arxiv.org" text = false ->
  (contains "doi.org" text = false -> publication_id (Some text) = Returns None)
  /\ (contains "doi.org/" text = true ->
      exists doi_id,
        publication_id (Some text) = Returns (Some ("DOI:" +:+ doi_id)))
  /\ (publication_id (Some text) = Raises IndexError
      <-> contains "doi.org" text = true /\ contains "doi.org/" text = false).
Proof.
  intros Harxiv. unfold publication_id. rewrite Harxiv.
  pose proof (split_sep_go_second "doi.org/" text ltac:(discriminate)
                EmptyString) as Hsecond.
  fold (split_sep "doi.org/" text) in Hsecond.
  split; [intros ->; reflexivity|]. split.
  - intros Hslash.
    rewrite (contains_app_l "doi.org" "/" text Hslash).
    destruct (proj2 Hsecond Hslash) as [doi_id ->]. eauto.
  - destruct (contains "doi.org" text) eqn:Hdoi.
    + destruct (split_sep "doi.org/" text !! 1%nat) as [doi_id|] eqn:Hget.
      * split; [discriminate|]. intros [_ Hno].
        rewrite (proj1 Hsecond (ex_intro _ doi_id eq_refl)) in Hno.
        discriminate Hno.
      * split; [|reflexivity]. intros _. split; [reflexivity|].
        destruct (contains "doi.org/" text) eqn:Hslash; [|reflexivity].
        destruct (proj2 Hsecond eq_refl) as [x Hx]. discriminate Hx.
    + split; [discriminate|]. intros [H _]. discriminate H.
Qed.

Lemma prefix_app_self (sep d : string) : String.prefix sep (sep +:+ d) = true.
Proof.
  induction sep as [|c sep IH]; [apply prefix_nil|].
  change (String c sep +:+ d) with (String c (sep +:+ d)).
  cbn [String.prefix]. destruct (ascii_dec c c); [exact IH|contradiction].
Qed.

Lemma string_length_app (s1 s2 : string) :
  String.length (s1 +:+ s2) = (String.length s1 + String.length s2)%nat.
Proof.
  induction s1 as [|c s1 IH]; [reflexivity|].
  change (String c s1 +:+ s2) with (String c (s1 +:+ s2)).
  cbn [String.length]. rewrite IH. reflexivity.
Qed.

(** Whether a string starts with [sep] is decided by its first
    [length sep] characters. *)
Lemma prefix_long (sep : string) : forall u v : string,
  (String.length sep <= String.length u)%nat ->
  String.prefix sep (u +:+ v) = String.prefix sep u.
Proof.
  induction sep as [|c sep IH]; intros u v Hlen.
  - rewrite !prefix_nil. reflexivity.
  - destruct u as [|d u]; [cbn in Hlen; lia|].
    change (String d u +:+ v) with (String d (u +:+ v)).
    cbn [String.prefix]. destruct (ascii_dec c d); [|reflexivity].
    apply IH. cbn [String.length] in Hlen. lia.
Qed.

Lemma split_sep_go_skip (sep : string) (u : string) :
  forall (cur s : string),
    split_sep_go sep (String.length u) cur (u +:+ s)
    = split_sep_go sep 0 cur s.
Proof.
  induction u as [|c u IH]; intros cur s; [destruct s; reflexivity|].
  change (String c u +:+ s) with (String c (u +:+ s)).
  cbn [String.length split_sep_go]. apply IH.
Qed.

(** Characters in front of the first occurrence of [sep] go to the piece
    that is being read. *)
Lemma split_sep_go_before (sep : string) (a : string) :
  forall (cur rest : string),
    (forall a1 a2,
        a = a1 +:+ a2 -> a2 <> EmptyString ->
        String.prefix sep (a2 +:+ rest) = false) ->
    split_sep_go sep 0 cur (a +:+ rest)
    = split_sep_go sep 0 (cur +:+ a) rest.
Proof.
  induction a as [|c a IH]; intros cur rest Hfirst.
  - rewrite string_app_nil_r. reflexivity.
  - change (String c a +:+ rest) with (String c (a +:+ rest)).
    cbn [split_sep_go].
    change (String c (a +:+ rest)) with (String c a +:+ rest).
    rewrite (Hfirst EmptyString (String c a) eq_refl) by discriminate.
    rewrite IH.
    + rewrite string_app_assoc. reflexivity.
    + intros a1 a2 -> Hne. apply (Hfirst (String c a1) a2); [reflexivity|exact Hne].
Qed.

Lemma split_sep_go_free (sep : string) (d : string) :
  contains sep d = false ->
  forall cur : string, split_sep_go sep 0 cur d = [cur +:+ d].
Proof.
  induction d as [|c d IH]; intros Hfree cur.
  - cbn. rewrite string_app_nil_r. reflexivity.
  - cbn [contains] in Hfree. apply orb_false_iff in Hfree as [Hprefix Hrest].
    cbn [split_sep_go]. rewrite Hprefix, (IH Hrest), string_app_assoc.
    reflexivity.
Qed.

Lemma contains_app_r (sub a s : string) :
  contains sub (a +:+ s) = false -> contains sub s = false.
Proof.
  induction a as [|c a IH]; [intros H; exact H|].
  change (String c a +:+ s) with (String c (a +:+ s)).
  cbn [contains]. intros [_ H]%orb_false_iff. exact (IH H).
Qed.

Lemma contains_prefix (sub s : string) :
  contains sub s = false -> String.prefix sub s = false.
Proof. destruct s; cbn [contains]; intros [H _]%orb_false_iff; exact H. Qed.

Lemma contains_of_prefix (sub s : string) :
  String.prefix sub s = true -> contains sub s = true.
Proof. intros H. destruct s; cbn [contains]; rewrite H; reflexivity. Qed.

Lemma contains_app_front (sub a s : string) :
  contains sub s = true -> contains sub (a +:+ s) = true.
Proof.
  intros H. induction a as [|c a IH]; [exact H|].
  change (String c a +:+ s) with (String c (a +:+ s)).
  cbn [contains]. rewrite IH. apply orb_true_r.
Qed.

(** X21: for a text without [arxiv.org] in which the first [doi.org/] is
    followed by a string without [doi.org/], the identifier is [DOI:]
    followed by that string, slashes included. *)
Theorem publication_id_doi (front doi_id : string) :
  contains "arxiv.org" (front +:+ "doi.org/" +:+ doi_id) = false ->
  contains "doi.org/" (front +:+ "doi.org") = false ->
  contains "doi.org/" doi_id = false ->
  publication_id (Some (front +:+ "doi.org/" +:+ doi_id))
  = Returns (Some ("DOI:" +:+ doi_id)).
Proof.
  intros Harxiv Hfirst Hfree. unfold publication_id. rewrite Harxiv.
  assert (Hdoi : contains "doi.org" (front +:+ "doi.org/" +:+ doi_id) = true).
  { apply contains_app_front.
    change ("doi.org/" +:+ doi_id) with ("doi.org" +:+ ("/" +:+ doi_id)).
    apply contains_of_prefix, prefix_app_self. }
  rewrite Hdoi. unfold split_sep.
  rewrite split_sep_go_before.
  - change ("doi.org/" +:+ doi_id) with (String "d" ("oi.org/" +:+ doi_id)).
    cbn [split_sep_go].
    change (String "d" ("oi.org/" +:+ doi_id)) with ("doi.org/" +:+ doi_id).
    rewrite prefix_app_self.
    change (String.length "doi.org/" - 1)%nat with (String.length "oi.org/").
    rewrite split_sep_go_skip, (split_sep_go_free _ _ Hfree). reflexivity.
  - intros a1 a2 -> Hne.
    rewrite string_app_assoc in Hfirst. apply contains_app_r in Hfirst.
    apply contains_prefix in Hfirst.
    change (a2 +:+ "doi.org/" +:+ doi_id)
      with (a2 +:+ ("doi.org" +:+ ("/" +:+ doi_id))).
    rewrite <- string_app_assoc, prefix_long; [exact Hfirst|].
    rewrite string_length_app. destruct a2; [contradiction|].
    cbn [String.length]. lia.
Qed.

(** ** Building the roster *)

Lemma batch_retry_loop_runs (server : nat -> Request -> Response)
    (arxiv_ids : list string) (fuel : nat) :
  forall (wait_time : Z) (r : Response) (w : World),
    1 <= wait_time ->
    10 < wait_time * 2 ^ Z.of_nat (S fuel) ->
    exists (r' : Response) (retries : nat),
      batch_retry_loop server (S fuel) arxiv_ids wait_time r w
      = (Ok (Some r'),
         {| requests := requests w
                        ++ replicate retries (Post batch_url "title" arxiv_ids);
            slept := slept w ++ backoff_from wait_time retries;
            stdout := stdout w |})
      /\ (retries <= S fuel)%nat
      /\ (retries = 0%nat
          \/ wait_time * 2 ^ Z.of_nat (retries - 1) <= Z.max wait_time 10).
Proof.
  induction fuel as [|fuel IH]; intros wait_time r w Hpos Hfuel;
    rewrite batch_retry_loop_step; destruct (status_code r =? 429).
  - replace (wait_time * 2 >? 10) with true
      by (change (2 ^ Z.of_nat 1) with 2 in Hfuel; lia).
    exists (server (length (requests w)) (Post batch_url "title" arxiv_ids)),
           1%nat.
    split; [reflexivity|]. split; [lia|]. right. cbn. lia.
  - exists r, 0%nat. cbn [replicate backoff_from]. rewrite !app_nil_r.
    split; [destruct w; reflexivity|]. split; [lia|]. left. reflexivity.
  - destruct (wait_time * 2 >? 10) eqn:Hnext.
    + exists (server (length (requests w)) (Post batch_url "title" arxiv_ids)),
             1%nat.
      split; [reflexivity|]. split; [lia|]. right. cbn. lia.
    + destruct (IH (wait_time * 2)
                  (server (length (requests w))
                     (Post batch_url "title" arxiv_ids))
                  (lookup_sent w arxiv_ids wait_time))
        as (r' & retries & Hrun & Hretries & Hlast).
      * lia.
      * rewrite Nat2Z.inj_succ, Z.pow_succ_r in Hfuel by lia. lia.
      * exists r', (S retries). rewrite Hrun. unfold lookup_sent.
        cbn [requests slept stdout replicate backoff_from].
        rewrite <- !app_assoc. split; [reflexivity|]. split; [lia|]. right.
        destruct Hlast as [->|Hlast]; [cbn; lia|].
        destruct retries as [|retries]; [cbn; lia|].
        replace (S (S retries) - 1)%nat with (S retries) by lia.
        replace (S retries - 1)%nat with retries in Hlast by lia.
        rewrite Nat2Z.inj_succ, Z.pow_succ_r by lia. lia.
  - exists r, 0%nat. cbn [replicate backoff_from]. rewrite !app_nil_r.
    split; [destruct w; reflexivity|]. split; [lia|]. left. reflexivity.
Qed.

(** The batch lookup ends when it has fuel for four retries: it sends the
    first request and at most four more and sleeps at most 15. *)
Lemma batch_lookup_runs (server : nat -> Request -> Response) (fuel : nat)
    (arxiv_ids : list string) (w : World) :
  (4 <= fuel)%nat ->
  exists (r : Response) (sent : list Request) (sleeps : list Z),
    batch_lookup server fuel arxiv_ids w
    = (Ok (Some r),
       {| requests := requests w ++ sent; slept := slept w ++ sleeps;
          stdout := stdout w |})
    /\ (1 <= length sent <= 5)%nat
    /\ (forall rq, rq ∈ sent -> exists fields, rq = Post batch_url fields arxiv_ids)
    /\ total sleeps <= 15.
Proof.
  intros Hfuel. destruct fuel as [|fuel]; [lia|].
  unfold batch_lookup. unfold bind at 1. unfold send at 1.
  destruct (batch_retry_loop_runs server arxiv_ids fuel 1
              (server (length (requests w))
                 (Post batch_url "title,paperId" arxiv_ids))
              {| requests := requests w
                             ++ [Post batch_url "title,paperId" arxiv_ids];
                 slept := slept w; stdout := stdout w |})
    as (r & retries & Hrun & _ & Hlast).
  - lia.
  - assert (2 ^ 4 <= 2 ^ Z.of_nat (S fuel)) by (apply Z.pow_le_mono_r; lia).
    lia.
  - assert (Hretries : (retries <= 4)%nat).
    { destruct Hlast as [->|Hlast]; [lia|].
      destruct (le_lt_dec retries 4) as [Hle|Hgt]; [exact Hle|].
      assert (2 ^ 4 <= 2 ^ Z.of_nat (retries - 1))
        by (apply Z.pow_le_mono_r; lia).
      lia. }
    exists r, (Post batch_url "title,paperId" arxiv_ids
               :: replicate retries (Post batch_url "title" arxiv_ids)),
           (backoff_from 1 retries).
    rewrite Hrun. cbn [requests slept stdout]. rewrite <- app_assoc.
    split; [reflexivity|]. cbn [length]. rewrite length_replicate.
    split; [lia|]. split.
    + intros rq [->|Hrq]%elem_of_cons; [eauto|].
      apply elem_of_replicate_inv in Hrq. eauto.
    + rewrite total_backoff_from.
      assert (2 ^ Z.of_nat retries <= 2 ^ 4) by (apply Z.pow_le_mono_r; lia).
      lia.
Qed.

Lemma dict_set_keys (key : string) (value : list string)
    (items : list (string * list string)) :
  (dict_set key value items).*1
  = if decide (key ∈ items.*1) then items.*1 else items.*1 ++ [key].
Proof.
  induction items as [|[k v] rest IH]; [reflexivity|].
  cbn [dict_set]. destruct (decide (k = key)) as [->|Hne].
  - rewrite !fmap_cons. cbn [fst].
    rewrite decide_True by (apply elem_of_cons; left; reflexivity).
    reflexivity.
  - rewrite !fmap_cons. cbn [fst]. rewrite IH.
    destruct (decide (key ∈ rest.*1)) as [Hin|Hnot].
    + rewrite decide_True by (apply elem_of_cons; right; exact Hin).
      reflexivity.
    + rewrite decide_False; [reflexivity|].
      intros [Heq|Hin]%elem_of_cons; [exact (Hne (eq_sym Heq))|exact (Hnot Hin)].
Qed.

Lemma dict_set_NoDup (key : string) (value : list string)
    (items : list (string * list string)) :
  NoDup items.*1 -> NoDup (dict_set key value items).*1.
Proof.
  intros Hnd. rewrite dict_set_keys.
  destruct (decide (key ∈ items.*1)) as [Hin|Hnot]; [exact Hnd|].
  apply NoDup_app. split; [exact Hnd|]. split.
  - intros x Hx [->|H]%elem_of_cons; [exact (Hnot Hx)|inversion H].
  - apply NoDup_singleton.
Qed.

Lemma dict_set_elem (key : string) (value : list string)
    (items : list (string * list string)) (k : string) (v : list string) :
  (k, v) ∈ dict_set key value items ->
  (k = key /\ v = value) \/ (k, v) ∈ items.
Proof.
  induction items as [|[k' v'] rest IH]; cbn [dict_set].
  - intros [[= -> ->]|H]%elem_of_cons; [auto|inversion H].
  - destruct (decide (k' = key)) as [->|Hne].
    + intros [[= -> ->]|H]%elem_of_cons; [auto|].
      right. apply elem_of_cons. right. exact H.
    + intros [[= -> ->]|H]%elem_of_cons.
      * right. apply elem_of_cons. left. reflexivity.
      * destruct (IH H) as [Hnew|Hold]; [auto|].
        right. apply elem_of_cons. right. exact Hold.
Qed.

Lemma resolve_editors_runs (server : nat -> Request -> Response)
    (batch_rows : Response -> list (option string)) (fuel : nat)
    (editors_publications : list (string * list (string * option string))) :
  (4 <= fuel)%nat ->
  forall (acc : list (string * list string)) (w : World),
    NoDup acc.*1 ->
    (forall editor ids, (editor, ids) ∈ acc -> ids <> []) ->
    exists (roster : list (string * list string)) (sent : list Request)
           (sleeps : list Z),
      resolve_editors server batch_rows fuel editors_publications acc w
      = (Ok (Some roster),
         {| requests := requests w ++ sent; slept := slept w ++ sleeps;
            stdout := stdout w |})
      /\ NoDup roster.*1
      /\ (forall editor ids,
            (editor, ids) ∈ roster ->
            ids <> []
            /\ ((editor, ids) ∈ acc \/ editor ∈ editors_publications.*1))
      /\ (length editors_publications <= length sent
          <= 5 * length editors_publications)%nat
      /\ (forall rq,
            rq ∈ sent ->
            exists fields editor publications,
              (editor, publications) ∈ editors_publications
              /\ rq = Post batch_url fields (lookup_ids publications))
      /\ total sleeps <= 15 * Z.of_nat (length editors_publications).
Proof.
  intros Hfuel.
  induction editors_publications as [|[editor publications] rest IH];
    intros acc w Hnd Hfull.
  - exists acc, [], []. cbn [resolve_editors]. unfold ret. rewrite !app_nil_r.
    split; [destruct w; reflexivity|]. split; [exact Hnd|].
    split; [intros e ids Hin; split; [exact (Hfull e ids Hin)|left; exact Hin]|].
    split; [cbn; lia|]. split; [intros rq H; inversion H|cbn; lia].
  - cbn [resolve_editors]. cbv zeta.
    destruct (batch_lookup_runs server fuel (lookup_ids publications) w Hfuel)
      as (r & sent1 & sleeps1 & Hrun & Hsent1 & Hposts & Htotal1).
    unfold bind at 1. rewrite Hrun.
    set (paper_ids := if status_code r =? 200
                      then omap (fun row => row) (batch_rows r) else []).
    set (acc' := match paper_ids with
                 | [] => acc
                 | _ :: _ => dict_set editor paper_ids acc
                 end).
    destruct (IH acc' {| requests := requests w ++ sent1;
                         slept := slept w ++ sleeps1; stdout := stdout w |})
      as (roster & sent & sleeps & -> & Hndr & Hroster & Hsent & Hreq & Htotal).
    + unfold acc'. destruct paper_ids; [exact Hnd|apply dict_set_NoDup, Hnd].
    + unfold acc'. intros e ids Hin. destruct paper_ids as [|i others] eqn:E.
      * exact (Hfull e ids Hin).
      * apply dict_set_elem in Hin as [[_ ->]|Hin]; [discriminate|].
        exact (Hfull e ids Hin).
    + exists roster, (sent1 ++ sent), (sleeps1 ++ sleeps).
      cbn [requests slept stdout]. rewrite <- !app_assoc.
      split; [reflexivity|]. split; [exact Hndr|]. split; [|split; [|split]].
      * intros e ids Hin. destruct (Hroster e ids Hin) as [Hne [Hacc|Hrest]].
        -- split; [exact Hne|]. unfold acc' in Hacc.
           destruct paper_ids as [|i others]; [left; exact Hacc|].
           apply dict_set_elem in Hacc as [[-> _]|Hacc]; [|left; exact Hacc].
           right. rewrite fmap_cons. apply elem_of_cons. left. reflexivity.
        -- split; [exact Hne|]. right. rewrite fmap_cons.
           apply elem_of_cons. right. exact Hrest.
      * rewrite length_app. cbn [length]. lia.
      * intros rq [Hrq|Hrq]%elem_of_app.
        -- destruct (Hposts rq Hrq) as (fields & ->).
           exists fields, editor, publications.
           split; [apply elem_of_cons; left; reflexivity|reflexivity].
        -- destruct (Hreq rq Hrq) as (fields & e & pubs & Hin & ->).
           exists fields, e, pubs.
           split; [apply elem_of_cons; right; exact Hin|reflexivity].
      * rewrite total_app. cbn [length]. lia.
Qed.

(** X22: with fuel for four retries of each lookup, the roster builder
    returns a roster for every server: its editors are pairwise distinct,
    as [check_papers] is entitled to expect of a dictionary, each of them
    is one of the scraped editors, and none has an empty list of ids. *)
Theorem resolve_editors_roster (server : nat -> Request -> Response)
    (batch_rows : Response -> list (option string)) (fuel : nat)
    (editors_publications : list (string * list (string * option string)))
    (w : World) :
  (4 <= fuel)%nat ->
  exists (roster : list (string * list string)) (w' : World),
    resolve_editors server batch_rows fuel editors_publications [] w
    = (Ok (Some roster), w')
    /\ NoDup roster.*1
    /\ (forall editor ids,
          (editor, ids) ∈ roster ->
          ids <> [] /\ editor ∈ editors_publications.*1).
Proof.
  intros Hfuel.
  destruct (resolve_editors_runs server batch_rows fuel editors_publications
              Hfuel [] w (NoDup_nil_2 (A:=string)))
    as (roster & sent & sleeps & Hrun & Hnd & Hroster & _).
  { intros e ids Hin. inversion Hin. }
  eexists roster, _. split; [exact Hrun|]. split; [exact Hnd|].
  intros e ids Hin. destruct (Hroster e ids Hin) as [Hne [Hacc|Hin']].
  - inversion Hacc.
  - split; assumption.
Qed.

Lemma resolve_editors_trace (server : nat -> Request -> Response)
    (batch_rows : Response -> list (option string)) (fuel : nat)
    (editors_publications : list (string * list (string * option string))) :
  (4 <= fuel)%nat ->
  forall (acc : list (string * list string)) (w : World),
  exists traces : list Trace,
    (resolve_editors server batch_rows fuel editors_publications acc w).2
    = foldl after_trace w traces
    /\ Forall2 editor_trace editors_publications traces.
Proof.
  intros Hfuel.
  induction editors_publications as [|[editor publications] rest IH];
    intros acc w.
  - exists []. split; [reflexivity|constructor].
  - cbn [resolve_editors]. cbv zeta.
    destruct (batch_lookup_runs server fuel (lookup_ids publications) w Hfuel)
      as (r & sent1 & sleeps1 & Hrun & Hsent1 & Hposts & Htotal1).
    unfold bind at 1. rewrite Hrun.
    set (acc' := match (if status_code r =? 200
                        then omap (fun row => row) (batch_rows r) else [])
                 with
                 | [] => acc
                 | _ :: _ => _
                 end).
    destruct (IH acc' {| requests := requests w ++ sent1;
                         slept := slept w ++ sleeps1; stdout := stdout w |})
      as (traces & Hworld & Hall).
    exists ({| trace_requests := sent1; trace_slept := sleeps1;
               trace_stdout := [] |} :: traces).
    split.
    + rewrite Hworld. cbn [foldl]. unfold after_trace at 3.
      cbn [trace_requests trace_slept trace_stdout]. rewrite app_nil_r.
      reflexivity.
    + constructor; [|exact Hall]. unfold editor_trace.
      cbn [trace_requests trace_slept trace_stdout snd]. auto.
Qed.

(** X23: the roster builder takes the scraped editors one after the
    other, and for each of them, also for an editor without any id, it
    sends at least one and at most five requests, each a batch lookup of
    the ids kept for that editor, sleeps at most 15 time units and prints
    nothing. *)
Theorem resolve_editors_requests (server : nat -> Request -> Response)
    (batch_rows : Response -> list (option string)) (fuel : nat)
    (editors_publications : list (string * list (string * option string)))
    (w : World) :
  (4 <= fuel)%nat ->
  exists traces : list Trace,
    (resolve_editors server batch_rows fuel editors_publications [] w).2
    = foldl after_trace w traces
    /\ Forall2 editor_trace editors_publications traces.
Proof. intros Hfuel. apply resolve_editors_trace, Hfuel. Qed.

Lemma omap_length_le {A B : Type} (f : A -> option B) (l : list A) :
  (length (omap f l) <= length l)%nat.
Proof.
  induction l as [|x l IH]; [reflexivity|].
  cbn [omap list_omap length]. destruct (f x); cbn [length]; lia.
Qed.

(** X24: the ids sent for an editor are ids of the editor's first 500
    publications, in their order: there are at most 500 of them, none is
    empty, and each is the id of a publication. *)
Theorem lookup_ids_kept (publications : list (string * option string)) :
  (length (lookup_ids publications) <= 500)%nat
  /\ (EmptyString ∉ lookup_ids publications)
  /\ (forall i,
        i ∈ lookup_ids publications <->
        i <> EmptyString
        /\ exists title, (title, Some i) ∈ take 500 publications).
Proof.
  unfold lookup_ids.
  assert (Hiff : forall i,
             i ∈ omap (fun publication : string * option string =>
                         match publication.2 with
                         | Some i => if decide (i = EmptyString) then None
                                     else Some i
                         | None => None
                         end) (take 500 publications) <->
             i <> EmptyString
             /\ exists title, (title, Some i) ∈ take 500 publications).
  { intros i. rewrite list_elem_of_omap. split.
    - intros ([title [j|]] & Hin & Hkeep); cbn [snd] in Hkeep; [|discriminate].
      destruct (decide (j = EmptyString)); [discriminate|].
      injection Hkeep as ->. split; [assumption|]. exists title. exact Hin.
    - intros (Hne & title & Hin). exists (title, Some i).
      split; [exact Hin|]. cbn [snd]. rewrite decide_False by exact Hne.
      reflexivity. }
  split; [|split].
  - etransitivity; [apply omap_length_le|]. rewrite length_take. lia.
  - intros Hin. apply Hiff in Hin as [Hne _]. exact (Hne eq_refl).
  - exact Hiff.
Qed.

(** ** From the bibliography and the editors to the search *)

Lemma resolve_editors_NoDup (server : nat -> Request -> Response)
    (batch_rows : Response -> list (option string)) (fuel : nat)
    (editors_publications : list (string * list (string * option string))) :
  forall (acc : list (string * list string)) (w : World)
         (roster : list (string * list string)) (w' : World),
    NoDup acc.*1 ->
    resolve_editors server batch_rows fuel editors_publications acc w
    = (Ok (Some roster), w') ->
    NoDup roster.*1.
Proof.
  induction editors_publications as [|[editor publications] rest IH];
    intros acc w roster w' Hnd Hrun.
  - injection Hrun as <- _. exact Hnd.
  - cbn [resolve_editors] in Hrun. cbv zeta in Hrun. unfold bind at 1 in Hrun.
    destruct (batch_lookup server fuel (lookup_ids publications) w)
      as [[[r|]|e] w1]; [|discriminate Hrun|discriminate Hrun].
    eapply IH; [|exact Hrun].
    destruct (if status_code r =? 200 then _ else _);
      [exact Hnd|apply dict_set_NoDup, Hnd].
Qed.

(** X25: the functions of [main] fit together: the papers that
    [get_papers_on_s2] returns and the roster that the roster builder
    returns, from whatever worlds, meet what the search needs. A search
    from them ends for every server, and it ends in a state when every
    answer with status 200 is readable; at each of its states the
    findings of an editor of the roster are the papers put on the fringe
    whose id the editor owns; and when it ends in a state every paper
    left on the fringe is deeper than [depth]. *)
Theorem search_of_resolved_inputs (server : nat -> Request -> Response)
    (search_data : Response -> option (list PaperRef))
    (batch_rows : Response -> list (option string)) (titles : list string)
    (editors_publications : list (string * list (string * option string)))
    (lookup_fuel : nat) (depth : Z) (w1 w2 w3 w4 w5 : World)
    (papers : list Paper) (roster : list (string * list string)) :
  get_papers_on_s2 server search_data titles w1 = (Ok papers, w2) ->
  resolve_editors server batch_rows lookup_fuel editors_publications [] w3
  = (Ok (Some roster), w4) ->
  (exists fuel r w, bfs server fuel depth papers roster w5 = (r, w) /\ ended r)
  /\ (answers_readable server ->
      exists fuel st w,
        bfs server fuel depth papers roster w5 = (Ok (Some st), w))
  /\ (forall enqueued st w editor ids,
        bfs_run server depth roster papers w5 enqueued st w ->
        (editor, ids) ∈ roster ->
        entry (findings st) editor
        = filter (fun paper => id paper ∈ ids) enqueued)
  /\ (forall fuel st w,
        bfs server fuel depth papers roster w5 = (Ok (Some st), w) ->
        forall p, p ∈ fringe st -> depth < get_path_depth p).
Proof.
  intros Hpapers Hroster.
  assert (Hseeds : forall p, p ∈ papers -> unparented p).
  { destruct (get_papers_on_s2_loop_runs server search_data titles [] w1)
      as (added & sent & sleeps & lines & Hrun & _ & Hunp & _).
    unfold get_papers_on_s2 in Hpapers. rewrite Hrun in Hpapers.
    injection Hpapers as <- _. exact Hunp. }
  assert (Hnd : NoDup roster.*1).
  { apply (resolve_editors_NoDup server batch_rows lookup_fuel
             editors_publications [] w3 roster w4 (NoDup_nil_2 (A:=string))
             Hroster). }
  split; [apply bfs_halts|]. split; [apply bfs_returns|]. split.
  - intros enqueued st w editor ids Hrun Hin.
    exact (proj1 (bfs_run_findings_entries _ _ _ _ _ _ _ _ Hnd Hrun)
             editor ids Hin).
  - intros fuel st w Hbfs. exact (bfs_end_fringe_deep _ _ _ _ _ _ _ _ Hseeds Hbfs).
Qed.

(** ** Where the papers of a search come from *)

Lemma origin_child (parent p : Paper) :
  child_of parent p -> origin p = origin parent.
Proof.
  destruct p as [i t c r]. intros [[Hc Hr]|[Hc Hr]]; cbn in *; subst; reflexivity.
Qed.

Lemma origin_unparented (p : Paper) : unparented p -> origin p = p.
Proof. destruct p as [i t c r]. intros [Hc Hr]. cbn in *. subst. reflexivity. Qed.

(** X26: in a search from seeds without provenance, the provenance links
    of every paper put on the fringe lead back to one of the seeds. *)
Theorem bfs_run_origin (server : nat -> Request -> Response) (depth : Z)
    (roster : list (string * list string)) (papers : list Paper) (w0 : World)
    (enqueued : list Paper) (st : BfsState) (w : World) :
  (forall p, p ∈ papers -> unparented p) ->
  bfs_run server depth roster papers w0 enqueued st w ->
  forall p, p ∈ enqueued -> origin p ∈ papers.
Proof.
  intros Hseeds Hrun.
  pose proof (bfs_run_visited_ids _ _ _ _ _ _ _ _ Hrun)
    as (_ & _ & later & -> & _ & _ & Hparents).
  assert (Hall : forall n p,
             (Z.to_nat (get_path_depth p) <= n)%nat ->
             p ∈ papers ++ later -> origin p ∈ papers).
  { induction n as [|n IH]; intros p Hdepth [Hp|Hp]%elem_of_app.
    - rewrite (origin_unparented p (Hseeds p Hp)). exact Hp.
    - destruct (Hparents p Hp) as (parent & _ & Hchild).
      rewrite (get_path_depth_child parent p Hchild) in Hdepth.
      pose proof (get_path_depth_nonneg parent). lia.
    - rewrite (origin_unparented p (Hseeds p Hp)). exact Hp.
    - destruct (Hparents p Hp) as (parent & Hparent & Hchild).
      rewrite (origin_child parent p Hchild). apply IH; [|exact Hparent].
      rewrite (get_path_depth_child parent p Hchild) in Hdepth.
      pose proof (get_path_depth_nonneg parent). lia. }
  intros p Hp. exact (Hall _ p (le_n _) Hp).
Qed.

(** * The theorems at concrete inputs *)

Lemma request_with_retries_returns_witness :
  request_with_retries limited_twice "u" 4 world0
  = (Ok (limited_twice 2%nat (Get "u")),
     {| requests := [Get "u"; Get "u"; Get "u"]; slept := [1; 2];
        stdout := [] |})
  /\ request_with_retries limited_twice "u" 4 world0
     = (Ok (limited_twice 2%nat (Get "u")),
        after_attempts "u" world0 3 (doubling 2))
  /\ request_with_retries always_429 "u" 4 world0
     = (Ok (always_429 3%nat (Get "u")),
        after_attempts "u" world0 4 (doubling 4)).
Proof.
  split; [|split].
  - apply (proj2 (proj2 (request_with_retries_returns limited_twice "u" 4
                           world0))); [lia|reflexivity..].
  - apply (proj1 (request_with_retries_returns limited_twice "u" 4 world0)
             2%nat); [lia| |discriminate].
    intros i Hi. destruct i as [|[|i]]; [reflexivity|reflexivity|lia].
  - apply (proj1 (proj2 (request_with_retries_returns always_429 "u" 4
                           world0))); [lia|reflexivity].
Defined.

Lemma request_with_retries_needs_an_attempt_witness :
  exists r w', request_with_retries limited_twice "u" 4 world0 = (Ok r, w').
Proof.
  apply (proj2 (request_with_retries_needs_an_attempt limited_twice "u" world0)).
  lia.
Defined.

Lemma request_with_retries_all_limited_witness :
  request_with_retries always_429 "u" 4 world0
  = (Ok (always_429 3%nat (Get "u")),
     {| requests := [Get "u"; Get "u"; Get "u"; Get "u"];
        slept := [1; 2; 4; 8]; stdout := [] |}).
Proof.
  apply (request_with_retries_all_limited always_429 "u" 4 world0);
    [lia|reflexivity].
Defined.


Lemma batch_lookup_backoff_bounded_witness :
  exists (r : Response) (sleeps : list Z),
    (batch_lookup always_429 4 ["ARXIV:1706.03762"] world0).2
    = {| requests :=
           Post batch_url "title,paperId" ["ARXIV:1706.03762"]
           :: replicate (length sleeps)
                (Post batch_url "title" ["ARXIV:1706.03762"]);
         slept := sleeps; stdout := [] |}
    /\ total sleeps <= 15
    /\ status_code r = 429.
Proof.
  destruct (batch_lookup_backoff_bounded always_429 4 ["ARXIV:1706.03762"]
              world0 (le_n 4))
    as (r & sleeps & Hrun & _ & Htotal & _).
  exists r, sleeps. rewrite Hrun. split; [reflexivity|]. split; [exact Htotal|].
  vm_compute in Hrun. injection Hrun as <- _. reflexivity.
Defined.

Lemma roster_E_keys : NoDup [("E", ["X"])].*1.
Proof.
  apply NoDup_cons. split; [|constructor]. intros H. inversion H.
Defined.

Lemma roster_E_entry : ("E", ["X"]) ∈ [("E", ["X"])].
Proof. apply elem_of_cons. left. reflexivity. Defined.

Lemma check_papers_appends_matches_witness :
  (check_papers [paper_X] [("E", ["X"])] ∅).1 !! "E" = Some [paper_X].
Proof.
  pose proof (proj1 (proj2 (proj1 (check_papers_appends_matches [paper_X]
                                     [("E", ["X"])] ∅ roster_E_keys)
                              "E" ["X"] roster_E_entry))) as Hentry.
  change (filter (fun paper => id paper ∈ ["X"]) [paper_X]) with [paper_X]
    in Hentry.
  apply Hentry. discriminate.
Defined.

Lemma check_papers_times_occurrences_witness :
  occurrences paper_X
    (entry (check_papers_times 3 [paper_X] [("E", ["X"])] ∅) "E")
  = 3%nat.
Proof.
  rewrite (check_papers_times_occurrences 3 [paper_X] [("E", ["X"])] ∅ "E"
             ["X"] paper_X roster_E_keys roster_E_entry).
  - reflexivity.
  - apply elem_of_cons. left. reflexivity.
Defined.

Lemma seed_P1_unparented : forall p, p ∈ [paper_P1] -> unparented p.
Proof.
  intros p Hp. apply elem_of_cons in Hp as [->|Hp]; [|inversion Hp].
  split; reflexivity.
Defined.

Lemma roster_Bob_keys : NoDup [("Bob", ["P2"])].*1.
Proof.
  apply NoDup_cons. split; [|constructor]. intros H. inversion H.
Defined.

Lemma cited_by_P2_readable : answers_readable cited_by_P2.
Proof.
  intros n rq _. split; [|exact I].
  apply Forall_cons. split; [|constructor]. split; eexists; reflexivity.
Defined.


Lemma bfs_loop_terminates_witness :
  (exists fuel st w,
      bfs cited_by_P2 fuel 0 [paper_P1] [("Bob", ["P2"])] world0
      = (Ok (Some st), w))
  /\ bfs_loop cited_by_P2 1 0 [("Bob", ["P2"])]
       {| fringe := [cited (new_Paper "P2" "Two") paper_P1; paper_X];
          found_ids := ∅; findings := ∅ |} world0
     = (Ok (Some {| fringe := [paper_X]; found_ids := ∅; findings := ∅ |}),
        world0).
Proof.
  destruct (bfs_loop_terminates cited_by_P2 0 [("Bob", ["P2"])])
    as (_ & _ & Hreturns & _ & Hcut & _).
  split.
  - apply (proj2 (Hreturns cited_by_P2_readable)).
  - apply Hcut. reflexivity.
Defined.

Lemma bfs_run_visited_set_witness :
  exists st w,
    bfs_run always_404 2 [] [paper_P1] world0 [paper_P1] st w
    /\ found_ids st = list_to_set (id <$> [paper_P1]).
Proof.
  eexists _, _.
  pose proof (run_start always_404 2 [] [paper_P1] world0 _ _
                (bfs_init_run [paper_P1] [] world0)) as Hrun.
  split; [exact Hrun|].
  exact (proj1 (bfs_run_visited_set _ _ _ _ _ _ _ _ Hrun)).
Defined.

Lemma request_with_retries_bounded_witness :
  exists (r : Response) (sent sleeps : nat),
    request_with_retries limited_twice "u" 4 world0
    = (Ok r, after_attempts "u" world0 sent (doubling sleeps))
    /\ (1 <= sent)%nat /\ Z.of_nat sent <= 4.
Proof.
  destruct (request_with_retries_bounded limited_twice "u" 4 world0)
    as (r & sent & sleeps & Hrun & Hone & Hmax & _); [lia|].
  exists r, sent, sleeps. split; [exact Hrun|]. split; assumption.
Defined.

Lemma check_papers_no_match_witness :
  check_papers [paper_P1] [("E", ["X"])] ∅ = (∅, []).
Proof.
  apply check_papers_no_match. intros editor ids paper Hentry Hpaper Hin.
  apply elem_of_cons in Hentry as [[= -> ->]|Hentry]; [|inversion Hentry].
  apply elem_of_cons in Hpaper as [->|Hpaper]; [|inversion Hpaper].
  apply elem_of_cons in Hin as [Heq|Hin]; [discriminate Heq|inversion Hin].
Defined.

Lemma check_papers_app_witness :
  (check_papers ([paper_X] ++ [paper_P1; paper_X]) [("E", ["X"])] ∅).1
  = (check_papers [paper_P1; paper_X] [("E", ["X"])]
       (check_papers [paper_X] [("E", ["X"])] ∅).1).1.
Proof. apply check_papers_app, roster_E_keys. Defined.

Lemma bfs_cutoff_drops_nothing_witness :
  exists st w,
    bfs cited_by_P2_P3 2 0 [paper_P1] [] world0 = (Ok (Some st), w)
    /\ fringe st = [cited (new_Paper "P3" "Three") paper_P1]
    /\ forall p, p ∈ fringe st -> 0 < get_path_depth p.
Proof.
  assert (Hrun : bfs cited_by_P2_P3 2 0 [paper_P1] [] world0
                 = two_neighbours_search) by (vm_compute; reflexivity).
  unfold two_neighbours_search in Hrun.
  eexists _, _. split; [exact Hrun|]. split; [reflexivity|].
  exact (bfs_cutoff_drops_nothing _ _ _ _ _ _ _ _ seed_P1_unparented Hrun).
Defined.

Lemma bfs_negative_depth_witness :
  (bfs cited_by_P2 1 (-1) [paper_P1; paper_X] [("E", ["X"])] world0).2
  = {| requests := []; slept := [];
       stdout := ["Beginning BFS..."; finding_notice "E" paper_X] |}.
Proof.
  rewrite (bfs_negative_depth cited_by_P2 0 (-1) [paper_P1; paper_X]
             [("E", ["X"])] world0) by lia.
  reflexivity.
Defined.

Lemma get_path_depth_0_iff_witness : get_path_depth paper_P1 = 0.
Proof. apply get_path_depth_0_iff. split; reflexivity. Defined.

Lemma cited_link_precedence_witness :
  get_path_depth (referenced_by (cited paper_X paper_P1) paper_P1)
  = get_path_depth (cited paper_X paper_P1).
Proof.
  apply (proj1 (cited_link_precedence (cited paper_X paper_P1) paper_P1)).
  eexists. reflexivity.
Defined.

Lemma fetch_citation_titles_returns_witness :
  (exists titles,
      fetch_citation_titles [{["title" := "A"]}; {["title" := "B"]}]
      = Returns titles
      /\ Some <$> titles = [Some "A"; Some "B"])
  /\ fetch_citation_titles [{["title" := "A"]}; {["author" := "B"]}]
     = Raises (KeyError "title").
Proof.
  split.
  - destruct (proj1 (fetch_citation_titles_returns
                       [{["title" := "A"]}; {["title" := "B"]}]))
      as (titles & Hrun & Htitles).
    + repeat constructor; eexists; reflexivity.
    + exists titles. split; [exact Hrun|exact Htitles].
  - apply (proj2 (fetch_citation_titles_returns
                    [{["title" := "A"]}; {["author" := "B"]}])).
    apply Exists_cons. right. apply Exists_cons. left. reflexivity.
Defined.

Lemma publication_id_arxiv_witness :
  exists arxiv_id,
    publication_id (Some "https://arxiv.org/abs/1706.03762")
    = Returns (Some ("ARXIV:" +:+ arxiv_id))
    /\ "/"%char ∉ chars arxiv_id.
Proof.
  destruct (publication_id_arxiv "https://arxiv.org/abs/1706.03762" eq_refl)
    as (arxiv_id & Hrun & Hslash & _).
  exists arxiv_id. split; assumption.
Defined.

Lemma publication_id_doi_cases_witness :
  publication_id (Some "https://doi.org") = Raises IndexError.
Proof.
  apply (proj2 (proj2 (publication_id_doi_cases "https://doi.org" eq_refl))).
  split; reflexivity.
Defined.

Lemma publication_id_doi_witness :
  publication_id (Some "https://doi.org/10.1145/3292500.3330701")
  = Returns (Some "DOI:10.1145/3292500.3330701").
Proof.
  exact (publication_id_doi "https://" "10.1145/3292500.3330701"
           eq_refl eq_refl eq_refl).
Defined.

Lemma resolve_editors_roster_witness :
  exists roster w',
    resolve_editors cited_by_P2 resolves_to_X 4 editor_E_publications []
      world0
    = (Ok (Some roster), w')
    /\ NoDup roster.*1.
Proof.
  destruct (resolve_editors_roster cited_by_P2 resolves_to_X 4
              editor_E_publications world0 (le_n 4))
    as (roster & w' & Hrun & Hnd & _).
  exists roster, w'. split; assumption.
Defined.

Lemma resolve_editors_requests_witness :
  exists t : Trace,
    (resolve_editors always_429 resolves_to_X 4 editor_E_publications []
       world0).2
    = after_trace world0 t
    /\ (1 <= length (trace_requests t) <= 5)%nat
    /\ total (trace_slept t) <= 15.
Proof.
  destruct (resolve_editors_requests always_429 resolves_to_X 4
              editor_E_publications world0 (le_n 4))
    as (traces & Hrun & Hall).
  apply Forall2_cons_inv_l in Hall as (t & rest & Ht & Hrest & ->).
  apply Forall2_nil_inv_l in Hrest as ->.
  exists t. split; [exact Hrun|].
  destruct Ht as (Hsent & _ & Htotal & _). split; [exact Hsent|exact Htotal].
Defined.

Lemma search_of_resolved_inputs_witness :
  exists fuel st w,
    bfs cited_by_P2 fuel 1 [paper_P1] [("E", ["X"])] world0
    = (Ok (Some st), w).
Proof.
  refine (proj1 (proj2
            (search_of_resolved_inputs cited_by_P2 finds_P1 resolves_to_X
               ["Seed"] editor_E_publications 4 1 world0
               (get_papers_on_s2 cited_by_P2 finds_P1 ["Seed"] world0).2
               world0
               (resolve_editors cited_by_P2 resolves_to_X 4
                  editor_E_publications [] world0).2
               world0 [paper_P1] [("E", ["X"])] _ _)) cited_by_P2_readable);
    vm_compute; reflexivity.
Defined.

(** The search from P1 against [cited_by_P2] after its first pass. *)
Lemma search_P1_first_pass :
  exists st w,
    bfs_run cited_by_P2 0 [("Bob", ["P2"])] [paper_P1] world0
      ([paper_P1] ++ [cited (new_Paper "P2" "Two") paper_P1]) st w.
Proof.
  eexists _, _.
  eapply (run_step cited_by_P2 0 [("Bob", ["P2"])] [paper_P1] world0
            [paper_P1] _ _ _ _ paper_P1 []
            [cited (new_Paper "P2" "Two") paper_P1]).
  - apply run_start, bfs_init_run.
  - lazy. reflexivity.
  - reflexivity.
  - reflexivity.
Defined.

Lemma bfs_run_findings_witness :
  exists st w,
    bfs_run cited_by_P2 0 [("Bob", ["P2"])] [paper_P1] world0
      ([paper_P1] ++ [cited (new_Paper "P2" "Two") paper_P1]) st w
    /\ entry (findings st) "Bob" = [cited (new_Paper "P2" "Two") paper_P1].
Proof.
  destruct search_P1_first_pass as (st & w & Hrun).
  exists st, w. split; [exact Hrun|].
  rewrite (proj1 (bfs_run_findings _ _ _ _ _ _ _ _ roster_Bob_keys Hrun)
             "Bob" ["P2"]); [reflexivity|].
  apply elem_of_cons. left. reflexivity.
Defined.

Lemma bfs_run_depth_bound_witness :
  Forall (fun p => 0 <= get_path_depth p <= 1)
    ([paper_P1] ++ [cited (new_Paper "P2" "Two") paper_P1]).
Proof.
  destruct search_P1_first_pass as (st & w & Hrun).
  apply Forall_forall.
  exact (proj1 (bfs_run_depth_bound _ _ _ _ _ _ _ _ seed_P1_unparented Hrun)).
Defined.

Lemma bfs_run_breadth_first_witness :
  StronglySorted no_deeper
    ([paper_P1] ++ [cited (new_Paper "P2" "Two") paper_P1]).
Proof.
  destruct search_P1_first_pass as (st & w & Hrun).
  exact (proj1 (bfs_run_breadth_first _ _ _ _ _ _ _ _ seed_P1_unparented Hrun)).
Defined.

Lemma bfs_run_found_count_witness :
  exists st w,
    bfs_run cited_by_P2 0 [("Bob", ["P2"])] [paper_P1] world0
      ([paper_P1] ++ [cited (new_Paper "P2" "Two") paper_P1]) st w
    /\ size (found_ids st) = 2%nat.
Proof.
  destruct search_P1_first_pass as (st & w & Hrun).
  exists st, w. split; [exact Hrun|].
  apply (proj2 (bfs_run_found_count _ _ _ _ _ _ _ _ Hrun)).
  apply NoDup_singleton.
Defined.

Lemma bfs_run_origin_witness :
  origin (cited (new_Paper "P2" "Two") paper_P1) ∈ [paper_P1].
Proof.
  destruct search_P1_first_pass as (st & w & Hrun).
  apply (bfs_run_origin _ _ _ _ _ _ _ _ seed_P1_unparented Hrun).
  apply elem_of_app. right. apply elem_of_cons. left. reflexivity.
Defined.
